(** * dynamiq: the node execution engine and the ReAct reasoning loop

    A shallow embedding of [dynamiq/nodes/node.py] (dependency validation,
    [Node.run], [Node.execute_with_retry], [Node.execute_with_timeout]) and of
    [dynamiq/nodes/agents/react.py] ([ReActAgent._run_agent] and its parsers),
    followed by the properties proved about them.

    Python values are a small universe [PyVal]; exceptions are values of
    [Exc] threaded through a state-and-error monad [Eff] over a [World] that
    holds what the code mutates or emits: callback deliveries, the sleeps and
    attempts of the retry wrapper, the clock, the agent's step log. *)

From Stdlib Require Import QArith Qpower.
From stdpp Require Import gmap strings list.

Local Set Warnings "-register-all".
Local Open Scope string_scope.
Local Open Scope list_scope.

(** ** Python values *)

(** Modelled from the spec: [RunnableStatus] of [dynamiq.runnables], which is
    not under src/: "the uniform outcome envelope (SUCCESS, FAILURE, SKIP)
    every node produces". *)
Inductive RunnableStatus := SUCCESS | FAILURE | SKIP.

#[global] Instance RunnableStatus_eq_dec : EqDecision RunnableStatus.
Proof. solve_decision. Defined.

(** [VResult] is a [RunnableResult] object stored inside another value (the
    per-option results in the output of a gating node). *)
Inductive PyVal :=
| VNone
| VBool (b : bool)
| VInt (z : Z)
| VStr (s : string)
| VList (l : list PyVal)
| VDict (d : list (string * PyVal))
| VResult (st : RunnableStatus) (inp out : PyVal).

(** A dict keeps insertion order; keys are strings. *)
Abbreviation PyDict := (list (string * PyVal)).

Fixpoint dict_get {V} (d : list (string * V)) (k : string) : option V :=
  match d with
  | [] => None
  | (k', v) :: d' => if decide (k' = k) then Some v else dict_get d' k
  end.

Fixpoint dict_set {V} (d : list (string * V)) (k : string) (v : V) : list (string * V) :=
  match d with
  | [] => [(k, v)]
  | (k', v') :: d' => if decide (k' = k) then (k, v) :: d' else (k', v') :: dict_set d' k v
  end.

(** [a | b] on two dicts: the entries of [b] win, new keys go last. *)
Definition dict_union {V} (a b : list (string * V)) : list (string * V) :=
  foldl (fun acc kv => dict_set acc kv.1 kv.2) a b.

(** Truth value of an object, as [if x:] and [x and y] test it. *)
Definition truthy (v : PyVal) : bool :=
  match v with
  | VNone => false
  | VBool b => b
  | VInt z => negb (z =? 0)%Z
  | VStr s => negb (String.eqb s EmptyString)
  | VList l => match l with [] => false | _ => true end
  | VDict d => match d with [] => false | _ => true end
  | VResult _ _ _ => true
  end.

Definition truthy_str (s : option string) : bool :=
  match s with Some s => negb (String.eqb s EmptyString) | None => false end.

(** ** Strings *)

(** [split_first pat s]: the text before and after the first occurrence of
    [pat] in [s]. *)
Fixpoint split_first (pat s : string) : option (string * string) :=
  if String.prefix pat s then Some (EmptyString, String.substring (String.length pat) (String.length s) s)
  else match s with
       | EmptyString => None
       | String c s' =>
           match split_first pat s' with
           | Some (before, after) => Some (String c before, after)
           | None => None
           end
       end.

(** [pat in s] *)
Definition contains (pat s : string) : bool :=
  match split_first pat s with Some _ => true | None => false end.

(** The characters [str.isspace] accepts below code point 256. *)
Definition is_space (a : Ascii.ascii) : bool :=
  let n := Ascii.nat_of_ascii a in
  (Nat.leb 9 n && Nat.leb n 13) || (Nat.leb 28 n && Nat.leb n 32) || Nat.eqb n 133 || Nat.eqb n 160.

Fixpoint lstrip (s : string) : string :=
  match s with
  | EmptyString => EmptyString
  | String a s' => if is_space a then lstrip s' else s
  end.

Definition rstrip (s : string) : string := String.rev (lstrip (String.rev s)).

(** [s.strip()] *)
Definition strip (s : string) : string := rstrip (lstrip s).

(** The text of [s] between the first [opening] that a [closing] follows
    and the nearest [closing] after it; empty when there is none. *)
Definition between (opening closing s : string) : string :=
  match split_first opening s with
  | Some (_, rest) =>
      match split_first closing rest with
      | Some (inner, _) => inner
      | None => EmptyString
      end
  | None => EmptyString
  end.

(** The characters [A-Za-z0-9_], none of which a regular expression reads
    as an operator. *)
Definition word_char (a : Ascii.ascii) : bool :=
  let n := Ascii.nat_of_ascii a in
  (Nat.leb 48 n && Nat.leb n 57) || (Nat.leb 65 n && Nat.leb n 90)
  || (Nat.leb 97 n && Nat.leb n 122) || Nat.eqb n 95.

Fixpoint word_tag (tag : string) : bool :=
  match tag with
  | EmptyString => true
  | String a tag' => word_char a && word_tag tag'
  end.

(** [sep.join(parts)] *)
Definition join (sep : string) (parts : list string) : string := String.concat sep parts.

(** ** Floats *)

(** A Python float: a finite value, which is a rational number, an infinity
    or not-a-number. *)
Inductive PyFloat :=
| Finite (q : Q)
| PosInf
| NegInf
| NaN.

Coercion Finite : Q >-> PyFloat.

(** ** Exceptions *)

Inductive ExcClass :=
| NodeException | NodeFailedException | NodeSkippedException | NodeConditionFailedException
| RecoverableAgentException | ActionParsingException | AgentMaxLoopsReached | AgentUnknownToolException
| TimeoutError | ValueError | TypeError | KeyError | IndexError | AttributeError | JSONDecodeError
| OtherException (name : string)
| BaseExceptionOnly (name : string).

#[global] Instance ExcClass_eq_dec : EqDecision ExcClass.
Proof. solve_decision. Defined.

(** [type(e).__name__] *)
Definition class_name (c : ExcClass) : string :=
  match c with
  | NodeException => "NodeException"
  | NodeFailedException => "NodeFailedException"
  | NodeSkippedException => "NodeSkippedException"
  | NodeConditionFailedException => "NodeConditionFailedException"
  | RecoverableAgentException => "RecoverableAgentException"
  | ActionParsingException => "ActionParsingException"
  | AgentMaxLoopsReached => "AgentMaxLoopsReached"
  | AgentUnknownToolException => "AgentUnknownToolException"
  | TimeoutError => "TimeoutError"
  | ValueError => "ValueError"
  | TypeError => "TypeError"
  | KeyError => "KeyError"
  | IndexError => "IndexError"
  | AttributeError => "AttributeError"
  | JSONDecodeError => "JSONDecodeError"
  | OtherException name => name
  | BaseExceptionOnly name => name
  end.

(** Modelled from the spec: the class hierarchy of [dynamiq.nodes.exceptions]
    and [dynamiq.nodes.agents.exceptions], which are not under src/. A failed,
    skipped or condition-failed dependency is "a normal, non-exceptional
    outcome" handled where [run] catches [NodeException], so the three are its
    subclasses; a parsing error is an "ActionParsingException-kind recoverable
    error"; loop exhaustion and an unknown tool name are "non-recoverable".
    [JSONDecodeError] derives from [ValueError] in the standard library. *)
Definition parent (c : ExcClass) : option ExcClass :=
  match c with
  | NodeFailedException | NodeSkippedException | NodeConditionFailedException => Some NodeException
  | ActionParsingException => Some RecoverableAgentException
  | JSONDecodeError => Some ValueError
  | _ => None
  end.

Definition subclass (c base : ExcClass) : bool :=
  bool_decide (c = base) ||
  match parent c with
  | Some p => bool_decide (p = base)
  | None => false
  end.

(** The edge of the dependency graph. [node] is the predecessor's id, the
    only attribute of it that validation reads; [gate] is the field the source
    calls [option]. *)
Record NodeDependency := {
  node : string;
  gate : option string;
}.

Record Exc := {
  exc_class : ExcClass;
  exc_msg : string;
  failed_depend : option NodeDependency;
}.

Definition isinstance (e : Exc) (c : ExcClass) : bool := subclass (exc_class e) c.

(** [isinstance(e, Exception)]: every class but those that derive from
    [BaseException] alone ([SystemExit], [KeyboardInterrupt], [GeneratorExit]
    and the classes a program derives from [BaseException] itself), which
    [BaseExceptionOnly] stands for; [OtherException] is any further class
    that derives from [Exception]. *)
Definition is_Exception (e : Exc) : bool :=
  match exc_class e with
  | BaseExceptionOnly _ => false
  | _ => true
  end.

Definition mk_exc (c : ExcClass) (msg : string) : Exc :=
  {| exc_class := c; exc_msg := msg; failed_depend := None |}.

(** [f"{type(e).__name__}: {e}"] *)
Definition exc_text (e : Exc) : string := class_name (exc_class e) +:+ ": " +:+ exc_msg e.

(** ** Results, callbacks, configuration *)

(** Modelled from the spec: [RunnableResult] of [dynamiq.runnables], which is
    not under src/: "{status, input, output}". An instance is an object like
    any other, so it is true in a boolean test. *)
Record RunnableResult := {
  status : RunnableStatus;
  input : PyVal;
  output : PyVal;
}.

(** Modelled from the spec: the hooks of [BaseCallbackHandler] in
    [dynamiq.callbacks], which is not under src/: "nine hooks - start, end,
    error, skip, execute-start, execute-end, execute-error, execute-run,
    execute-stream - each receiving a serialized view of the node plus
    event-specific payload"; the names are those [node.py] calls. *)
Inductive Event :=
| on_node_start (input_data : PyVal)
| on_node_end (output_data : PyVal)
| on_node_error (error : Exc)
| on_node_skip (skip_data : PyVal) (input_data : PyVal)
| on_node_execute_start (input_data : PyVal)
| on_node_execute_end (output_data : PyVal)
| on_node_execute_error (error : Exc)
| on_node_execute_run
| on_node_execute_stream (chunk : PyVal).

(** A handler is user code: on an event it returns ([None]) or raises. *)
Record BaseCallbackHandler := {
  handler_name : string;
  on_event : Event -> option Exc;
}.

(** Modelled from the spec: the cache backend behind [config.cache], from
    [dynamiq.cache], which is not under src/: "get(key) -> value?,
    set(key, value), keyed by node identity plus effective input". Either
    operation may fail. *)
Record CacheBackend := {
  backend_get : string -> Exc + option PyVal;
  backend_set : string -> PyVal -> option Exc;
}.

(** [RunnableConfig] of [dynamiq.runnables], as far as [node.py] and
    [react.py] read it. *)
Record RunnableConfig := {
  callbacks : list BaseCallbackHandler;
  cache : option CacheBackend;
}.

Definition ensure_config (config : option RunnableConfig) : RunnableConfig :=
  match config with
  | None => {| callbacks := []; cache := None |}
  | Some c => c
  end.

(** ** The world and the effect monad *)

Inductive Outcome (A : Type) :=
| Ok (a : A)
| Raise (e : Exc).
Arguments Ok {A} a.
Arguments Raise {A} e.

(** What the engine did, in order: the result each attempt handed to the
    retry loop, the sleeps, the cache stores. *)
Inductive Journal :=
| JExecute (result : Outcome PyVal)
| JSleep (seconds : Q)
| JCacheSet (key : string) (value : PyVal).

(** What an agent asked of its collaborators, in order. *)
Inductive Call :=
| CModel (prompt : string)
| CTool (action : PyVal) (action_input : PyVal).

(** Modelled from the spec: the step records of [dynamiq.nodes.agents.base],
    which is not under src/: "{input: prompt used, model_observation:
    {initial response, tool used, tool input, tool output, updated response},
    final_answer: optional}"; the field names are those [react.py] writes. *)
Record AgentIntermediateStepModelObservation := {
  initial : option string;
  tool_using : option PyVal;
  tool_input : option PyVal;
  tool_output : option PyVal;
  updated : option string;
}.

Record AgentIntermediateStep := {
  input_data : string;
  model_observation : AgentIntermediateStepModelObservation;
  final_answer : option PyVal;
}.

Record World := {
  deliveries : list (string * Event);
  journal : list Journal;
  calls : list Call;
  clock : Q;
  _intermediate_steps : gmap nat AgentIntermediateStep;
}.

Definition Eff (A : Type) : Type := World -> Outcome A * World.

Definition ret {A} (a : A) : Eff A := fun w => (Ok a, w).

Definition bind {A B} (m : Eff A) (k : A -> Eff B) : Eff B :=
  fun w => match m w with
           | (Ok a, w') => k a w'
           | (Raise e, w') => (Raise e, w')
           end.

Definition raise {A} (e : Exc) : Eff A := fun w => (Raise e, w).

Definition lift {A} (o : Outcome A) : Eff A := fun w => (o, w).

(** [try: m  except C as e: h e] *)
Definition try_except {A} (m : Eff A) (c : ExcClass) (h : Exc -> Eff A) : Eff A :=
  fun w => match m w with
           | (Raise e, w') => if isinstance e c then h e w' else (Raise e, w')
           | r => r
           end.

(** [try: m  except Exception as e: h e]: an exception that does not
    derive from [Exception] passes through. *)
Definition try_except_all {A} (m : Eff A) (h : Exc -> Eff A) : Eff A :=
  fun w => match m w with
           | (Raise e, w') => if is_Exception e then h e w' else (Raise e, w')
           | r => r
           end.

#[global] Instance Eff_ret : MRet Eff := @ret.
#[global] Instance Eff_bind : MBind Eff := fun A B k m => bind m k.

Definition log (j : Journal) : Eff unit :=
  fun w => (Ok tt, {| deliveries := deliveries w; journal := journal w ++ [j];
                     calls := calls w; clock := clock w;
                     _intermediate_steps := _intermediate_steps w |}).

Definition note (c : Call) : Eff unit :=
  fun w => (Ok tt, {| deliveries := deliveries w; journal := journal w;
                     calls := calls w ++ [c]; clock := clock w;
                     _intermediate_steps := _intermediate_steps w |}).

Definition deliver (h : string) (ev : Event) : Eff unit :=
  fun w => (Ok tt, {| deliveries := deliveries w ++ [(h, ev)]; journal := journal w;
                     calls := calls w; clock := clock w;
                     _intermediate_steps := _intermediate_steps w |}).

Definition advance (d : Q) : Eff unit :=
  fun w => (Ok tt, {| deliveries := deliveries w; journal := journal w;
                     calls := calls w; clock := (clock w + d)%Q;
                     _intermediate_steps := _intermediate_steps w |}).

(** [for callback in callbacks: callback.on_...(...)]: the handlers are
    called in registration order; one that raises ends the emission. *)
Fixpoint emit (cbs : list BaseCallbackHandler) (ev : Event) : Eff unit :=
  match cbs with
  | [] => ret tt
  | h :: cbs' =>
      deliver (handler_name h) ev ;;
      match on_event h ev with
      | Some e => raise e
      | None => emit cbs' ev
      end
  end.

(** ** Collaborators outside this repository slice

    Functions that [node.py] and [react.py] import from modules that are not
    part of the sources at hand ([dynamiq.utils], [dynamiq.utils.jsonpath],
    [dynamiq.runnables], [dynamiq.nodes.agents.base]), the [json] and [re]
    modules, the float arithmetic of the interpreter and the platform limit
    of [time.sleep]. They are taken as parameters. *)
Class Externals := {
  (** [format_value(e)] / [format_value(e, recoverable=b)] *)
  format_value : Exc -> option bool -> PyVal;
  to_tracing_depend_dict : RunnableResult -> PyVal;
  to_depend_dict : RunnableResult -> PyVal;
  (** [NodeDependency.to_dict], which serialises the predecessor node *)
  dependency_to_dict : NodeDependency -> PyVal;
  jsonpath_filter : PyVal -> option string -> string -> Outcome PyVal;
  jsonpath_mapper : PyVal -> option (list (string * string)) -> string -> Outcome PyVal;
  cache_key : string -> PyVal -> string;
  (** [json.loads]: the decoded value, or what it raises:
      [json.JSONDecodeError] on text that is not JSON, and [RecursionError]
      and the like on text it gives up on *)
  json_loads : string -> Outcome PyVal;
  (** it raises none of the agent's own exception classes *)
  json_loads_foreign :
    forall s e, json_loads s = Raise e -> isinstance e ActionParsingException = false;
  json_dumps : PyVal -> string;
  (** [str(x)], as an f-string renders a value *)
  py_str : PyVal -> string;
  generate_prompt : string -> string -> string -> string -> string;
  _parse_action : string -> Outcome (PyVal * PyVal);
  (** [x ** n] on a float [x] and an int [n]: float arithmetic, which
      rounds, and raises [OverflowError] when the power is out of range *)
  float_pow : PyFloat -> Z -> Outcome PyFloat;
  (** [x * y] on floats: the rounded product, an infinity when it is out of
      range *)
  float_mul : PyFloat -> PyFloat -> PyFloat;
  (** [time.sleep] on a finite length beyond what the clock of the platform
      holds: the [OverflowError] it raises *)
  sleep_refused : Q -> option Exc;
  (** [re.search(pattern, text, re.DOTALL)] for a pattern with one group:
      [re.error] when the pattern does not compile, no match, or the match
      with its [group(1)], which is [None] when the group took no part *)
  re_search : string -> string -> Outcome (option (option string));
}.

(** ** Nodes *)

(** The deadline is a finite float; the interval and the rate of the retry
    schedule are floats, and the arithmetic on them is the interpreter's. *)
Record ErrorHandling := {
  timeout_seconds : option Q;
  retry_interval_seconds : PyFloat;
  max_retries : Z;
  backoff_rate : PyFloat;
}.

Record Transformer := {
  path : option string;
  selector : option (list (string * string));
}.

Record CachingConfig := { enabled : bool }.

(** [StreamingConfig] of [dynamiq.types.streaming], as far as [react.py]
    reads it: the field [enabled]. *)
Record StreamingConfig := { streaming_enabled : bool }.

Record Node := {
  id : string;
  name : option string;
  error_handling : ErrorHandling;
  input_transformer : Transformer;
  output_transformer : Transformer;
  caching : CachingConfig;
  streaming : StreamingConfig;
  depends : list NodeDependency;
  (** the abstract method *)
  execute : PyVal -> RunnableConfig -> Eff PyVal;
}.

Section Engine.
Context `{Externals}.

(** *** Dependency validation *)

Definition _validate_dependency_status
    (depend : NodeDependency) (depends_result : list (string * RunnableResult)) : Outcome unit :=
  match dict_get depends_result (node depend) with
  | None =>
      Raise {| exc_class := NodeException;
               exc_msg := "Dependency " +:+ node depend +:+ ": result missed";
               failed_depend := Some depend |}
  | Some dep_result =>
      if decide (status dep_result = FAILURE) then
        Raise {| exc_class := NodeFailedException;
                 exc_msg := "Dependency " +:+ node depend +:+ ": failed";
                 failed_depend := Some depend |}
      else if decide (status dep_result = SKIP) then
        Raise {| exc_class := NodeSkippedException;
                 exc_msg := "Dependency " +:+ node depend +:+ ": skipped";
                 failed_depend := Some depend |}
      else Ok tt
  end.

(** [x.status] on a value read out of a predecessor's output. *)
Definition status_attr (v : PyVal) : Outcome RunnableStatus :=
  match v with
  | VResult st _ _ => Ok st
  | _ => Raise (mk_exc AttributeError "object has no attribute 'status'")
  end.

Definition _validate_dependency_condition
    (depend : NodeDependency) (depends_result : list (string * RunnableResult)) : Outcome unit :=
  match dict_get depends_result (node depend) with
  | Some dep_output_data =>
      match output dep_output_data with
      | VDict out =>
          match gate depend ≫= dict_get out with
          | Some dep_condition_data =>
              if truthy dep_condition_data then
                match status_attr dep_condition_data with
                | Ok st =>
                    if decide (st = FAILURE) then
                      Raise {| exc_class := NodeConditionFailedException;
                               exc_msg := "Dependency " +:+ node depend +:+ " condition "
                                          +:+ default "None" (gate depend) +:+ ": result is false";
                               failed_depend := Some depend |}
                    else Ok tt
                | Raise e => Raise e
                end
              else Ok tt
          | None => Ok tt
          end
      | _ => Ok tt
      end
  | None => Ok tt
  end.

Fixpoint validate_each (deps : list NodeDependency)
    (depends_result : list (string * RunnableResult)) : Outcome unit :=
  match deps with
  | [] => Ok tt
  | dep :: deps' =>
      match _validate_dependency_status dep depends_result with
      | Raise e => Raise e
      | Ok _ =>
          match (if truthy_str (gate dep)
                 then _validate_dependency_condition dep depends_result
                 else Ok tt) with
          | Raise e => Raise e
          | Ok _ => validate_each deps' depends_result
          end
      end
  end.

Definition validate_depends (self : Node) (depends_result : list (string * RunnableResult))
    : Outcome unit :=
  validate_each (depends self) depends_result.

(** *** Transform stage *)

Definition transform (data : PyVal) (transformer : Transformer) (node_id : string) : Outcome PyVal :=
  match jsonpath_filter data (path transformer) node_id with
  | Ok out => jsonpath_mapper out (selector transformer) node_id
  | Raise e => Raise e
  end.

Definition transform_input (self : Node) (input_data : PyVal) : Outcome PyVal :=
  transform input_data (input_transformer self) (id self).

Definition transform_output (self : Node) (output_data : PyVal) : Outcome PyVal :=
  transform output_data (output_transformer self) (id self).

(** *** Callback emission *)

Definition run_on_node_start cbs (input_data : PyVal) : Eff unit := emit cbs (on_node_start input_data).
Definition run_on_node_end cbs (output_data : PyVal) : Eff unit := emit cbs (on_node_end output_data).
Definition run_on_node_error cbs (error : Exc) : Eff unit := emit cbs (on_node_error error).
Definition run_on_node_skip cbs (skip_data input_data : PyVal) : Eff unit :=
  emit cbs (on_node_skip skip_data input_data).
Definition run_on_node_execute_start cbs (input_data : PyVal) : Eff unit :=
  emit cbs (on_node_execute_start input_data).
Definition run_on_node_execute_end cbs (output_data : PyVal) : Eff unit :=
  emit cbs (on_node_execute_end output_data).
Definition run_on_node_execute_error cbs (error : Exc) : Eff unit :=
  emit cbs (on_node_execute_error error).
Definition run_on_node_execute_run cbs : Eff unit := emit cbs on_node_execute_run.
Definition run_on_node_execute_stream cbs (chunk : PyVal) : Eff unit :=
  emit cbs (on_node_execute_stream chunk).

(** *** Timeout and retry *)

(** [time.sleep(seconds)]: a length that is not a number or negative is a
    [ValueError], one that the clock of the platform cannot hold (an
    infinity, or a finite length [sleep_refused] knows) an [OverflowError];
    any other length is slept. *)
Definition time_sleep (seconds : PyFloat) : Eff unit :=
  match seconds with
  | Finite s =>
      match sleep_refused s with
      | Some e => raise e
      | None =>
          if Qle_bool 0 s then log (JSleep s) ;; advance s
          else raise (mk_exc ValueError "sleep length must be non-negative")
      end
  | PosInf | NegInf =>
      raise (mk_exc (OtherException "OverflowError")
               "timestamp too large to convert to C _PyTime_t")
  | NaN => raise (mk_exc ValueError "Invalid value NaN (not a number)")
  end.

(** [retry_interval_seconds * (backoff_rate ** attempt)] *)
Definition time_to_sleep (self : Node) (attempt : Z) : Outcome PyFloat :=
  match float_pow (backoff_rate (error_handling self)) attempt with
  | Ok power => Ok (float_mul (retry_interval_seconds (error_handling self)) power)
  | Raise e => Raise e
  end.

(** [future.result(timeout=timeout)] hands back what [execute] returned or
    raised, or raises [TimeoutError] once the deadline has passed; leaving the
    [with ThreadPoolExecutor()] block then waits for the worker, so the
    effects of a timed-out attempt are part of the resulting world. The
    journal is the engine's own, out of reach of the node's logic: it is
    carried across the attempt and extended with what the attempt handed to
    the retry loop. *)
Definition execute_with_timeout (self : Node) (timeout : option Q)
    (input_data : PyVal) (config : RunnableConfig) : Eff PyVal :=
  fun w =>
    let '(r, w') := execute self input_data config w in
    let observed :=
      match timeout with
      | Some t => if Qle_bool (clock w' - clock w) t then r
                  else Raise (mk_exc TimeoutError EmptyString)
      | None => r
      end in
    (observed,
     {| deliveries := deliveries w'; journal := journal w ++ [JExecute observed];
        calls := calls w'; clock := clock w';
        _intermediate_steps := _intermediate_steps w' |}).

(** The body of [for attempt in range(n_attempt)], with [todo] iterations
    left. The two handlers ([TimeoutError], [Exception]) differ only in the
    log line, so they are one here; the [try] block covers the execute-end
    callback as well, and neither the wait nor the sleep. *)
Fixpoint retry_attempts (self : Node) (input_data : PyVal) (config : RunnableConfig)
    (n_attempt : Z) (todo : nat) (attempt : Z) (error : option Exc) : Eff PyVal :=
  match todo with
  | O =>
      match error with
      | Some e => raise e
      | None => raise (mk_exc TypeError "exceptions must derive from BaseException")
      end
  | S todo' =>
      run_on_node_execute_start (callbacks config) input_data ;;
      r ← try_except_all
            (out ← execute_with_timeout self (timeout_seconds (error_handling self))
                     input_data config;
             run_on_node_execute_end (callbacks config) out ;;
             mret (inl out))
            (fun e => run_on_node_execute_error (callbacks config) e ;; mret (inr e));
      match r with
      | inl out => mret out
      | inr e =>
          (if (attempt <? n_attempt - 1)%Z
           then seconds ← lift (time_to_sleep self attempt); time_sleep seconds
           else mret tt) ;;
          retry_attempts self input_data config n_attempt todo' (attempt + 1)%Z (Some e)
      end
  end.

Definition execute_with_retry (self : Node) (input_data : PyVal)
    (config : option RunnableConfig) : Eff PyVal :=
  let config := ensure_config config in
  let n_attempt := (max_retries (error_handling self) + 1)%Z in
  retry_attempts self input_data config n_attempt (Z.to_nat n_attempt) 0%Z None.

(** *** Cache gate *)

(** Modelled from the spec: [cache_wf_entity] of [dynamiq.cache.utils], which
    is not under src/. "If caching is enabled and a prior result for this
    node identity exists and is still valid, short-circuit ... using the
    cached output and mark the result as cache-sourced; otherwise proceed";
    "disabled unless both the node's caching.enabled and the run-level cache
    configuration permit it"; "at most one cache store per successful
    execution". *)
Definition cache_wf_entity (entity_id : string) (cache_enabled : bool)
    (cache_config : option CacheBackend) (func : PyVal -> Eff PyVal)
    (input_data : PyVal) : Eff (PyVal * bool) :=
  match cache_config with
  | Some backend =>
      if cache_enabled then
        let key := cache_key entity_id input_data in
        match backend_get backend key with
        | inl e => raise e
        | inr (Some v) => mret (v, true)
        | inr None =>
            out ← func input_data;
            log (JCacheSet key out) ;;
            match backend_set backend key out with
            | Some e => raise e
            | None => mret (out, false)
            end
        end
      else out ← func input_data; mret (out, false)
  | None => out ← func input_data; mret (out, false)
  end.

(** *** [Node.run] *)

(** [a | b] with a dict on the right: anything but a dict on the left is a
    [TypeError]. *)
Definition py_or (a : PyVal) (b : PyDict) : Outcome PyDict :=
  match a with
  | VDict d => Ok (dict_union d b)
  | _ => Raise (mk_exc TypeError "unsupported operand type(s) for |")
  end.

Definition on_depends (f : RunnableResult -> PyVal)
    (depends_result : list (string * RunnableResult)) : PyDict :=
  map (fun kr => (kr.1, f kr.2)) depends_result.

(** The second [try] block of [run]. *)
Definition run_body (self : Node) (input_data : PyVal) (config : RunnableConfig)
    (depends_result : list (string * RunnableResult)) (transformed_input : PyVal)
    : Eff RunnableResult :=
  transformed_input ←
    (if truthy_str (path (input_transformer self))
        || match selector (input_transformer self) with Some (_ :: _) => true | _ => false end
     then
       merged ← lift (py_or input_data (on_depends to_depend_dict depends_result));
       lift (transform_input self (VDict merged))
     else mret transformed_input);
  run_on_node_start (callbacks config) transformed_input ;;
  '(out, from_cache) ←
    cache_wf_entity (id self) (enabled (caching self)) (cache config)
      (fun x => execute_with_retry self x (Some config)) transformed_input;
  transformed_output ← lift (transform_output self out);
  run_on_node_end (callbacks config) transformed_output ;;
  mret {| status := SUCCESS; input := transformed_input; output := transformed_output |}.

Definition run (self : Node) (input_data : PyVal) (config : option RunnableConfig)
    (depends_result : option (list (string * RunnableResult))) : Eff RunnableResult :=
  let config := ensure_config config in
  let depends_result := default [] depends_result in
  merged ← lift (py_or input_data (on_depends to_tracing_depend_dict depends_result));
  let transformed_input := VDict merged in
  match validate_depends self depends_result with
  | Raise e =>
      if isinstance e NodeException then
        failed ← match failed_depend e with
                 | Some d => mret (dependency_to_dict d)
                 | None => raise (mk_exc AttributeError "'NoneType' object has no attribute 'to_dict'")
                 end;
        let skip_data := VDict [("failed_dependency", failed)] in
        run_on_node_skip (callbacks config) skip_data transformed_input ;;
        mret {| status := SKIP; input := transformed_input; output := format_value e None |}
      else raise e
  | Ok _ =>
      try_except_all
        (run_body self input_data config depends_result transformed_input)
        (fun e =>
           run_on_node_error (callbacks config) e ;;
           let recoverable := isinstance e RecoverableAgentException in
           mret {| status := FAILURE; input := input_data;
                   output := format_value e (Some recoverable) |})
  end.

End Engine.

(** ** The ReAct agent *)

(** Modelled from the spec: [InferenceMode] of [dynamiq.nodes.types], which
    is not under src/: the "closed enumeration {DEFAULT, XML,
    FUNCTION_CALLING, STRUCTURED_OUTPUT}". *)
Inductive InferenceMode := DEFAULT | XML | FUNCTION_CALLING | STRUCTURED_OUTPUT.

(** Modelled from the spec: the result of the model capability, "{status,
    output} where output contains either content (text) or
    tool_calls[0].function.{name,arguments} depending on mode". *)
Record LLMOutput := {
  content : option string;
  tool_calls : list (string * string);
}.

Record LLMResult := {
  llm_status : RunnableStatus;
  llm_output : LLMOutput;
}.

(** The model and the tools are nodes of their own; the agent sees them as
    functions of what it has asked so far and of their input. *)
Record ReActAgent := {
  agent_id : string;
  agent_name : string;
  agent_error_handling : ErrorHandling;
  agent_input_transformer : Transformer;
  agent_output_transformer : Transformer;
  agent_caching : CachingConfig;
  agent_streaming : StreamingConfig;
  agent_depends : list NodeDependency;
  max_loops : nat;
  inference_mode : InferenceMode;
  llm : list Call -> string -> LLMResult;
  tools : list string;
  tool_description : string;
  tool_names : string;
  run_tool : list Call -> string -> PyVal -> Outcome PyVal;
}.

(** What one pass through the loop body leaves the loop with. *)
Inductive LoopStep :=
| Continue (previous_responses : list string)
| Return (final_answer : PyVal).

(** What the mode-specific decoding of a successful response yields. *)
Inductive Parsed :=
| Final (final_answer : PyVal)
| Act (llm_generated_output : string) (action action_input : PyVal).

Definition set_steps (f : gmap nat AgentIntermediateStep -> gmap nat AgentIntermediateStep)
    : Eff unit :=
  fun w => (Ok tt, {| deliveries := deliveries w; journal := journal w; calls := calls w;
                     clock := clock w; _intermediate_steps := f (_intermediate_steps w) |}).

Definition get_step (loop_num : nat) : Eff AgentIntermediateStep :=
  fun w => match _intermediate_steps w !! loop_num with
           | Some s => (Ok s, w)
           | None => (Raise (mk_exc KeyError "loop_num"), w)
           end.

Definition opt_dump {A} (f : A -> PyVal) (o : option A) : PyVal :=
  match o with Some a => f a | None => VNone end.

(** [model_dump()] of a step *)
Definition step_dump (s : AgentIntermediateStep) : PyVal :=
  VDict [("input_data", VDict [("prompt", VStr (input_data s))]);
         ("model_observation",
           VDict [("initial", opt_dump VStr (initial (model_observation s)));
                  ("tool_using", opt_dump (fun x => x) (tool_using (model_observation s)));
                  ("tool_input", opt_dump (fun x => x) (tool_input (model_observation s)));
                  ("tool_output", opt_dump (fun x => x) (tool_output (model_observation s)));
                  ("updated", opt_dump VStr (updated (model_observation s)))]);
         ("final_answer", opt_dump (fun x => x) (final_answer s))].

(** [v[k]] on a decoded JSON value *)
Definition subscript (v : PyVal) (k : string) : Outcome PyVal :=
  match v with
  | VDict d =>
      match dict_get d k with
      | Some x => Ok x
      | None => Raise (mk_exc KeyError k)
      end
  | _ => Raise (mk_exc TypeError "object is not subscriptable with a string key")
  end.

Definition get_content (o : LLMOutput) : Outcome string :=
  match content o with
  | Some c => Ok c
  | None => Raise (mk_exc KeyError "content")
  end.

Definition first_tool_call (o : LLMOutput) : Outcome (string * string) :=
  match tool_calls o with
  | call :: _ => Ok call
  | [] => Raise (mk_exc KeyError "tool_calls")
  end.

(** An f-string renders a string as itself. *)
Definition render `{Externals} (v : PyVal) : string :=
  match v with
  | VStr s => s
  | _ => py_str v
  end.

Definition py_eq_str (v : PyVal) (s : string) : bool :=
  match v with
  | VStr s' => String.eqb s' s
  | _ => false
  end.

Section Agent.
Context `{Externals}.

(** [re.search(f"<{tag}>(.*?)</{tag}>", text, re.DOTALL)] followed by
    the stripped group of the match, or the empty string without a match.
    The tag goes into the pattern as it is. A tag of word characters adds no
    metacharacter, so the pattern matches literally: the first opening tag
    that a closing tag follows, up to the nearest closing tag ([between]).
    Any other tag makes the pattern a regular expression of its own, which
    is left to [re_search]. *)
Definition parse_xml_content (text tag : string) : Outcome string :=
  if word_tag tag then Ok (strip (between ("<" +:+ tag +:+ ">") ("</" +:+ tag +:+ ">") text))
  else
    match re_search ("<" +:+ tag +:+ ">(.*?)</" +:+ tag +:+ ">") text with
    | Raise e => Raise e
    | Ok None => Ok EmptyString
    | Ok (Some (Some group)) => Ok (strip group)
    | Ok (Some None) =>
        Raise (mk_exc AttributeError "'NoneType' object has no attribute 'strip'")
    end.

Definition parse_xml_and_extract_info (text : string) : Outcome (PyVal * PyVal) :=
  match parse_xml_content text "output" with
  | Raise e => Raise e
  | Ok output_content =>
      match parse_xml_content output_content "action" with
      | Raise e => Raise e
      | Ok action =>
          match parse_xml_content output_content "action_input" with
          | Raise e => Raise e
          | Ok action_input_text =>
              match json_loads action_input_text with
              | Ok action_input => Ok (VStr action, action_input)
              | Raise e =>
                  if isinstance e JSONDecodeError then
                    Raise (mk_exc ActionParsingException
                             ("Error: Could not parse action and action input."
                              +:+ "Please rewrite in the appropriate XML format with action_input as a valid dictionary."))
                  else Raise e
              end
          end
      end
  end.

Definition extract_output_and_answer_xml (text : string) : Outcome (string * string) :=
  match parse_xml_content text "output" with
  | Raise e => Raise e
  | Ok output =>
      match parse_xml_content text "answer" with
      | Raise e => Raise e
      | Ok answer => Ok (output, answer)
      end
  end.

Definition _extract_final_answer_xml (llm_output : string) : Outcome string :=
  match extract_output_and_answer_xml llm_output with
  | Raise e => Raise e
  | Ok final_answer => Ok final_answer.2
  end.

(** Modelled from the spec: [Agent._extract_final_answer] of
    [dynamiq.nodes.agents.base], which is not under src/. For the default mode
    "termination is the literal marker" [Answer:] and "the text after the
    marker is returned verbatim (trimmed)". *)
Definition _extract_final_answer (llm_output : string) : string :=
  match split_first "Answer:" llm_output with
  | Some (_, after) => strip after
  | None => EmptyString
  end.

(** Modelled from the spec: [Agent._get_tool] of [dynamiq.nodes.agents.base],
    which is not under src/. "Resolve tool by action name (unknown name is a
    hard, non-recoverable error)". *)
Definition _get_tool (self : ReActAgent) (action : PyVal) : Outcome string :=
  match action with
  | VStr a =>
      if bool_decide (a ∈ tools self) then Ok a
      else Raise (mk_exc AgentUnknownToolException ("Unknown tool: " +:+ a))
  | _ => Raise (mk_exc AgentUnknownToolException "Unknown tool")
  end.

(** Modelled from the spec: [Agent._run_tool] of [dynamiq.nodes.agents.base],
    which is not under src/. The tool capability is "any node exposing
    execute(input) -> output"; it hands back its output or raises, a
    "dedicated recoverable error kind" among its errors. *)
Definition _run_tool (self : ReActAgent) (tool : string) (action_input : PyVal) : Eff PyVal :=
  fun w => (note (CTool (VStr tool) action_input) ;;
            lift (run_tool self (calls w) tool action_input)) w.

(** [self.llm.run(...)] *)
Definition llm_run (self : ReActAgent) (formatted_prompt : string) : Eff LLMResult :=
  fun w => (note (CModel formatted_prompt) ;; mret (llm self (calls w) formatted_prompt)) w.

Definition tracing_intermediate (loop_num : nat) (formatted_prompt llm_generated_output : string)
    : Eff unit :=
  set_steps (<[loop_num :=
    {| input_data := formatted_prompt;
       model_observation := {| initial := Some llm_generated_output; tool_using := None;
                               tool_input := None; tool_output := None; updated := None |};
       final_answer := None |}]>).

Definition tracing_final (self : ReActAgent) (loop_num : nat) (answer : PyVal)
    (config : RunnableConfig) : Eff unit :=
  s ← get_step loop_num;
  set_steps (<[loop_num := {| input_data := input_data s;
                              model_observation := model_observation s;
                              final_answer := Some answer |}]>) ;;
  if streaming_enabled (agent_streaming self) then
    s' ← get_step loop_num;
    run_on_node_execute_stream (callbacks config) (step_dump s')
  else mret tt.

(** [match self.inference_mode: ...] on a successful model response *)
Definition parse_response (self : ReActAgent) (config : RunnableConfig) (loop_num : nat)
    (formatted_prompt : string) (llm_result : LLMResult) : Eff Parsed :=
  match inference_mode self with
  | DEFAULT =>
      llm_generated_output ← lift (get_content (llm_output llm_result));
      tracing_intermediate loop_num formatted_prompt llm_generated_output ;;
      if contains "Answer:" llm_generated_output then
        let answer := VStr (_extract_final_answer llm_generated_output) in
        tracing_final self loop_num answer config ;;
        mret (Final answer)
      else
        '(action, action_input) ← lift (_parse_action llm_generated_output);
        mret (Act llm_generated_output action action_input)
  | FUNCTION_CALLING =>
      call ← lift (first_tool_call (llm_output llm_result));
      let function_name := strip call.1 in
      llm_generated_output_json ← lift (json_loads call.2);
      let llm_generated_output := json_dumps llm_generated_output_json in
      tracing_intermediate loop_num formatted_prompt llm_generated_output ;;
      if String.eqb function_name "provide_final_answer" then
        answer ← lift (subscript llm_generated_output_json "answer");
        tracing_final self loop_num answer config ;;
        mret (Final answer)
      else
        action ← lift (subscript llm_generated_output_json "action");
        action_input ← lift (subscript llm_generated_output_json "action_input");
        mret (Act llm_generated_output action (VDict [("input", action_input)]))
  | STRUCTURED_OUTPUT =>
      text ← lift (get_content (llm_output llm_result));
      llm_generated_output_json ← lift (json_loads text);
      action ← lift (subscript llm_generated_output_json "action");
      action_input ← lift (subscript llm_generated_output_json "action_input");
      let llm_generated_output := json_dumps llm_generated_output_json in
      tracing_intermediate loop_num formatted_prompt llm_generated_output ;;
      if py_eq_str action "finish" then
        answer ← lift (subscript llm_generated_output_json "action_input");
        tracing_final self loop_num answer config ;;
        mret (Final answer)
      else mret (Act llm_generated_output action (VDict [("input", action_input)]))
  | XML =>
      llm_generated_output ← lift (get_content (llm_output llm_result));
      tracing_intermediate loop_num formatted_prompt llm_generated_output ;;
      if contains "<answer>" llm_generated_output then
        final_answer ← lift (_extract_final_answer_xml llm_generated_output);
        let answer := VStr final_answer in
        tracing_final self loop_num answer config ;;
        mret (Final answer)
      else
        '(action, action_input) ← lift (parse_xml_and_extract_info llm_generated_output);
        mret (Act llm_generated_output action action_input)
  end.

(** [if action: ... if self.tools: ...]: the text pushed onto the context *)
Definition dispatch (self : ReActAgent) (config : RunnableConfig) (loop_num : nat)
    (llm_generated_output : string) (action action_input : PyVal) : Eff string :=
  if truthy action then
    match tools self with
    | [] => mret llm_generated_output
    | _ :: _ =>
        tool_result ←
          try_except
            (tool ← lift (_get_tool self action);
             _run_tool self tool action_input)
            RecoverableAgentException
            (fun e => mret (VStr (exc_text e)));
        let llm_generated_output :=
          llm_generated_output +:+ "
Observation: " +:+ render tool_result +:+ "
" in
        s ← get_step loop_num;
        (** [.update(...model_dump())] writes every field of the fresh
            observation, the unset [initial] included *)
        set_steps (<[loop_num :=
          {| input_data := input_data s;
             model_observation := {| initial := None; tool_using := Some action;
                                     tool_input := Some action_input;
                                     tool_output := Some tool_result;
                                     updated := Some llm_generated_output |};
             final_answer := final_answer s |}]>) ;;
        (if streaming_enabled (agent_streaming self) then
           s' ← get_step loop_num;
           run_on_node_execute_stream (callbacks config) (step_dump s')
         else mret tt) ;;
        mret llm_generated_output
    end
  else mret llm_generated_output.

(** The body of [for loop_num in range(self.max_loops)]. *)
Definition react_iteration (self : ReActAgent) (config : RunnableConfig) (user_request : string)
    (loop_num : nat) (previous_responses : list string) : Eff LoopStep :=
  let formatted_prompt :=
    generate_prompt user_request (tool_description self) (tool_names self)
      (join "
" previous_responses) in
  try_except
    (llm_result ← llm_run self formatted_prompt;
     if negb (bool_decide (llm_status llm_result = SUCCESS)) then
       text ← lift (get_content (llm_output llm_result));
       mret (Continue (previous_responses ++ [text]))
     else
       parsed ← parse_response self config loop_num formatted_prompt llm_result;
       match parsed with
       | Final answer => mret (Return answer)
       | Act llm_generated_output action action_input =>
           text ← dispatch self config loop_num llm_generated_output action action_input;
           mret (Continue (previous_responses ++ [text]))
       end)
    ActionParsingException
    (fun e => mret (Continue (previous_responses ++ [exc_text e]))).

Fixpoint react_loop (self : ReActAgent) (config : RunnableConfig) (user_request : string)
    (todo loop_num : nat) (previous_responses : list string) : Eff PyVal :=
  match todo with
  | O =>
      raise (mk_exc AgentMaxLoopsReached
               ("Agent " +:+ agent_name self +:+ " - " +:+ agent_id self
                +:+ ": Maximum number of loops reached."))
  | S todo' =>
      step ← react_iteration self config user_request loop_num previous_responses;
      match step with
      | Return answer => mret answer
      | Continue previous_responses' =>
          react_loop self config user_request todo' (S loop_num) previous_responses'
      end
  end.

Definition _run_agent (self : ReActAgent) (config : RunnableConfig) (user_request : string)
    : Eff PyVal :=
  react_loop self config user_request (max_loops self) 0 [].

(** Modelled from the spec: [Agent.execute] of [dynamiq.nodes.agents.base],
    which is not under src/. The loop "runs as the execute body of an agent
    node"; the step log is "owned exclusively by the Reasoning Loop instance
    for the duration of one run"; the prompt carries "the original user
    request"; "on success the loop returns a final answer which flows back
    out through output transform and callback emission". *)
Definition agent_execute (self : ReActAgent) (input_data : PyVal) (config : RunnableConfig)
    : Eff PyVal :=
  set_steps (fun _ => ∅) ;;
  let user_request :=
    match input_data with
    | VDict d => match dict_get d "input" with Some v => render v | None => EmptyString end
    | _ => EmptyString
    end in
  _run_agent self config user_request.

(** The agent as the node the engine runs. *)
Definition as_node (self : ReActAgent) : Node :=
  {| id := agent_id self; name := Some (agent_name self);
     error_handling := agent_error_handling self;
     input_transformer := agent_input_transformer self;
     output_transformer := agent_output_transformer self;
     caching := agent_caching self; streaming := agent_streaming self;
     depends := agent_depends self;
     execute := agent_execute self |}.

End Agent.

(** ** Vocabulary of the statements *)

(** The world after the deliveries [l] / the journal entries [l]. *)
Definition delivered (l : list (string * Event)) (w : World) : World :=
  {| deliveries := deliveries w ++ l; journal := journal w; calls := calls w;
     clock := clock w; _intermediate_steps := _intermediate_steps w |}.

Definition journaled (l : list Journal) (w : World) : World :=
  {| deliveries := deliveries w; journal := journal w ++ l; calls := calls w;
     clock := clock w; _intermediate_steps := _intermediate_steps w |}.

Definition called (l : list Call) (w : World) : World :=
  {| deliveries := deliveries w; journal := journal w; calls := calls w ++ l;
     clock := clock w; _intermediate_steps := _intermediate_steps w |}.

(** One delivery of [ev] to each handler, in registration order. *)
Definition fan_out (cbs : list BaseCallbackHandler) (ev : Event) : list (string * Event) :=
  map (fun h => (handler_name h, ev)) cbs.

(** Observers that record and return: no hook of theirs raises. *)
Definition quiet (cbs : list BaseCallbackHandler) : Prop :=
  ∀ h ev, h ∈ cbs → on_event h ev = None.

(** Every gate field that validation looks into is a result object. *)
Definition gates_well_formed (deps : list NodeDependency)
    (depends_result : list (string * RunnableResult)) : Prop :=
  ∀ dep r out k v,
    dep ∈ deps → dict_get depends_result (node dep) = Some r → output r = VDict out →
    gate dep = Some k → dict_get out k = Some v → truthy v = true →
    ∃ st i o, v = VResult st i o.

(** The wait after attempt [attempt] comes out as the finite float
    [seconds], a length [time.sleep] takes. *)
Definition wait_slept `{Externals} (self : Node) (attempt : Z) (seconds : Q) : Prop :=
  time_to_sleep self attempt = Ok (Finite seconds)
  ∧ (0 <= seconds)%Q
  ∧ sleep_refused seconds = None.

(** What the retry wrapper leaves in the journal when every attempt fails:
    the error of each attempt, and after each attempt but the last a sleep of
    [wait attempt] seconds. *)
Fixpoint retry_journal (wait : Z → Q) (attempt : Z) (errors : list Exc) : list Journal :=
  match errors with
  | [] => []
  | e :: rest =>
      JExecute (Raise e) ::
      match rest with
      | [] => []
      | _ :: _ => JSleep (wait attempt) :: retry_journal wait (attempt + 1)%Z rest
      end
  end.

(** [raise error] at the end of [execute_with_retry] *)
Definition final_raise (error : option Exc) : Exc :=
  match error with
  | Some e => e
  | None => mk_exc TypeError "exceptions must derive from BaseException"
  end.

(** The world after an update of the step log. *)
Definition stepped (f : gmap nat AgentIntermediateStep → gmap nat AgentIntermediateStep)
    (w : World) : World :=
  {| deliveries := deliveries w; journal := journal w; calls := calls w; clock := clock w;
     _intermediate_steps := f (_intermediate_steps w) |}.

(** The record [tracing_intermediate] stores. *)
Definition fresh_step (formatted_prompt llm_generated_output : string) : AgentIntermediateStep :=
  {| input_data := formatted_prompt;
     model_observation := {| initial := Some llm_generated_output; tool_using := None;
                             tool_input := None; tool_output := None; updated := None |};
     final_answer := None |}.

(** The same record once [tracing_final] has filed the answer. *)
Definition final_step (formatted_prompt llm_generated_output : string) (answer : PyVal)
    : AgentIntermediateStep :=
  {| input_data := formatted_prompt;
     model_observation := {| initial := Some llm_generated_output; tool_using := None;
                             tool_input := None; tool_output := None; updated := None |};
     final_answer := Some answer |}.

(** The number of model calls / of tool runs among the calls made. *)
Definition is_model_call (c : Call) : bool :=
  match c with CModel _ => true | _ => false end.

Definition is_tool_call (c : Call) : bool :=
  match c with CTool _ _ => true | _ => false end.

Definition model_calls (cs : list Call) : nat :=
  length (filter (fun c => is_model_call c = true) cs).

Definition tool_runs (cs : list Call) : nat :=
  length (filter (fun c => is_tool_call c = true) cs).

(** A computation respects [R] when [R] relates every world to the world it
    leaves, whatever it returns or raises. *)
Definition respects {A} (R : World → World → Prop) (m : Eff A) : Prop :=
  ∀ w, R w (m w).2.

(** What the part of an iteration after the model call may change: it
    leaves the engine's journal and the clock alone, calls the model no
    further, writes no step but the one of its own [loop_num], and does not
    remove that one. *)
Definition within_iteration (loop_num : nat) (w w' : World) : Prop :=
  journal w' = journal w
  ∧ clock w' = clock w
  ∧ model_calls (calls w') = model_calls (calls w)
  ∧ (∀ j, j ≠ loop_num → _intermediate_steps w' !! j = _intermediate_steps w !! j)
  ∧ (is_Some (_intermediate_steps w !! loop_num) → is_Some (_intermediate_steps w' !! loop_num)).

(** The prompt of an iteration. *)
Definition prompt_of `{Externals} (self : ReActAgent) (user_request : string)
    (previous_responses : list string) : string :=
  generate_prompt user_request (tool_description self) (tool_names self)
    (join "
" previous_responses).

(** The [try] block of an iteration from the point where the model has
    answered [llm_result]. *)
Definition iteration_tail `{Externals} (self : ReActAgent) (config : RunnableConfig)
    (loop_num : nat) (formatted_prompt : string) (previous_responses : list string)
    (llm_result : LLMResult) : Eff LoopStep :=
  if negb (bool_decide (llm_status llm_result = SUCCESS)) then
    text ← lift (get_content (llm_output llm_result));
    mret (Continue (previous_responses ++ [text]))
  else
    parsed ← parse_response self config loop_num formatted_prompt llm_result;
    match parsed with
    | Final answer => mret (Return answer)
    | Act llm_generated_output action action_input =>
        text ← dispatch self config loop_num llm_generated_output action action_input;
        mret (Continue (previous_responses ++ [text]))
    end.

(** The stream events of an iteration's step, when the agent streams. *)
Definition streamed (self : ReActAgent) (config : RunnableConfig) (s : AgentIntermediateStep)
    : list (string * Event) :=
  if streaming_enabled (agent_streaming self)
  then fan_out (callbacks config) (on_node_execute_stream (step_dump s))
  else [].

(** The world after an iteration that asked the model with prompt [p], got
    [out] and ended the run with [answer]: one model call, the step of
    [loop_num] filed with its final answer, the step streamed. *)
Definition answered (self : ReActAgent) (config : RunnableConfig) (loop_num : nat)
    (p out : string) (answer : PyVal) (w : World) : World :=
  delivered (streamed self config (final_step p out answer))
    (stepped (<[loop_num := final_step p out answer]>) (called [CModel p] w)).

(** The error [_run_agent] ends with when the loop runs out. *)
Definition max_loops_error (self : ReActAgent) : Exc :=
  mk_exc AgentMaxLoopsReached
    ("Agent " +:+ agent_name self +:+ " - " +:+ agent_id self
     +:+ ": Maximum number of loops reached.").

(** No iteration ends the loop or aborts it: each one hands the loop a
    context to go on with. *)
Definition always_continues `{Externals} (self : ReActAgent) (config : RunnableConfig)
    (user_request : string) : Prop :=
  ∀ k prev w, ∃ prev', (react_iteration self config user_request k prev w).1 = Ok (Continue prev').

(** The action of a response is one the agent can act on: it is empty, the
    agent has no tools, or it names one of the agent's tools. *)
Definition dispatchable (self : ReActAgent) (action : PyVal) : Prop :=
  truthy action = false ∨ tools self = [] ∨ ∃ a, action = VStr a ∧ a ∈ tools self.

(** A response that carries no terminal action and no payload that aborts
    the run: in the text modes the text has no answer marker and parses to a
    dispatchable action or fails to parse with the parsing exception; in the
    JSON modes the payload decodes to a mapping with [action] and
    [action_input] that names neither the final-answer function nor the
    action [finish], the action being dispatchable. *)
Definition non_terminal `{Externals} (self : ReActAgent) (r : LLMResult) : Prop :=
  match inference_mode self with
  | DEFAULT =>
      ∃ text, content (llm_output r) = Some text ∧ contains "Answer:" text = false ∧
        match _parse_action text with
        | Ok (action, _) => dispatchable self action
        | Raise e => isinstance e ActionParsingException = true
        end
  | XML =>
      ∃ text, content (llm_output r) = Some text ∧ contains "<answer>" text = false ∧
        match parse_xml_and_extract_info text with
        | Ok (action, _) => dispatchable self action
        | Raise e => isinstance e ActionParsingException = true
        end
  | FUNCTION_CALLING =>
      ∃ function_name arguments others j action action_input,
        tool_calls (llm_output r) = (function_name, arguments) :: others
        ∧ String.eqb (strip function_name) "provide_final_answer" = false
        ∧ json_loads arguments = Ok j
        ∧ subscript j "action" = Ok action
        ∧ subscript j "action_input" = Ok action_input
        ∧ dispatchable self action
  | STRUCTURED_OUTPUT =>
      ∃ text j action action_input,
        content (llm_output r) = Some text
        ∧ json_loads text = Ok j
        ∧ subscript j "action" = Ok action
        ∧ subscript j "action_input" = Ok action_input
        ∧ py_eq_str action "finish" = false
        ∧ dispatchable self action
  end.

(** The model succeeds on every call and never produces a terminal action. *)
Definition never_terminal `{Externals} (self : ReActAgent) : Prop :=
  ∀ cs p, llm_status (llm self cs p) = SUCCESS ∧ non_terminal self (llm self cs p).

(** The tools fail with recoverable errors only. *)
Definition tools_recoverable (self : ReActAgent) : Prop :=
  ∀ cs tool action_input e,
    run_tool self cs tool action_input = Raise e →
    isinstance e RecoverableAgentException = true.

(** The request [agent_execute] reads off the input: [kwargs.get("input")],
    the empty string by default. *)
Definition request_of `{Externals} (input_data : PyVal) : string :=
  match input_data with
  | VDict d => match dict_get d "input" with Some v => render v | None => EmptyString end
  | _ => EmptyString
  end.

(** ** Concrete collaborators, nodes and agents for the examples *)

Definition dq : string := String (Ascii.ascii_of_nat 34) EmptyString.

(** The text [{"answer": "42"}] *)
Definition json_answer_42 : string :=
  "{" +:+ dq +:+ "answer" +:+ dq +:+ ": " +:+ dq +:+ "42" +:+ dq +:+ "}".

Definition status_name (s : RunnableStatus) : string :=
  match s with SUCCESS => "success" | FAILURE => "failure" | SKIP => "skip" end.

(** [n] opening brackets: the start of an array nested [n] deep. *)
Fixpoint brackets (n : nat) : string :=
  match n with
  | O => EmptyString
  | S n' => String (Ascii.ascii_of_nat 91) (brackets n')
  end.

(** Float arithmetic on the values of the examples, small integers, on
    which it is exact; a power beyond the largest float (about [2 ^ 1024]) is
    out of range. *)
Definition exact_pow (x : PyFloat) (n : Z) : Outcome PyFloat :=
  match x with
  | Finite q =>
      if Qle_bool (q ^ n) (2 ^ 1024) && Qle_bool (- (2 ^ 1024)) (q ^ n)
      then Ok (Finite (q ^ n))
      else Raise (mk_exc (OtherException "OverflowError") "(34, 'Numerical result out of range')")
  | _ => Ok x
  end.

Definition exact_mul (x y : PyFloat) : PyFloat :=
  match x, y with
  | Finite a, Finite b =>
      if Qle_bool (2 ^ 1024) (a * b) then PosInf
      else if Qle_bool (a * b) (- (2 ^ 1024)) then NegInf
      else Finite (a * b)
  | _, _ => NaN
  end.

(** The clock counts nanoseconds in 64 bits: about [9.2e9] seconds. *)
Definition beyond_clock (s : Q) : option Exc :=
  if Qle_bool s 9223372036 && Qle_bool (- 9223372036) s then None
  else Some (mk_exc (OtherException "OverflowError")
               "timestamp too large to convert to C _PyTime_t").

(** The collaborators of the examples. The decoder knows two texts, gives up
    with [RecursionError] on an array nested two thousand deep, beyond the
    recursion limit of the interpreter, and takes any other text for
    malformed; no pattern other than the literal ones is searched for. *)
#[global] Instance demo_externals : Externals := {|
  format_value e recoverable :=
    VDict (("content", VStr (exc_msg e)) ::
           match recoverable with
           | Some b => [("recoverable", VBool b)]
           | None => []
           end);
  to_tracing_depend_dict r := VDict [("status", VStr (status_name (status r)))];
  to_depend_dict r := VDict [("status", VStr (status_name (status r))); ("output", output r)];
  dependency_to_dict dep := VDict [("node", VStr (node dep))];
  jsonpath_filter data _ _ := Ok data;
  jsonpath_mapper data _ _ := Ok data;
  cache_key entity_id _ := entity_id;
  json_loads s :=
    if String.eqb s json_answer_42 then Ok (VDict [("answer", VStr "42")])
    else if String.eqb s "{}" then Ok (VDict [])
    else if String.prefix (brackets 2000) s
    then Raise (mk_exc (OtherException "RecursionError")
                  "maximum recursion depth exceeded while decoding a JSON array")
    else Raise (mk_exc JSONDecodeError "Expecting value");
  json_loads_foreign := ltac:(intros s e; cbv beta; repeat case_match; intros ?; simplify_eq; reflexivity);
  json_dumps _ := "{...}";
  py_str _ := "<object>";
  generate_prompt user_request _ _ context := user_request +:+ " | " +:+ context;
  _parse_action s :=
    if contains "Action:" s then Ok (VStr "search", VDict [])
    else Raise (mk_exc ActionParsingException "Could not parse action");
  float_pow := exact_pow;
  float_mul := exact_mul;
  sleep_refused := beyond_clock;
  re_search _ _ := Ok None;
|}.

Definition w0 : World :=
  {| deliveries := []; journal := []; calls := []; clock := 0%Q; _intermediate_steps := ∅ |}.

Definition no_transformer : Transformer := {| path := None; selector := None |}.

Definition plain_node (node_id : string) (eh : ErrorHandling) (deps : list NodeDependency)
    (body : PyVal -> RunnableConfig -> Eff PyVal) : Node :=
  {| id := node_id; name := None; error_handling := eh;
     input_transformer := no_transformer; output_transformer := no_transformer;
     caching := {| enabled := false |}; streaming := {| streaming_enabled := false |};
     depends := deps; execute := body |}.

Definition default_error_handling : ErrorHandling :=
  {| timeout_seconds := None; retry_interval_seconds := 1%Q; max_retries := 0%Z;
     backoff_rate := 1%Q |}.

Definition boom : Exc := mk_exc (OtherException "RuntimeError") "boom".

(** A node whose [execute] always raises, retried twice with doubling waits. *)
Definition failing_node : Node :=
  plain_node "failing"
    {| timeout_seconds := None; retry_interval_seconds := 1%Q; max_retries := 2%Z;
       backoff_rate := 2%Q |}
    [] (fun _ _ => raise boom).

(** A node that fails on its first attempt and echoes its input afterwards:
    it reads the engine's journal to know whether it has run before. *)
Definition flaky_node : Node :=
  plain_node "flaky"
    {| timeout_seconds := None; retry_interval_seconds := 1%Q; max_retries := 2%Z;
       backoff_rate := 2%Q |}
    [] (fun x _ w => match journal w with
                     | [] => (Raise boom, w)
                     | _ :: _ => (Ok x, w)
                     end).

(** A node that takes three seconds, with a deadline of two. *)
Definition slow_node : Node :=
  plain_node "slow"
    {| timeout_seconds := Some 2%Q; retry_interval_seconds := 1%Q; max_retries := 0%Z;
       backoff_rate := 1%Q |}
    [] (fun x _ => advance 3%Q ;; mret x).

Definition echo_node (deps : list NodeDependency) : Node :=
  plain_node "echo" default_error_handling deps (fun x _ => mret x).

Definition recorder : BaseCallbackHandler :=
  {| handler_name := "recorder"; on_event := fun _ => None |}.

(** An observer whose error hook itself fails. *)
Definition faulty_observer : BaseCallbackHandler :=
  {| handler_name := "faulty";
     on_event ev := match ev with
                    | on_node_error _ => Some (mk_exc (OtherException "RuntimeError") "observer failed")
                    | _ => None
                    end |}.

(** An observer whose start hook fails. *)
Definition start_faulty_observer : BaseCallbackHandler :=
  {| handler_name := "start-faulty";
     on_event ev := match ev with
                    | on_node_start _ => Some (mk_exc (OtherException "RuntimeError") "start failed")
                    | _ => None
                    end |}.

Definition recording : RunnableConfig := {| callbacks := [recorder]; cache := None |}.
Definition faulty : RunnableConfig := {| callbacks := [faulty_observer]; cache := None |}.

Definition gated : NodeDependency := {| node := "choice"; gate := Some "yes" |}.
Definition plain_dep : NodeDependency := {| node := "upstream"; gate := None |}.

Definition result_of (st : RunnableStatus) (out : PyVal) : RunnableResult :=
  {| status := st; input := VDict []; output := out |}.

Definition says (text : string) : list Call -> string -> LLMResult :=
  fun _ _ => {| llm_status := SUCCESS;
                llm_output := {| content := Some text; tool_calls := [] |} |}.

Definition calls_function (fname arguments : string) : list Call -> string -> LLMResult :=
  fun _ _ => {| llm_status := SUCCESS;
                llm_output := {| content := None; tool_calls := [(fname, arguments)] |} |}.

Definition unavailable : list Call -> string -> LLMResult :=
  fun _ _ => {| llm_status := FAILURE;
                llm_output := {| content := Some "model unavailable"; tool_calls := [] |} |}.

Definition demo_agent (mode : InferenceMode) (loops : nat)
    (model : list Call -> string -> LLMResult) : ReActAgent :=
  {| agent_id := "agent-1"; agent_name := "React";
     agent_error_handling := default_error_handling;
     agent_input_transformer := no_transformer; agent_output_transformer := no_transformer;
     agent_caching := {| enabled := false |};
     agent_streaming := {| streaming_enabled := false |};
     agent_depends := []; max_loops := loops; inference_mode := mode; llm := model;
     tools := ["search"]; tool_description := "search: looks things up";
     tool_names := "search";
     run_tool := fun _ _ _ => Ok (VStr "found") |}.

(** A model that keeps asking for the search tool. *)
Definition exploring_agent : ReActAgent :=
  demo_agent DEFAULT 3 (says "Thought: look it up
Action: search
Action Input: {}").

(** A function-calling model whose arguments are not JSON. *)
Definition garbled_agent : ReActAgent :=
  demo_agent FUNCTION_CALLING 3 (calls_function "plan_next_action" "{oops").

Definition answering_agent : ReActAgent :=
  demo_agent DEFAULT 5 (says "Thought: I can answer without using any tools
Answer:  Paris
").

Definition xml_agent : ReActAgent :=
  demo_agent XML 5
    (says "<output><thought>search</thought><action>search</action><action_input>{oops</action_input></output>").

Definition final_answer_agent : ReActAgent :=
  demo_agent FUNCTION_CALLING 5 (calls_function "provide_final_answer" json_answer_42).

Definition silent_agent : ReActAgent := demo_agent DEFAULT 1 unavailable.

(** The exploring agent with a search tool that reports a recoverable error. *)
Definition rate_limited_agent : ReActAgent :=
  {| agent_id := "agent-2"; agent_name := "React";
     agent_error_handling := default_error_handling;
     agent_input_transformer := no_transformer; agent_output_transformer := no_transformer;
     agent_caching := {| enabled := false |};
     agent_streaming := {| streaming_enabled := false |};
     agent_depends := []; max_loops := 3; inference_mode := DEFAULT;
     llm := says "Action: search";
     tools := ["search"]; tool_description := "search: looks things up";
     tool_names := "search";
     run_tool := fun _ _ _ => Raise (mk_exc RecoverableAgentException "rate limited") |}.

(** * More of [node.py]: declaring dependencies, input streaming *)

(** ** [Node.depends_on] *)

(** What a caller may hand to [depends_on]: a node, a Python list (of nodes
    or of anything else), or some other object. *)
Inductive PyArg :=
| ANode (n : Node)
| AList (l : list PyArg)
| AVal (v : PyVal).

(** [isinstance(x, Node)] *)
Definition is_node (a : PyArg) : bool :=
  match a with ANode _ => true | _ => false end.

(** [type(x).__name__] *)
Definition type_name (a : PyArg) : string :=
  match a with
  | ANode _ => "Node"
  | AList _ => "list"
  | AVal VNone => "NoneType"
  | AVal (VBool _) => "bool"
  | AVal (VInt _) => "int"
  | AVal (VStr _) => "str"
  | AVal (VList _) => "list"
  | AVal (VDict _) => "dict"
  | AVal (VResult _ _ _) => "RunnableResult"
  end.

(** The items of a Python list, [None] for anything that is not a list. *)
Definition list_items (a : PyArg) : option (list PyArg) :=
  match a with
  | AList l => Some l
  | AVal (VList l) => Some (map AVal l)
  | _ => None
  end.

(** [NodeDependency(node)]: the edge to [node], with no option. *)
Definition new_dependency (a : PyArg) : option NodeDependency :=
  match a with
  | ANode n => Some {| node := id n; gate := None |}
  | _ => None
  end.

Definition with_depends (self : Node) (deps : list NodeDependency) : Node :=
  {| id := id self; name := name self; error_handling := error_handling self;
     input_transformer := input_transformer self;
     output_transformer := output_transformer self;
     caching := caching self; streaming := streaming self;
     depends := deps; execute := execute self |}.

(** The node after the call ([self.depends] is appended to in place and
    [self] is returned), or the exception; the checks all precede the first
    append. *)
Definition depends_on (self : Node) (nodes : PyArg) : Outcome Node :=
  match nodes with
  | AVal VNone => Raise (mk_exc ValueError "Nodes cannot be None.")
  | _ =>
      let nodes := match nodes with ANode _ => AList [nodes] | _ => nodes end in
      match list_items nodes with
      | Some items =>
          if forallb is_node items then
            match items with
            | [] => Raise (mk_exc ValueError "Cannot add an empty list of dependencies.")
            | _ :: _ => Ok (with_depends self (depends self ++ omap new_dependency items))
            end
          else
            Raise (mk_exc TypeError
                     ("Expected a Node or a list of Node instances, but got "
                      +:+ type_name nodes +:+ "."))
      | None =>
          Raise (mk_exc TypeError
                   ("Expected a Node or a list of Node instances, but got "
                    +:+ type_name nodes +:+ "."))
      end
  end.

(** ** [Node.get_input_streaming_event] *)

(** [StreamingConfig] of [dynamiq.types.streaming], as far as input
    streaming reads it. [input_queue], when there is one, is given by the
    raw messages the [get]s of a call obtain, in order; past them a [get]
    obtains nothing. [input_queue_done_event], when there is one, is set by
    the producer: [is_set()] is a function of the number of messages the
    call has taken so far. *)
Record InputStreamingConfig := {
  input_streaming_enabled : bool;
  input_queue : option (list string);
  timeout : option Q;
  input_queue_done_event : option (nat -> bool);
}.

(** How a call that reads the queue ends: it returns or raises, leaving
    [rest] in the queue, or it waits for ever. *)
Inductive Polled (A : Type) :=
| Returned (result : Outcome A) (rest : list string)
| Blocked.
Arguments Returned {A} result rest.
Arguments Blocked {A}.

(** [queue.get(timeout=timeout)] of the standard library: a negative
    timeout is a [ValueError]; on an empty queue the call waits, for ever
    without a timeout and until [queue.Empty] is raised with one. *)
Inductive Got :=
| Item (data : string) (rest : list string)
| QueueEmpty
| Refused (e : Exc)
| Waits.

Definition queue_get (queue : list string) (timeout : option Q) : Got :=
  match timeout with
  | Some t =>
      if Qle_bool 0 t then
        match queue with
        | data :: rest => Item data rest
        | [] => QueueEmpty
        end
      else Refused (mk_exc ValueError "'timeout' must be a non-negative number")
  | None =>
      match queue with
      | data :: rest => Item data rest
      | [] => Waits
      end
  end.

Section InputStreaming.
(** [event_msg_type]: the message class, with its JSON validation ([None]
    stands for pydantic's [ValidationError], a [ValueError]) and the [event]
    attribute of its instances. *)
Context {StreamingEventMessage : Type}.
Variable model_validate_json : string -> option StreamingEventMessage.
Variable event_of : StreamingEventMessage -> string.
(** [f"{streaming.timeout}"] *)
Variable float_str : option Q -> string.

Definition is_set (done : option (nat -> bool)) (taken : nat) : bool :=
  match done with
  | Some f => f taken
  | None => false
  end.

(** What the loop body makes of one raw message: the validated message
    when it carries the awaited event (or none is awaited), nothing when
    validation or the event comparison raises the [ValueError] that the
    loop logs and skips. *)
Definition accepts (event : option string) (data : string) : option StreamingEventMessage :=
  match model_validate_json data with
  | Some event_msg =>
      if truthy_str event && negb (bool_decide (Some (event_of event_msg) = event))
      then None
      else Some event_msg
  | None => None
  end.

(** The [while] loop, entered with [taken] messages consumed and [queue]
    still to come. Falling out of the loop reaches the [raise] that ends the
    method. *)
Fixpoint poll (streaming : InputStreamingConfig) (event : option string) (taken : nat)
    (queue : list string) : Polled StreamingEventMessage :=
  if is_set (input_queue_done_event streaming) taken then
    Returned (Raise (mk_exc ValueError "Input streaming is not enabled.")) queue
  else
    match queue with
    | [] =>
        match queue_get [] (timeout streaming) with
        | Item _ _ | QueueEmpty =>
            Returned
              (Raise (mk_exc ValueError
                        ("Input streaming timeout: " +:+ float_str (timeout streaming)
                         +:+ " exceeded.")))
              []
        | Refused e => Returned (Raise e) []
        | Waits => Blocked
        end
    | data :: rest =>
        match queue_get (data :: rest) (timeout streaming) with
        | Item _ _ =>
            match accepts event data with
            | Some event_msg => Returned (Ok event_msg) rest
            | None => poll streaming event (S taken) rest
            end
        | QueueEmpty =>
            Returned
              (Raise (mk_exc ValueError
                        ("Input streaming timeout: " +:+ float_str (timeout streaming)
                         +:+ " exceeded.")))
              (data :: rest)
        | Refused e => Returned (Raise e) (data :: rest)
        | Waits => Blocked
        end
    end.

(** [config.nodes_override] maps node ids to per-node overrides, whose
    [streaming] may be unset; [config] itself may be [None], on which the
    attribute access fails. [self_streaming] is the node's own
    configuration. *)
Definition get_input_streaming_event (self_id : string) (self_streaming : InputStreamingConfig)
    (event : option string)
    (config : option (list (string * option InputStreamingConfig)))
    : Polled StreamingEventMessage :=
  match config with
  | None =>
      Returned
        (Raise (mk_exc AttributeError "'NoneType' object has no attribute 'nodes_override'"))
        (default [] (input_queue self_streaming))
  | Some nodes_override =>
      let streaming := default self_streaming (mjoin (dict_get nodes_override self_id)) in
      if input_streaming_enabled streaming then
        match input_queue streaming with
        | Some queue => poll streaming event 0 queue
        | None =>
            if is_set (input_queue_done_event streaming) 0 then
              Returned (Raise (mk_exc ValueError "Input streaming is not enabled.")) []
            else
              Returned (Raise (mk_exc AttributeError "'NoneType' object has no attribute 'get'"))
                []
        end
      else
        Returned (Raise (mk_exc ValueError "Input streaming is not enabled."))
          (default [] (input_queue streaming))
  end.

End InputStreaming.

(** The timeout lets [get] take what the queue holds. *)
Definition timeout_accepted (streaming : InputStreamingConfig) : Prop :=
  match timeout streaming with
  | Some t => Qle_bool 0 t = true
  | None => True
  end.

(** ** Counting what the engine journalled *)

Definition is_execute (j : Journal) : bool :=
  match j with JExecute _ => true | _ => false end.

Definition is_sleep (j : Journal) : bool :=
  match j with JSleep _ => true | _ => false end.

(** The number of attempts / of sleeps among journal entries. *)
Definition attempts_in (l : list Journal) : nat :=
  length (filter (fun j => is_execute j = true) l).

Definition sleeps_in (l : list Journal) : nat :=
  length (filter (fun j => is_sleep j = true) l).

(** ** Vocabulary of the further statements *)

(** The world an attempt leaves: what [execute] made of the world it was
    started in, with the attempt's result journalled by the engine. *)
Definition attempted (observed : Outcome PyVal) (w w1 : World) : World :=
  {| deliveries := deliveries w1; journal := journal w ++ [JExecute observed];
     calls := calls w1; clock := clock w1;
     _intermediate_steps := _intermediate_steps w1 |}.

(** The attempt that took the world from [w] to [w1] met its deadline. *)
Definition in_time (t : option Q) (w w1 : World) : Prop :=
  match t with
  | Some t => Qle_bool (clock w1 - clock w) t = true
  | None => True
  end.

(** No input transformer is configured: neither a path nor a selector. *)
Definition no_input_transformer (self : Node) : Prop :=
  truthy_str (path (input_transformer self))
  || match selector (input_transformer self) with Some (_ :: _) => true | _ => false end
  = false.

(** The cache gate lets every call through to the node. *)
Definition uncached (self : Node) (config : RunnableConfig) : Prop :=
  enabled (caching self) = false ∨ cache config = None.

(** What one dependency needs for validation to go past it: a SUCCESS
    result and, behind a non-empty option, no field that is true and either
    a FAILURE result or no result at all. *)
Definition dependency_passes (depends_result : list (string * RunnableResult))
    (dep : NodeDependency) : Prop :=
  ∃ r, dict_get depends_result (node dep) = Some r
       ∧ status r = SUCCESS
       ∧ ∀ k out v,
           gate dep = Some k → k ≠ EmptyString → output r = VDict out →
           dict_get out k = Some v → truthy v = true →
           ∃ st i o, v = VResult st i o ∧ st ≠ FAILURE.

(** A computation that asks nothing of the model or the tools. *)
Definition calls_kept (w w' : World) : Prop := calls w' = calls w.

(** The world after a response (prompt [p], text [out]) has been filed at
    [loop_num] and nothing else has happened to it. *)
Definition filed (loop_num : nat) (p out : string) (w : World) : World :=
  stepped (<[loop_num := fresh_step p out]>) (called [CModel p] w).

(** The text an iteration pushes onto the context after a tool has run. *)
Definition observation `{Externals} (llm_generated_output : string) (tool_result : PyVal)
    : string :=
  llm_generated_output +:+ "
Observation: " +:+ render tool_result +:+ "
".

(** [c in s] for a character. *)
Fixpoint has_char (c : Ascii.ascii) (s : string) : bool :=
  match s with
  | EmptyString => false
  | String a s' => bool_decide (a = c) || has_char c s'
  end.

(** The character [<]. *)
Definition lt_char : Ascii.ascii := Ascii.ascii_of_nat 60.

(** * The tool nodes: [dynamiq/nodes/tools/python.py] and [http_api_call.py] *)

(** A node of a subclass: the fields it inherits from [Node], taken from
    [fields], and [execute] as the subclass overrides it. *)
Definition with_execute (fields : Node) (body : PyVal -> RunnableConfig -> Eff PyVal) : Node :=
  {| id := id fields; name := name fields; error_handling := error_handling fields;
     input_transformer := input_transformer fields;
     output_transformer := output_transformer fields;
     caching := caching fields; streaming := streaming fields;
     depends := depends fields; execute := body |}.

Module PythonTool.

(** RestrictedPython and the interpreter. [compile_restricted] and [exec]
    of a source text leave the globals the code defines, of which [execute]
    reads ["run"]: nothing when the code defines no [run], the function
    otherwise. Compiling and executing may raise, and so may a call of
    [run]; all of it may act on the world. *)
Class Sandbox := {
  exec_restricted : string -> Eff (option (PyVal -> Eff PyVal));
}.

(** The text returned when the code fails. The source writes the message
    without the [f] prefix, so the braces are part of the text. *)
Definition error_content : string := "Code execution error: '{str(e)}'".

Section Execute.
Context `{Externals} `{Sandbox}.

(** [Python.execute] *)
Definition execute (code : string) (input_data : PyVal) (config : option RunnableConfig)
    : Eff PyVal :=
  let config := ensure_config config in
  run_on_node_execute_run (callbacks config) ;;
  try_except_all
    (defined ← exec_restricted code;
     match defined with
     | None =>
         raise (mk_exc ValueError "The 'run' function is not defined in the provided code.")
     | Some run =>
         result ← run input_data;
         mret (VDict [("content", VStr (render result))])
     end)
    (fun e => mret (VDict [("content", VStr error_content)])).

(** The code raises nothing but instances of [Exception] on the input
    [input_data]: neither when it is compiled and executed nor when its [run]
    is called. *)
Definition well_behaved (code : string) (input_data : PyVal) : Prop :=
  forall w,
    match exec_restricted code w with
    | (Ok (Some run), w1) =>
        forall e w2, run input_data w1 = (Raise e, w2) -> is_Exception e = true
    | (Ok None, _) => True
    | (Raise e, _) => is_Exception e = true
    end.

(** A [Python] node with the given code. *)
Definition Python (fields : Node) (code : string) : Node :=
  with_execute fields (fun input_data config => execute code input_data (Some config)).

End Execute.

End PythonTool.

Module Http.

(** [dynamiq.connections.Http], as far as [HttpApiCall.execute] reads it. *)
Module Connection.
Record t := {
  url : string;
  method : string;
  headers : PyDict;
  params : PyDict;
  data : PyDict;
}.
End Connection.

(** The keyword arguments of [self.client.request]. *)
Record Request := {
  request_method : string;
  request_url : string;
  request_headers : PyDict;
  request_params : PyDict;
  request_data : PyDict;
  request_timeout : Q;
}.

(** The response of the client, as far as [execute] reads it:
    [content_type] is [response.headers.get("content-type")], [json] what
    [response.json()] returns or raises. *)
Record Response := {
  status_code : Z;
  text : string;
  content : PyVal;
  json : Outcome PyVal;
  content_type : option string;
}.

(** [response_type] holds a [ResponseType] member, any other string or
    [None]; the members of the enumeration are strings and compare equal to
    their values. [response_type_set] says whether the field was given when
    the node was built (["response_type" in self.model_fields_set]). *)
Record HttpApiCall := {
  connection : Connection.t;
  success_codes : list Z;
  timeout : Q;
  data : PyDict;
  headers : PyDict;
  params : PyDict;
  response_type : option string;
  response_type_set : bool;
  (** [self.client.request] *)
  client_request : Request -> Eff Response;
}.

Definition TEXT : string := "text".
Definition RAW : string := "raw".
Definition JSON : string := "json".

(** [a | b] with a dict on the left: anything but a dict on the right is a
    [TypeError]. *)
Definition dict_or (a : PyDict) (b : PyVal) : Outcome PyDict :=
  match b with
  | VDict d => Ok (dict_union a d)
  | _ => Raise (mk_exc TypeError "unsupported operand type(s) for |")
  end.

(** [d.get(k, default)] *)
Definition get (d : PyDict) (k : string) (default_value : PyVal) : PyVal :=
  default default_value (dict_get d k).

Section Execute.
Context `{Externals}.
(** [urllib.parse.urljoin] *)
Variable urljoin : string -> PyVal -> Outcome string.

(** The arguments [execute] hands to the client: the URL joined with the
    [url_path] of the input when there is one, and for headers, params and
    data the merge of the connection's, the node's and the input's (the
    primed names are the locals [data], [headers] and [params]). *)
Definition build_request (self : HttpApiCall) (input_data : PyDict) : Outcome Request :=
  let data' := get input_data "data" (VDict []) in
  let url := Connection.url (connection self) in
  match (let url_path := get input_data "url_path" (VStr EmptyString) in
         if truthy url_path then urljoin url url_path else Ok url) with
  | Raise e => Raise e
  | Ok url =>
      let headers' := get input_data "headers" (VDict []) in
      let params' := get input_data "params" (VDict []) in
      match dict_or (dict_union (Connection.headers (connection self)) (headers self))
              headers' with
      | Raise e => Raise e
      | Ok merged_headers =>
          match dict_or (dict_union (Connection.params (connection self)) (params self))
                  params' with
          | Raise e => Raise e
          | Ok merged_params =>
              match dict_or (dict_union (Connection.data (connection self)) (data self))
                      data' with
              | Raise e => Raise e
              | Ok merged_data =>
                  Ok {| request_method := Connection.method (connection self);
                        request_url := url;
                        request_headers := merged_headers;
                        request_params := merged_params;
                        request_data := merged_data;
                        request_timeout := timeout self |}
              end
          end
      end
  end.

(** The response type in force: JSON for a response announced as
    [application/json] when the node was built without a response type, the
    node's own otherwise. *)
Definition effective_response_type (self : HttpApiCall) (response : Response)
    : option string :=
  if negb (response_type_set self)
     && bool_decide (content_type response = Some "application/json")
  then Some JSON
  else response_type self.

(** [HttpApiCall.execute] *)
Definition execute (self : HttpApiCall) (input_data : PyDict) (config : option RunnableConfig)
    : Eff PyVal :=
  let config := ensure_config config in
  run_on_node_execute_run (callbacks config) ;;
  request ← lift (build_request self input_data);
  response ← client_request self request;
  if negb (bool_decide (status_code response ∈ success_codes self)) then
    raise (mk_exc ValueError
             ("Request failed with unexpected status code: "
              +:+ render (VInt (status_code response))
              +:+ " and response: " +:+ text response))
  else
    let response_type := effective_response_type self response in
    content ←
      (if bool_decide (response_type = Some TEXT) then mret (VStr (text response))
       else if bool_decide (response_type = Some RAW) then mret (content response)
       else if bool_decide (response_type = Some JSON) then lift (json response)
       else raise (mk_exc ValueError
                     "Response type must be one of the following: text, raw, json"));
    mret (VDict [("content", content); ("status_code", VInt (status_code response))]).

End Execute.

End Http.

(** What a key is bound to in [connection | node | input]: the binding of
    the input if it has one, else the node's, else the connection's. *)
Definition layered (connection_level node_level input_level : PyDict) (k : string)
    : option PyVal :=
  match dict_get input_level k with
  | Some v => Some v
  | None =>
      match dict_get node_level k with
      | Some v => Some v
      | None => dict_get connection_level k
      end
  end.

(** The keys of a dict are distinct. *)
Definition distinct_keys {V} (d : list (string * V)) : Prop := NoDup d.*1.
(** * The Pinecone vector store: [dynamiq/storages/vector/pinecone/pinecone.py] *)

(** [d.pop(k, None)]: the dict without its entry for [k]. *)
Fixpoint dict_remove {V} (d : list (string * V)) (k : string) : list (string * V) :=
  match d with
  | [] => []
  | (k', v) :: d' => if decide (k' = k) then d' else (k', v) :: dict_remove d' k
  end.

Module Pinecone.

(** The class [Document], which the store imports from [dynamiq.types], is a
    parameter: its instances, the attributes the conversions read of an
    instance, and the call [Document(id=..., content=..., metadata=...,
    embedding=..., score=...)], which gives the instance built or the error
    the class raises on arguments it refuses. Nothing else is known of the
    class. [content] is a value, [VNone] for the [None] the source tests
    for; [metadata] is a dict or [None]. *)
Class DocumentClass (float : Type) := {
  Document : Type;
  id : Document -> string;
  content : Document -> PyVal;
  metadata : Document -> option PyDict;
  embedding : Document -> option (list float);
  new_Document :
    string -> PyVal -> option PyDict -> option (list float) -> option float -> Outcome Document;
}.

Section Store.
(** The numbers of an embedding: a type with decidable equality, [-10.0]
    among its members. *)
Context {float : Type} `{EqDecision float} `{!DocumentClass float}.
Variable minus_ten : float.

(** An entry of the list handed to [upsert]: the dict with the keys
    ["id"], ["values"] and ["metadata"]. *)
Record Vector := {
  vector_id : string;
  values : list float;
  vector_metadata : PyDict;
}.

(** An entry of [query_result["matches"]]: a vector with its ["score"]. *)
Record Match := {
  matched : Vector;
  match_score : float;
}.

(** [[-10.0] * dimension] *)
Definition _dummy_vector (dimension : Z) : list float :=
  replicate (Z.to_nat dimension) minus_ten.

(** The body of the loop of [_convert_documents_to_pinecone_format];
    [dict(None)] raises. *)
Definition document_to_pinecone_format (dimension : Z) (document : Document) : Outcome Vector :=
  let embedding := default (_dummy_vector dimension) (embedding document) in
  match metadata document with
  | None => Raise (mk_exc TypeError "'NoneType' object is not iterable")
  | Some doc_metadata =>
      Ok {| vector_id := id document;
            values := embedding;
            vector_metadata :=
              match content document with
              | VNone => doc_metadata
              | c => dict_set doc_metadata "content" c
              end |}
  end.

(** [_convert_documents_to_pinecone_format] *)
Fixpoint _convert_documents_to_pinecone_format (dimension : Z) (documents : list Document)
    : Outcome (list Vector) :=
  match documents with
  | [] => Ok []
  | document :: rest =>
      match document_to_pinecone_format dimension document with
      | Raise e => Raise e
      | Ok doc_for_pinecone =>
          match _convert_documents_to_pinecone_format dimension rest with
          | Raise e => Raise e
          | Ok documents_for_pinecone => Ok (doc_for_pinecone :: documents_for_pinecone)
          end
      end
  end.

(** The call [Document(...)] in the loop of
    [_convert_query_result_to_documents]. *)
Definition match_to_document (dimension : Z) (pinecone_doc : Match) : Outcome Document :=
  let content := default VNone (dict_get (vector_metadata (matched pinecone_doc)) "content") in
  new_Document
    (vector_id (matched pinecone_doc))
    content
    (Some (dict_remove (vector_metadata (matched pinecone_doc)) "content"))
    (if bool_decide (values (matched pinecone_doc) = _dummy_vector dimension)
     then None
     else Some (values (matched pinecone_doc)))
    (Some (match_score pinecone_doc)).

(** The entry after [pinecone_doc["metadata"].pop("content", None)]. *)
Definition popped (pinecone_doc : Match) : Match :=
  {| matched :=
       {| vector_id := vector_id (matched pinecone_doc);
          values := values (matched pinecone_doc);
          vector_metadata := dict_remove (vector_metadata (matched pinecone_doc)) "content" |};
     match_score := match_score pinecone_doc |}.

(** [after] is [pinecone_doc] once ["content"] is popped from its metadata:
    the key is gone, and the id, the values, the score and every other
    metadata entry are as before. *)
Definition without_content (pinecone_doc after : Match) : Prop :=
  vector_id (matched after) = vector_id (matched pinecone_doc)
  /\ values (matched after) = values (matched pinecone_doc)
  /\ match_score after = match_score pinecone_doc
  /\ dict_get (vector_metadata (matched after)) "content" = None
  /\ forall k, k <> "content" ->
       dict_get (vector_metadata (matched after)) k
       = dict_get (vector_metadata (matched pinecone_doc)) k.

(** [_convert_query_result_to_documents]: the documents built, or the error
    of the first [Document(...)] call that raises; and the matches of the
    query result as the call leaves them. The [pop] acts on the caller's
    dicts: it has happened for every match the loop has reached. *)
Fixpoint _convert_query_result_to_documents (dimension : Z) (pinecone_docs : list Match)
    : Outcome (list Document) * list Match :=
  match pinecone_docs with
  | [] => (Ok [], [])
  | pinecone_doc :: rest =>
      match match_to_document dimension pinecone_doc with
      | Raise e => (Raise e, popped pinecone_doc :: rest)
      | Ok doc =>
          match _convert_query_result_to_documents dimension rest with
          | (Ok documents, after) => (Ok (doc :: documents), popped pinecone_doc :: after)
          | (Raise e, after) => (Raise e, popped pinecone_doc :: after)
          end
      end
  end.

(** [Document(id=document.id, content=document.content,
    metadata=document.metadata, embedding=document.embedding, score=s)]:
    the document built anew from the attributes of [document], with the
    score [s]. *)
Definition scored (document : Document) (s : float) : Outcome Document :=
  new_Document (id document) (content document) (metadata document) (embedding document)
    (Some s).

(** The results of a loop that stops at the first error. *)
Fixpoint collect {A} (results : list (Outcome A)) : Outcome (list A) :=
  match results with
  | [] => Ok []
  | Raise e :: _ => Raise e
  | Ok a :: rest =>
      match collect rest with
      | Raise e => Raise e
      | Ok l => Ok (a :: l)
      end
  end.

End Store.

End Pinecone.

(** * Further concrete collaborators, nodes and agents for the examples *)

(** The world after one failed attempt. *)
Definition w_failed_once : World :=
  {| deliveries := []; journal := [JExecute (Raise boom)]; calls := []; clock := 0%Q;
     _intermediate_steps := ∅ |}.

(** Collaborators whose JSONPath filter rejects the path [$.missing]. *)
Definition strict_externals : Externals := {|
  format_value := @format_value demo_externals;
  to_tracing_depend_dict := @to_tracing_depend_dict demo_externals;
  to_depend_dict := @to_depend_dict demo_externals;
  dependency_to_dict := @dependency_to_dict demo_externals;
  jsonpath_filter data path _ :=
    if bool_decide (path = Some "$.missing")
    then Raise (mk_exc ValueError "no match for $.missing")
    else Ok data;
  jsonpath_mapper := @jsonpath_mapper demo_externals;
  cache_key := @cache_key demo_externals;
  json_loads := @json_loads demo_externals;
  json_loads_foreign := @json_loads_foreign demo_externals;
  json_dumps := @json_dumps demo_externals;
  py_str := @py_str demo_externals;
  generate_prompt := @generate_prompt demo_externals;
  _parse_action := @_parse_action demo_externals;
  float_pow := @float_pow demo_externals;
  float_mul := @float_mul demo_externals;
  sleep_refused := @sleep_refused demo_externals;
  re_search := @re_search demo_externals;
|}.

(** A node that echoes its input and selects a missing path of its output. *)
Definition picky_node : Node :=
  {| id := "picky"; name := None; error_handling := default_error_handling;
     input_transformer := no_transformer;
     output_transformer := {| path := Some "$.missing"; selector := None |};
     caching := {| enabled := false |}; streaming := {| streaming_enabled := false |};
     depends := []; execute := fun x _ => mret x |}.

(** A node that selects a missing path of its input. *)
Definition blind_node : Node :=
  {| id := "blind"; name := None; error_handling := default_error_handling;
     input_transformer := {| path := Some "$.missing"; selector := None |};
     output_transformer := no_transformer;
     caching := {| enabled := false |}; streaming := {| streaming_enabled := false |};
     depends := []; execute := fun x _ => mret x |}.

(** An observer whose execute-end hook fails. *)
Definition end_faulty_observer : BaseCallbackHandler :=
  {| handler_name := "end-faulty";
     on_event ev := match ev with
                    | on_node_execute_end _ =>
                        Some (mk_exc (OtherException "RuntimeError") "end hook failed")
                    | _ => None
                    end |}.

Definition end_faulty : RunnableConfig :=
  {| callbacks := [recorder; end_faulty_observer; recorder]; cache := None |}.

Definition second_dep : NodeDependency := {| node := "second"; gate := None |}.

Definition upstream_node : Node :=
  plain_node "upstream" default_error_handling [] (fun x _ => mret x).

(** A node whose retry count is negative. *)
Definition never_node : Node :=
  plain_node "never"
    {| timeout_seconds := None; retry_interval_seconds := 1%Q; max_retries := (-1)%Z;
       backoff_rate := 1%Q |}
    [] (fun x _ => mret x).

(** Collaborators whose JSON decoder knows the text [FINISH]. *)
Definition finishing_externals : Externals := {|
  format_value := @format_value demo_externals;
  to_tracing_depend_dict := @to_tracing_depend_dict demo_externals;
  to_depend_dict := @to_depend_dict demo_externals;
  dependency_to_dict := @dependency_to_dict demo_externals;
  jsonpath_filter := @jsonpath_filter demo_externals;
  jsonpath_mapper := @jsonpath_mapper demo_externals;
  cache_key := @cache_key demo_externals;
  json_loads s :=
    if String.eqb s "FINISH"
    then Ok (VDict [("thought", VStr "done"); ("action", VStr "finish");
                    ("action_input", VStr "Paris")])
    else Raise (mk_exc JSONDecodeError "Expecting value");
  json_loads_foreign := ltac:(intros s e; cbv beta; repeat case_match; intros ?; simplify_eq; reflexivity);
  json_dumps := @json_dumps demo_externals;
  py_str := @py_str demo_externals;
  generate_prompt := @generate_prompt demo_externals;
  _parse_action := @_parse_action demo_externals;
  float_pow := @float_pow demo_externals;
  float_mul := @float_mul demo_externals;
  sleep_refused := @sleep_refused demo_externals;
  re_search := @re_search demo_externals;
|}.

Definition finishing_agent : ReActAgent := demo_agent STRUCTURED_OUTPUT 5 (says "FINISH").

Definition structured_garbled_agent : ReActAgent :=
  demo_agent STRUCTURED_OUTPUT 5 (says "{oops").

Definition xml_answering_agent : ReActAgent :=
  demo_agent XML 5 (says "<output>done</output><answer> Paris </answer>").

Definition xml_unclosed_agent : ReActAgent :=
  demo_agent XML 5 (says "<answer> Paris").

Definition xml_bare_agent : ReActAgent :=
  demo_agent XML 5 (says "<action>search</action><action_input>{}</action_input>").

(** The exploring agent without any tool. *)
Definition toolless_agent : ReActAgent :=
  {| agent_id := "agent-3"; agent_name := "React";
     agent_error_handling := default_error_handling;
     agent_input_transformer := no_transformer; agent_output_transformer := no_transformer;
     agent_caching := {| enabled := false |};
     agent_streaming := {| streaming_enabled := false |};
     agent_depends := []; max_loops := 3; inference_mode := DEFAULT;
     llm := says "Action: search";
     tools := []; tool_description := EmptyString; tool_names := EmptyString;
     run_tool := fun _ _ _ => Ok (VStr "found") |}.

(** A sandbox that knows three programs: one defines [run] as the
    identity, one defines a [run] that raises [KeyError], one defines a
    [run] that raises [SystemExit]; any other text does not compile. *)
Definition demo_sandbox : PythonTool.Sandbox := {|
  PythonTool.exec_restricted code :=
    if String.eqb code "def run(**kwargs): return kwargs"
    then mret (Some (fun x => mret x))
    else if String.eqb code "def run(**kwargs): raise KeyError('x')"
    then mret (Some (fun _ => raise (mk_exc KeyError "'x'")))
    else if String.eqb code "def run(**kwargs): raise SystemExit"
    then mret (Some (fun _ => raise (mk_exc (BaseExceptionOnly "SystemExit") EmptyString)))
    else raise (mk_exc (OtherException "SyntaxError") "invalid syntax")
|}.

Definition raising_python_node : Node :=
  @PythonTool.Python demo_externals demo_sandbox
    (plain_node "python" failing_node.(error_handling) [] (fun x _ => mret x))
    "def run(**kwargs): raise KeyError('x')".

(** An HTTP connection, a client that answers every request with a JSON
    body, and a node on top of them. *)
Definition demo_connection : Http.Connection.t :=
  {| Http.Connection.url := "https://api.example.com/";
     Http.Connection.method := "GET";
     Http.Connection.headers := [("Accept", VStr "*/*"); ("X-Env", VStr "connection")];
     Http.Connection.params := [];
     Http.Connection.data := [] |}.

Definition demo_response : Http.Response :=
  {| Http.status_code := 200%Z; Http.text := "{}"; Http.content := VStr "{}";
     Http.json := Ok (VDict []); Http.content_type := Some "application/json" |}.

Definition demo_http : Http.HttpApiCall :=
  {| Http.connection := demo_connection;
     Http.success_codes := [200%Z];
     Http.timeout := 30%Q;
     Http.data := [];
     Http.headers := [("X-Env", VStr "node"); ("X-Node", VStr "1")];
     Http.params := [];
     Http.response_type := Some Http.RAW;
     Http.response_type_set := false;
     Http.client_request := fun _ => mret demo_response |}.

Definition demo_urljoin (url : string) (url_path : PyVal) : Outcome string :=
  match url_path with
  | VStr p => Ok (url +:+ p)
  | _ => Raise (mk_exc TypeError "Cannot mix str and non-str arguments")
  end.

Definition demo_http_input : PyDict :=
  [("headers", VDict [("X-Env", VStr "input")]); ("url_path", VStr "v1/items")].

(** Documents with integer embeddings, the dummy value being [-10]. The
    plain class: a document is the record of its attributes and every call
    [Document(...)] builds one. *)
Record PlainDocument := {
  plain_id : string;
  plain_content : PyVal;
  plain_metadata : option PyDict;
  plain_embedding : option (list Z);
  plain_score : option Z;
}.

Definition plain_documents : Pinecone.DocumentClass Z :=
  {| Pinecone.Document := PlainDocument;
     Pinecone.id := plain_id;
     Pinecone.content := plain_content;
     Pinecone.metadata := plain_metadata;
     Pinecone.embedding := plain_embedding;
     Pinecone.new_Document id content metadata embedding score :=
       Ok {| plain_id := id; plain_content := content; plain_metadata := metadata;
             plain_embedding := embedding; plain_score := score |} |}.

(** The checking class: the same records, a call with a content that is
    not a string being refused. *)
Definition checking_documents : Pinecone.DocumentClass Z :=
  {| Pinecone.Document := PlainDocument;
     Pinecone.id := plain_id;
     Pinecone.content := plain_content;
     Pinecone.metadata := plain_metadata;
     Pinecone.embedding := plain_embedding;
     Pinecone.new_Document id content metadata embedding score :=
       match content with
       | VStr _ =>
           Ok {| plain_id := id; plain_content := content; plain_metadata := metadata;
                 plain_embedding := embedding; plain_score := score |}
       | _ => Raise (mk_exc (OtherException "ValidationError")
                       "1 validation error for Document")
       end |}.

Definition demo_document : PlainDocument :=
  {| plain_id := "doc-1"; plain_content := VStr "hello";
     plain_metadata := Some [("lang", VStr "en")];
     plain_embedding := None; plain_score := None |}.

(** A match without content. *)
Definition bare_match : @Pinecone.Match Z :=
  {| Pinecone.matched :=
       {| Pinecone.vector_id := "doc-2"; Pinecone.values := [3%Z; 4%Z];
          Pinecone.vector_metadata := [("lang", VStr "de")] |};
     Pinecone.match_score := 5%Z |}.

Definition demo_match : @Pinecone.Match Z :=
  {| Pinecone.matched :=
       {| Pinecone.vector_id := "doc-1"; Pinecone.values := [1%Z; 2%Z];
          Pinecone.vector_metadata := [("lang", VStr "en"); ("content", VStr "hello")] |};
     Pinecone.match_score := 7%Z |}.

(** Streaming messages that are their own event name; the text [garbage]
    does not validate. *)
Definition demo_validate (data : string) : option string :=
  if String.eqb data "garbage" then None else Some data.

Definition demo_streaming : InputStreamingConfig :=
  {| input_streaming_enabled := true;
     input_queue := Some ["garbage"; "other"; "wanted"; "later"];
     timeout := Some 5%Q;
     input_queue_done_event := None |}.

(** The same queue read without a timeout. *)
Definition patient_streaming : InputStreamingConfig :=
  {| input_streaming_enabled := true;
     input_queue := Some ["garbage"; "other"];
     timeout := None;
     input_queue_done_event := None |}.

Definition demo_float_str (t : option Q) : string := "5.0".

(** An observer whose execute-error hook fails. *)
Definition execute_error_faulty_observer : BaseCallbackHandler :=
  {| handler_name := "execute-error-faulty";
     on_event ev := match ev with
                    | on_node_execute_error _ =>
                        Some (mk_exc (OtherException "RuntimeError") "error hook failed")
                    | _ => None
                    end |}.

Definition execute_error_faulty : RunnableConfig :=
  {| callbacks := [execute_error_faulty_observer]; cache := None |}.

(** A node whose [execute] always raises, retried three times without
    delay at a backoff rate of [2 ^ 600], whose square is beyond the largest
    float. *)
Definition overflowing_node : Node :=
  plain_node "overflowing"
    {| timeout_seconds := None; retry_interval_seconds := 0%Q; max_retries := 3%Z;
       backoff_rate := (2 ^ 600)%Q |}
    [] (fun _ _ => raise boom).

(** A node whose [execute] leaves the interpreter. *)
Definition exiting_node : Node :=
  plain_node "exiting"
    {| timeout_seconds := None; retry_interval_seconds := 1%Q; max_retries := 2%Z;
       backoff_rate := 2%Q |}
    [] (fun _ _ => raise (mk_exc (BaseExceptionOnly "SystemExit") "0")).

(** An observer whose skip hook fails. *)
Definition skip_faulty_observer : BaseCallbackHandler :=
  {| handler_name := "skip-faulty";
     on_event ev := match ev with
                    | on_node_skip _ _ =>
                        Some (mk_exc (OtherException "RuntimeError") "skip hook failed")
                    | _ => None
                    end |}.

Definition skip_faulty : RunnableConfig :=
  {| callbacks := [skip_faulty_observer]; cache := None |}.

(** An observer whose stream hook fails. *)
Definition stream_faulty_observer : BaseCallbackHandler :=
  {| handler_name := "stream-faulty";
     on_event ev := match ev with
                    | on_node_execute_stream _ =>
                        Some (mk_exc (OtherException "RuntimeError") "stream hook failed")
                    | _ => None
                    end |}.

Definition stream_faulty : RunnableConfig :=
  {| callbacks := [stream_faulty_observer]; cache := None |}.

(** The agent [self] with streaming switched on. *)
Definition streaming_on (self : ReActAgent) : ReActAgent :=
  {| agent_id := agent_id self; agent_name := agent_name self;
     agent_error_handling := agent_error_handling self;
     agent_input_transformer := agent_input_transformer self;
     agent_output_transformer := agent_output_transformer self;
     agent_caching := agent_caching self;
     agent_streaming := {| streaming_enabled := true |};
     agent_depends := agent_depends self; max_loops := max_loops self;
     inference_mode := inference_mode self; llm := llm self;
     tools := tools self; tool_description := tool_description self;
     tool_names := tool_names self; run_tool := run_tool self |}.

(** An XML answer whose action input is an array nested two thousand deep. *)
Definition deep_xml : string :=
  "<output><action>search</action><action_input>" +:+ brackets 2000
  +:+ "</action_input></output>".

Definition xml_deep_agent : ReActAgent := demo_agent XML 5 (says deep_xml).

(** * Properties of the node execution engine *)

Ltac eff_unfold :=
  unfold mbind, mret, Eff_bind, Eff_ret, bind, ret, raise, lift, try_except_all, try_except.

Lemma delivered_nil w : delivered [] w = w.
Proof. destruct w; unfold delivered; simpl. by rewrite app_nil_r. Qed.

Lemma delivered_app l1 l2 w : delivered l2 (delivered l1 w) = delivered (l1 ++ l2) w.
Proof. unfold delivered; simpl. by rewrite app_assoc. Qed.

Lemma journaled_nil w : journaled [] w = w.
Proof. destruct w; unfold journaled; simpl. by rewrite app_nil_r. Qed.

Lemma journaled_app l1 l2 w : journaled l2 (journaled l1 w) = journaled (l1 ++ l2) w.
Proof. unfold journaled; simpl. by rewrite app_assoc. Qed.

Lemma emit_returns cbs ev w :
  Forall (fun h => on_event h ev = None) cbs →
  emit cbs ev w = (Ok tt, delivered (fan_out cbs ev) w).
Proof.
  intros Hq. revert w. induction Hq as [|h cbs Hh _ IH]; intros w; simpl.
  - by rewrite delivered_nil.
  - eff_unfold. unfold deliver. rewrite Hh.
    change {| deliveries := deliveries w ++ [(handler_name h, ev)]; journal := journal w;
              calls := calls w; clock := clock w;
              _intermediate_steps := _intermediate_steps w |}
      with (delivered [(handler_name h, ev)] w).
    by rewrite IH, delivered_app.
Qed.

Lemma quiet_Forall cbs ev : quiet cbs → Forall (fun h => on_event h ev = None) cbs.
Proof. intros Hq. apply Forall_forall. intros h Hh. by apply Hq. Qed.

Lemma emit_quiet cbs ev w :
  quiet cbs → emit cbs ev w = (Ok tt, delivered (fan_out cbs ev) w).
Proof. intros Hq. by apply emit_returns, quiet_Forall. Qed.

(** The first handler that raises ends the emission with its exception. *)
Lemma emit_raises cbs1 h cbs2 ev e w :
  Forall (fun h => on_event h ev = None) cbs1 →
  on_event h ev = Some e →
  emit (cbs1 ++ h :: cbs2) ev w = (Raise e, delivered (fan_out (cbs1 ++ [h]) ev) w).
Proof.
  intros Hq He. revert w. induction Hq as [|h1 cbs1 Hh _ IH]; intros w; simpl.
  - eff_unfold. unfold deliver. by rewrite He.
  - eff_unfold. unfold deliver. rewrite Hh.
    change {| deliveries := deliveries w ++ [(handler_name h1, ev)]; journal := journal w;
              calls := calls w; clock := clock w;
              _intermediate_steps := _intermediate_steps w |}
      with (delivered [(handler_name h1, ev)] w).
    by rewrite IH, delivered_app.
Qed.

Section EngineFacts.
Context `{Externals}.

Lemma status_check_raises dep dr e :
  _validate_dependency_status dep dr = Raise e →
  isinstance e NodeException = true ∧ failed_depend e = Some dep.
Proof.
  unfold _validate_dependency_status.
  destruct (dict_get dr (node dep)) as [r|]; repeat case_decide; intros [= <-]; done.
Qed.

Lemma condition_check_raises dep dr e :
  _validate_dependency_condition dep dr = Raise e →
  (isinstance e NodeException = true ∧ failed_depend e = Some dep)
  ∨ exc_class e = AttributeError.
Proof.
  unfold _validate_dependency_condition.
  destruct (dict_get dr (node dep)) as [r|]; [|done].
  destruct (output r); try done.
  destruct (gate dep ≫= dict_get d) as [v|]; [|done].
  destruct (truthy v); [|done].
  destruct v; simpl; try (intros [= <-]; by right).
  case_decide; [|done]. intros [= <-]. by left.
Qed.

Lemma validate_each_raises deps dr e :
  validate_each deps dr = Raise e →
  (isinstance e NodeException = true ∧ ∃ d, failed_depend e = Some d ∧ d ∈ deps)
  ∨ exc_class e = AttributeError.
Proof.
  induction deps as [|dep deps IH]; simpl; [done|].
  destruct (_validate_dependency_status dep dr) as [[]|e1] eqn:Hs.
  - destruct (truthy_str (gate dep)).
    + destruct (_validate_dependency_condition dep dr) as [[]|e2] eqn:Hc.
      * intros He. destruct (IH He) as [[? (d & ? & ?)]|?]; [left|by right].
        split; [done|]. exists d. split; [done|]. by apply elem_of_cons; right.
      * intros [= <-]. destruct (condition_check_raises _ _ _ Hc) as [[? ?]|?]; [left|by right].
        split; [done|]. exists dep. split; [done|]. apply elem_of_cons; by left.
    + intros He. destruct (IH He) as [[? (d & ? & ?)]|?]; [left|by right].
      split; [done|]. exists d. split; [done|]. by apply elem_of_cons; right.
  - intros [= <-]. destruct (status_check_raises _ _ _ Hs). left.
    split; [done|]. exists dep. split; [done|]. apply elem_of_cons; by left.
Qed.

(** With well-formed gate fields the only failures of validation are the
    node exceptions, each naming the dependency it failed on. *)
Lemma validate_each_node_exception deps dr e :
  gates_well_formed deps dr →
  validate_each deps dr = Raise e →
  isinstance e NodeException = true ∧ ∃ d, failed_depend e = Some d ∧ d ∈ deps.
Proof.
  intros Hwf. induction deps as [|dep deps IH]; simpl; [done|].
  assert (gates_well_formed deps dr) as Hwf'.
  { intros d r out k v Hd. apply Hwf. by apply elem_of_cons; right. }
  destruct (_validate_dependency_status dep dr) as [[]|e1] eqn:Hs.
  - assert (∀ e2, _validate_dependency_condition dep dr = Raise e2 →
                  isinstance e2 NodeException = true ∧ failed_depend e2 = Some dep) as Hcond.
    { intros e2. unfold _validate_dependency_condition.
      destruct (dict_get dr (node dep)) as [r|] eqn:Hr; [|done].
      destruct (output r) as [| | | | |out|] eqn:Ho; try done.
      destruct (gate dep) as [k|] eqn:Hg; simpl; [|done].
      destruct (dict_get out k) as [v|] eqn:Hv; [|done].
      destruct (truthy v) eqn:Ht; [|done].
      destruct (Hwf dep r out k v) as (st & i & o & ->); try done.
      { apply elem_of_cons; by left. }
      simpl. case_decide; [|done]. by intros [= <-]. }
    destruct (truthy_str (gate dep)).
    + destruct (_validate_dependency_condition dep dr) as [[]|e2] eqn:Hc.
      * intros He. destruct (IH Hwf' He) as [? (d & ? & ?)].
        split; [done|]. exists d. split; [done|]. by apply elem_of_cons; right.
      * intros [= <-]. destruct (Hcond _ eq_refl).
        split; [done|]. exists dep. split; [done|]. apply elem_of_cons; by left.
    + intros He. destruct (IH Hwf' He) as [? (d & ? & ?)].
      split; [done|]. exists d. split; [done|]. by apply elem_of_cons; right.
  - intros [= <-]. destruct (status_check_raises _ _ _ Hs).
    split; [done|]. exists dep. split; [done|]. apply elem_of_cons; by left.
Qed.

(** A dependency whose result is FAILURE or SKIP never lets validation pass. *)
Lemma validate_each_failed deps dr dep r :
  dep ∈ deps → dict_get dr (node dep) = Some r →
  status r = FAILURE ∨ status r = SKIP →
  ∃ e, validate_each deps dr = Raise e.
Proof.
  intros Hin Hr Hst. induction deps as [|d deps IH]; [by apply elem_of_nil in Hin|].
  simpl. destruct (_validate_dependency_status d dr) as [[]|e1] eqn:Hs; [|by eexists].
  apply elem_of_cons in Hin as [<-|Hin].
  - exfalso. unfold _validate_dependency_status in Hs. rewrite Hr in Hs.
    destruct Hst as [Hst|Hst]; rewrite Hst in Hs; repeat case_decide; done.
  - destruct (if truthy_str (gate d) then _ else _) as [[]|e2]; [by apply IH|by eexists].
Qed.

End EngineFacts.

Section EngineClaims.
Context `{Externals}.

(** Either check of the loop body stopping at a declared dependency stops
    validation as a whole (at that dependency or at an earlier one). *)
Lemma validate_each_stops deps dr dep :
  dep ∈ deps →
  (∃ e, _validate_dependency_status dep dr = Raise e)
  ∨ (truthy_str (gate dep) = true ∧ ∃ e, _validate_dependency_condition dep dr = Raise e) →
  ∃ e, validate_each deps dr = Raise e.
Proof.
  intros Hin Hstop. induction deps as [|d deps IH]; [by apply elem_of_nil in Hin|].
  simpl. destruct (_validate_dependency_status d dr) as [[]|e1] eqn:Hs; [|by eexists].
  destruct (if truthy_str (gate d) then _ else _) as [[]|e2] eqn:Hc; [|by eexists].
  apply elem_of_cons in Hin as [<-|Hin]; [|by apply IH].
  exfalso. destruct Hstop as [[e He]|[Hg [e He]]]; [congruence|].
  rewrite Hg in Hc. congruence.
Qed.

(** The skip path of [run]: a node exception out of validation is turned
    into a SKIP result after one skip event per handler; nothing else runs. *)
Lemma run_skip_path (self : Node) (d : PyDict) (config : option RunnableConfig)
    (dr : list (string * RunnableResult)) (w : World) (e : Exc) (failed : NodeDependency) :
  validate_depends self dr = Raise e →
  isinstance e NodeException = true →
  failed_depend e = Some failed →
  Forall (fun h => ∀ ev, on_event h ev = None) (callbacks (ensure_config config)) →
  let merged := VDict (dict_union d (on_depends to_tracing_depend_dict dr)) in
  run self (VDict d) config (Some dr) w =
    (Ok {| status := SKIP; input := merged; output := format_value e None |},
     delivered (fan_out (callbacks (ensure_config config))
                  (on_node_skip (VDict [("failed_dependency", dependency_to_dict failed)]) merged))
       w).
Proof.
  intros Hv Hi Hf Hq merged. unfold run. simpl. rewrite Hv, Hi, Hf.
  eff_unfold. simpl. unfold run_on_node_skip.
  rewrite emit_returns; [done|].
  eapply Forall_impl; [exact Hq|]. by intros h Hh.
Qed.


End EngineClaims.

Section Retry.
Context `{Externals}.
Variables (self : Node) (input_data : PyVal) (config : RunnableConfig).
Variable P : Exc → Prop.
Variable wait : Z → Q.
Variable n_attempt : Z.

Hypothesis waits_slept :
  ∀ attempt, (0 ≤ attempt < n_attempt - 1)%Z → wait_slept self attempt (wait attempt).
Hypothesis observers_return : quiet (callbacks config).
Hypothesis execute_raises :
  ∀ w0, ∃ e w1, execute self input_data config w0 = (Raise e, w1) ∧ P e.
Hypothesis caught : ∀ e, P e → is_Exception e = true.
Hypothesis timeout_kept :
  timeout_seconds (error_handling self) = None ∨ P (mk_exc TimeoutError EmptyString).

Lemma sleep_returns (attempt : Z) w :
  (0 ≤ attempt < n_attempt - 1)%Z →
  ∃ w', (seconds ← lift (time_to_sleep self attempt); time_sleep seconds) w = (Ok tt, w')
        ∧ journal w' = journal w ++ [JSleep (wait attempt)].
Proof.
  intros Hk. destruct (waits_slept attempt Hk) as (Hwait & Hpos & Hok).
  unfold mbind, Eff_bind, bind, lift. rewrite Hwait. unfold time_sleep. rewrite Hok.
  apply Qle_bool_iff in Hpos. rewrite Hpos.
  eff_unfold. unfold log, advance. simpl. by eexists.
Qed.

(** One failed attempt: start event, the attempt, its error journalled and
    handed to the error handlers; the loop goes on with that error. *)
Lemma attempt_fails {A} (k : PyVal + Exc → Eff A) w :
  ∃ e w',
    (run_on_node_execute_start (callbacks config) input_data ;;
     r ← try_except_all
           (out ← execute_with_timeout self (timeout_seconds (error_handling self))
                    input_data config;
            run_on_node_execute_end (callbacks config) out ;;
            mret (inl out))
           (fun e => run_on_node_execute_error (callbacks config) e ;; mret (inr e));
     k r) w
    = k (inr e) w'
    ∧ journal w' = journal w ++ [JExecute (Raise e)] ∧ P e.
Proof.
  unfold run_on_node_execute_start, run_on_node_execute_error. eff_unfold.
  rewrite emit_quiet by done.
  unfold execute_with_timeout.
  destruct (execute_raises (delivered (fan_out (callbacks config) (on_node_execute_start input_data)) w))
    as (e & w1 & -> & HP).
  set (observed := match timeout_seconds (error_handling self) with
                   | Some t => if Qle_bool _ t then Raise e else _
                   | None => Raise e
                   end).
  assert (∃ e', observed = Raise e' ∧ P e') as (e' & -> & HP').
  { unfold observed. destruct (timeout_seconds _) as [t|]; [case_match|]; eexists; split;
      try done.
    by destruct timeout_kept. }
  rewrite (caught e' HP').
  rewrite emit_quiet by done.
  by eexists e', _.
Qed.

Lemma retry_attempts_exhaust (todo : nat) :
  ∀ (attempt : Z) (error : option Exc) w,
    (0 ≤ attempt)%Z →
    (attempt + Z.of_nat todo = n_attempt)%Z →
    ∃ errors w',
      retry_attempts self input_data config n_attempt todo attempt error w
      = (Raise (default (final_raise error) (last errors)), w')
      ∧ length errors = todo
      ∧ Forall P errors
      ∧ journal w' = journal w ++ retry_journal wait attempt errors.
Proof.
  induction todo as [|todo IH]; intros attempt error w Hpos Hn.
  - exists [], w. simpl. rewrite app_nil_r. by destruct error.
  - cbn [retry_attempts].
    edestruct (@attempt_fails PyVal) as (e & w1 & Hstep & Hj1 & HP).
    rewrite Hstep. clear Hstep.
    destruct todo as [|todo].
    + assert ((attempt <? n_attempt - 1)%Z = false) as -> by lia.
      unfold mbind, mret, Eff_bind, Eff_ret, bind, ret. simpl.
      exists [e], w1. split; [reflexivity|]. split; [reflexivity|].
      split; [by constructor|]. exact Hj1.
    + assert ((attempt <? n_attempt - 1)%Z = true) as -> by lia.
      destruct (sleep_returns attempt w1) as (w2 & Hsleep & Hj2); [lia|].
      unfold mbind at 1, Eff_bind at 1, bind at 1. rewrite Hsleep.
      destruct (IH (attempt + 1)%Z (Some e) w2) as (errors & w' & Hrun & Hlen & HPs & Hj);
        [lia|lia|].
      rewrite Hrun. destruct errors as [|e1 errors]; [simpl in Hlen; lia|].
      exists (e :: e1 :: errors), w'.
      assert (is_Some (last (e1 :: errors))) as [x Hx] by by apply last_is_Some.
      change (last (e :: e1 :: errors)) with (last (e1 :: errors)).
      rewrite Hx in *. split; [done|]. split; [simpl in *; lia|].
      split; [by constructor|].
      rewrite Hj, Hj2, Hj1. cbn [retry_journal]. by rewrite <- !app_assoc.
Qed.

End Retry.

Section RetryClaim.
Context `{Externals}.

(** C2 (amended). For a node with [max_retries = N] whose [execute] raises
    on every attempt an error that derives from [Exception], with observers
    that return, and whose waits [retry_interval_seconds * backoff_rate **
    attempt], computed in floats, come out for [attempt = 0 .. N-1] as
    finite lengths [wait attempt] that [time.sleep] takes:
    [execute_with_retry] makes exactly [N + 1] attempts, sleeps
    [wait attempt] after each failed attempt [0 .. N-1] and not after the
    last one, and then re-raises the error of the last attempt. *)
Theorem execute_with_retry_exhausts (self : Node) (input_data : PyVal)
    (config : option RunnableConfig) (w : World) (N : nat) (wait : Z → Q) :
  max_retries (error_handling self) = Z.of_nat N →
  (∀ attempt, (0 ≤ attempt < Z.of_nat N)%Z → wait_slept self attempt (wait attempt)) →
  quiet (callbacks (ensure_config config)) →
  (∀ w0, ∃ e w1, execute self input_data (ensure_config config) w0 = (Raise e, w1)
                 ∧ is_Exception e = true) →
  ∃ errors e w',
    execute_with_retry self input_data config w = (Raise e, w')
    ∧ length errors = S N
    ∧ last errors = Some e
    ∧ journal w' = journal w ++ retry_journal wait 0 errors.
Proof.
  intros HN Hw Hq Hx. unfold execute_with_retry. rewrite HN.
  replace (Z.to_nat (Z.of_nat N + 1)) with (S N) by lia.
  destruct (retry_attempts_exhaust self input_data (ensure_config config)
              (fun e => is_Exception e = true) wait (Z.of_nat N + 1)%Z)
    with (todo := S N) (attempt := 0%Z) (error := @None Exc) (w := w)
    as (errors & w' & Hrun & Hlen & _ & Hj); try done; try lia.
  { intros attempt Hk. apply Hw. lia. }
  { by right. }
  destruct (last errors) as [e|] eqn:Hlast.
  - exists errors, e, w'. by rewrite Hrun.
  - apply last_None in Hlast. by subst.
Qed.

End RetryClaim.

Section RunClaims.
Context `{Externals}.


(** What the second [try] block hands back when it completes. *)
Lemma run_body_returns (self : Node) (input_data : PyVal) (config : RunnableConfig)
    (dr : list (string * RunnableResult)) (transformed_input : PyVal) w res w' :
  run_body self input_data config dr transformed_input w = (Ok res, w') →
  status res = SUCCESS ∧
  if truthy_str (path (input_transformer self))
     || match selector (input_transformer self) with Some (_ :: _) => true | _ => false end
  then ∃ merged, py_or input_data (on_depends to_depend_dict dr) = Ok merged
                 ∧ transform_input self (VDict merged) = Ok (input res)
  else input res = transformed_input.
Proof.
  unfold run_body. eff_unfold. intros Hrun.
  destruct (truthy_str _ || _).
  - destruct (py_or input_data _) as [merged|] eqn:Hm; [|done].
    destruct (transform_input self (VDict merged)) as [t|] eqn:Ht; [|done].
    repeat case_match; simplify_eq; simpl.
    split; [done|]. by exists merged.
  - repeat case_match; by simplify_eq.
Qed.

(** C10. When [run] returns FAILURE the result's [input] is the
    [input_data] the caller passed, unmerged and untransformed; when it
    returns SUCCESS the [input] is the input merged with the dependency
    results or, with an input transformer configured, the transform of the
    merged input. *)
Theorem run_result_input (self : Node) (input_data : PyVal)
    (config : option RunnableConfig) (dr : option (list (string * RunnableResult)))
    (w w' : World) (res : RunnableResult) :
  run self input_data config dr w = (Ok res, w') →
  (status res = FAILURE → input res = input_data)
  ∧ (status res = SUCCESS →
     if truthy_str (path (input_transformer self))
        || match selector (input_transformer self) with Some (_ :: _) => true | _ => false end
     then ∃ merged, py_or input_data (on_depends to_depend_dict (default [] dr)) = Ok merged
                    ∧ transform_input self (VDict merged) = Ok (input res)
     else ∃ merged, py_or input_data (on_depends to_tracing_depend_dict (default [] dr)) = Ok merged
                    ∧ input res = VDict merged).
Proof.
  unfold run. eff_unfold.
  destruct (py_or input_data (on_depends to_tracing_depend_dict (default [] dr)))
    as [merged|] eqn:Hm; [|done].
  destruct (validate_depends self (default [] dr)) as [[]|e].
  - destruct (run_body self input_data (ensure_config config) (default [] dr) (VDict merged) w)
      as [[res0|e] w1] eqn:Hbody.
    + intros [= <- <-]. destruct (run_body_returns _ _ _ _ _ _ _ _ Hbody) as [Hst Hin].
      split; [by rewrite Hst|]. intros _.
      destruct (truthy_str _ || _); [done|]. by exists merged.
    + destruct (is_Exception e); [|done].
      unfold run_on_node_error. destruct (emit _ _ w1) as [[[]|e1] w2]; [|done].
      intros [= <- <-]. simpl. by split.
  - destruct (isinstance e NodeException); [|done].
    repeat case_match; intros; simplify_eq; simpl; by split.
Qed.

(** C1 (amended). For a mapping input whose dependencies pass validation,
    and node-error handlers that return: if the body (input transformation,
    start callback, cache gate, retried execution, output transformation, end
    callback) raises an [e] that derives from [Exception], each handler
    receives the node-error event and [run] returns FAILURE with the caller's
    input and the formatted error, whose recoverable flag is
    [isinstance e RecoverableAgentException]; an [e] that derives from
    [BaseException] alone leaves [run] as it is, past the handlers; when the
    body completes, the result is its SUCCESS. *)
Theorem run_reifies_errors (self : Node) (d : PyDict) (config : option RunnableConfig)
    (dr : option (list (string * RunnableResult))) (w : World) :
  validate_depends self (default [] dr) = Ok tt →
  (∀ h e, h ∈ callbacks (ensure_config config) → on_event h (on_node_error e) = None) →
  let merged := VDict (dict_union d (on_depends to_tracing_depend_dict (default [] dr))) in
  match run_body self (VDict d) (ensure_config config) (default [] dr) merged w with
  | (Ok res0, w0) =>
      run self (VDict d) config dr w = (Ok res0, w0) ∧ status res0 = SUCCESS
  | (Raise e, w0) =>
      if is_Exception e then
        run self (VDict d) config dr w
        = (Ok {| status := FAILURE; input := VDict d;
                 output := format_value e (Some (isinstance e RecoverableAgentException)) |},
           delivered (fan_out (callbacks (ensure_config config)) (on_node_error e)) w0)
      else run self (VDict d) config dr w = (Raise e, w0)
  end.
Proof.
  intros Hv Hq merged. unfold run. eff_unfold. simpl. rewrite Hv. fold merged.
  destruct (run_body self (VDict d) (ensure_config config) (default [] dr) merged w)
    as [[res0|e] w0] eqn:Hbody.
  - split; [done|].
    by destruct (run_body_returns _ _ _ _ _ _ _ _ Hbody) as [-> _].
  - destruct (is_Exception e); [|done].
    unfold run_on_node_error. rewrite emit_returns; [done|].
    apply Forall_forall. intros h Hh. by apply Hq.
Qed.

End RunClaims.

(** * Properties of the reasoning loop *)

Section Respects.
Context (R : World → World → Prop) `{!Reflexive R, !Transitive R}.

Lemma respects_ret {A} (a : A) : respects R (mret a).
Proof. intros w. simpl. reflexivity. Qed.

Lemma respects_lift {A} (o : Outcome A) : respects R (lift o).
Proof. intros w. simpl. reflexivity. Qed.

Lemma respects_raise {A} (e : Exc) : respects R (raise e : Eff A).
Proof. intros w. simpl. reflexivity. Qed.

Lemma respects_bind {A B} (m : Eff A) (k : A → Eff B) :
  respects R m → (∀ a, respects R (k a)) → respects R (m ≫= k).
Proof.
  intros Hm Hk w. unfold mbind, Eff_bind, bind.
  specialize (Hm w). destruct (m w) as [[a|e] w1]; simpl in *; [|done].
  etrans; [exact Hm|]. apply Hk.
Qed.

Lemma respects_try_except {A} (m : Eff A) c (h : Exc → Eff A) :
  respects R m → (∀ e, respects R (h e)) → respects R (try_except m c h).
Proof.
  intros Hm Hh w. unfold try_except.
  specialize (Hm w). destruct (m w) as [[a|e] w1]; simpl in *; [done|].
  destruct (isinstance e c); [|done]. etrans; [exact Hm|]. apply Hh.
Qed.

Lemma respects_emit cbs ev :
  (∀ h, respects R (deliver h ev)) → respects R (emit cbs ev).
Proof.
  intros Hd. induction cbs as [|h cbs IH]; simpl.
  - apply respects_ret.
  - apply respects_bind; [apply Hd|]. intros _.
    destruct (on_event h ev); [apply respects_raise|apply IH].
Qed.

End Respects.

#[local] Instance within_iteration_refl k : Reflexive (within_iteration k).
Proof. by intros w. Qed.

#[local] Instance within_iteration_trans k : Transitive (within_iteration k).
Proof.
  intros w1 w2 w3 (Hj1 & Hc1 & Hm1 & Hf1 & Hk1) (Hj2 & Hc2 & Hm2 & Hf2 & Hk2).
  split; [congruence|]. split; [congruence|]. split; [congruence|]. split.
  - intros j Hj. by rewrite Hf2, Hf1.
  - auto.
Qed.

Lemma model_calls_app js1 js2 : model_calls (js1 ++ js2) = model_calls js1 + model_calls js2.
Proof. unfold model_calls. by rewrite filter_app, length_app. Qed.

Lemma tool_runs_app js1 js2 : tool_runs (js1 ++ js2) = tool_runs js1 + tool_runs js2.
Proof. unfold tool_runs. by rewrite filter_app, length_app. Qed.

Section AgentFacts.
Context `{Externals}.
Variables (self : ReActAgent) (config : RunnableConfig).

Lemma within_deliver k h ev : respects (within_iteration k) (deliver h ev).
Proof. by intros w. Qed.

Lemma within_emit k cbs ev : respects (within_iteration k) (emit cbs ev).
Proof. apply respects_emit; [apply _..|]. intros h. apply within_deliver. Qed.

Lemma within_note k c : is_model_call c = false → respects (within_iteration k) (note c).
Proof.
  intros Hc w. split; [done|]. split; [done|]. split; [|done]. simpl.
  rewrite model_calls_app.
  destruct c; try done; unfold model_calls at 2; simpl; lia.
Qed.

Lemma within_set_step k s : respects (within_iteration k) (set_steps (<[k := s]>)).
Proof.
  intros w. do 3 (split; [done|]). simpl. split.
  - intros j Hj. by rewrite lookup_insert_ne.
  - intros _. rewrite lookup_insert_eq. by eexists.
Qed.

Lemma within_get_step k : respects (within_iteration k) (get_step k).
Proof. intros w. unfold get_step. by destruct (_ !! k). Qed.

Lemma within_tracing_intermediate k p o :
  respects (within_iteration k) (tracing_intermediate k p o).
Proof. apply within_set_step. Qed.

Lemma within_stream k :
  respects (within_iteration k)
    (if streaming_enabled (agent_streaming self)
     then s' ← get_step k; run_on_node_execute_stream (callbacks config) (step_dump s')
     else mret tt).
Proof.
  destruct (streaming_enabled _); [|apply respects_ret; apply _].
  apply respects_bind; [apply _|apply within_get_step|]. intros s. apply within_emit.
Qed.

Lemma within_tracing_final k answer :
  respects (within_iteration k) (tracing_final self k answer config).
Proof.
  unfold tracing_final. apply respects_bind; [apply _|apply within_get_step|]. intros s.
  apply respects_bind; [apply _|apply within_set_step|]. intros _. apply within_stream.
Qed.

Lemma within_run_tool k tool action_input :
  respects (within_iteration k) (_run_tool self tool action_input).
Proof.
  intros w. unfold _run_tool.
  apply (respects_bind (within_iteration k) (note (CTool (VStr tool) action_input))
           (fun _ => lift (run_tool self (calls w) tool action_input))).
  - by apply within_note.
  - intros _. apply respects_lift; apply _.
Qed.

Lemma within_dispatch k out action action_input :
  respects (within_iteration k) (dispatch self config k out action action_input).
Proof.
  unfold dispatch. destruct (truthy action); [|apply respects_ret; apply _].
  destruct (tools self) as [|t ts]; [apply respects_ret; apply _|].
  apply respects_bind; [apply _| |].
  - apply respects_try_except; [apply _| |].
    + apply respects_bind; [apply _|apply respects_lift; apply _|].
      intros tool. apply within_run_tool.
    + intros e. apply respects_ret; apply _.
  - intros tool_result. apply respects_bind; [apply _|apply within_get_step|]. intros s.
    apply respects_bind; [apply _|apply within_set_step|]. intros _.
    apply respects_bind; [apply _|apply within_stream|]. intros _.
    apply respects_ret; apply _.
Qed.

End AgentFacts.

(** The part of [parse_response] that follows [tracing_intermediate]. *)
Ltac within_tail :=
  repeat first
    [ apply respects_ret; apply _
    | apply respects_lift; apply _
    | apply within_tracing_final
    | apply within_tracing_intermediate
    | apply respects_bind; [apply _| |intros ?]
    | case_match ].

Section IterationFacts.
Context `{Externals}.
Variables (self : ReActAgent) (config : RunnableConfig).

Lemma within_parse_response k p res :
  respects (within_iteration k) (parse_response self config k p res).
Proof. unfold parse_response. destruct (inference_mode self); within_tail. Qed.

Lemma bind_lift {A B} (o : Outcome A) (k : A → Eff B) w :
  (lift o ≫= k) w = match o with Ok a => k a w | Raise e => (Raise e, w) end.
Proof. by destruct o. Qed.

Lemma bind_ok {A B} (m : Eff A) (k : A → Eff B) w a w1 :
  m w = (Ok a, w1) → (m ≫= k) w = k a w1.
Proof. intros Hm. unfold mbind, Eff_bind, bind. by rewrite Hm. Qed.

Lemma bind_raise {A B} (m : Eff A) (k : A → Eff B) w e w1 :
  m w = (Raise e, w1) → (m ≫= k) w = (Raise e, w1).
Proof. intros Hm. unfold mbind, Eff_bind, bind. by rewrite Hm. Qed.

Lemma tracing_intermediate_eq k p o w :
  tracing_intermediate k p o w = (Ok tt, stepped (<[k := fresh_step p o]>) w).
Proof. done. Qed.

Lemma react_iteration_eq user_request k prev w :
  react_iteration self config user_request k prev w =
  let p := prompt_of self user_request prev in
  match iteration_tail self config k p prev (llm self (calls w) p) (called [CModel p] w) with
  | (Raise e, w') =>
      if isinstance e ActionParsingException
      then (Ok (Continue (prev ++ [exc_text e])), w')
      else (Raise e, w')
  | r => r
  end.
Proof. done. Qed.

Lemma react_loop_step user_request todo k prev w :
  react_loop self config user_request (S todo) k prev w =
  match react_iteration self config user_request k prev w with
  | (Ok (Return answer), w') => (Ok answer, w')
  | (Ok (Continue prev'), w') => react_loop self config user_request todo (S k) prev' w'
  | (Raise e, w') => (Raise e, w')
  end.
Proof.
  cbn [react_loop]. unfold mbind, Eff_bind, bind.
  by destruct (react_iteration _ _ _ _ _ _) as [[[]|] ?].
Qed.

Lemma within_iteration_tail k p prev res :
  respects (within_iteration k) (iteration_tail self config k p prev res).
Proof.
  unfold iteration_tail. destruct (negb _).
  - apply respects_bind; [apply _|apply respects_lift; apply _|].
    intros text. apply respects_ret; apply _.
  - apply respects_bind; [apply _|apply within_parse_response|].
    intros [answer|out action action_input]; [apply respects_ret; apply _|].
    apply respects_bind; [apply _|apply within_dispatch|].
    intros text. apply respects_ret; apply _.
Qed.

(** The world an iteration leaves is the one its [try] block leaves. *)
Lemma react_iteration_world user_request k prev w :
  (react_iteration self config user_request k prev w).2 =
  (iteration_tail self config k (prompt_of self user_request prev) prev
     (llm self (calls w) (prompt_of self user_request prev))
     (called [CModel (prompt_of self user_request prev)] w)).2.
Proof.
  rewrite react_iteration_eq. simpl.
  destruct (iteration_tail _ _ _ _ _ _ _) as [[?|e] w']; [done|].
  by destruct (isinstance e ActionParsingException).
Qed.

(** Every iteration calls the model exactly once and writes no step but its own. *)
Lemma iteration_frame user_request k prev w :
  let w' := (react_iteration self config user_request k prev w).2 in
  journal w' = journal w
  ∧ clock w' = clock w
  ∧ model_calls (calls w') = S (model_calls (calls w))
  ∧ ∀ j, j ≠ k → _intermediate_steps w' !! j = _intermediate_steps w !! j.
Proof.
  intros w'. unfold w'. rewrite react_iteration_world.
  destruct (within_iteration_tail k (prompt_of self user_request prev) prev
              (llm self (calls w) (prompt_of self user_request prev))
              (called [CModel (prompt_of self user_request prev)] w))
    as (Hj & Hc & Hm & Hf & _).
  split; [exact Hj|]. split; [exact Hc|]. split; [|exact Hf].
  rewrite Hm. simpl. rewrite model_calls_app. unfold model_calls at 2. simpl. lia.
Qed.

Lemma traced_then {A} k p o (rest : Eff A) w :
  respects (within_iteration k) rest →
  is_Some (_intermediate_steps ((tracing_intermediate k p o ;; rest) w).2 !! k).
Proof.
  intros Hrest. erewrite bind_ok; [|apply tracing_intermediate_eq].
  destruct (Hrest (stepped (<[k := fresh_step p o]>) w)) as (_ & _ & _ & _ & Hkeep).
  apply Hkeep. simpl. rewrite lookup_insert_eq. by eexists.
Qed.

Lemma subscript_error v key e :
  subscript v key = Raise e → isinstance e ActionParsingException = false.
Proof.
  unfold subscript. destruct v; try (by intros [= <-]).
  destruct (dict_get d key); [done|]. by intros [= <-].
Qed.

(** Decoding a successful response either files the step of the iteration
    or fails, before filing it, with an error that is not the parsing
    exception. *)
Lemma parse_response_traced k p res w :
  is_Some (_intermediate_steps (parse_response self config k p res w).2 !! k)
  ∨ ∃ e, (parse_response self config k p res w).1 = Raise e
         ∧ isinstance e ActionParsingException = false.
Proof.
  unfold parse_response. destruct (inference_mode self).
  - rewrite bind_lift. unfold get_content. destruct (content _) as [text|].
    + left. apply traced_then. within_tail.
    + right. by eexists.
  - rewrite bind_lift. unfold get_content. destruct (content _) as [text|].
    + left. apply traced_then. within_tail.
    + right. by eexists.
  - rewrite bind_lift. unfold first_tool_call. destruct (tool_calls _) as [|call calls].
    { right. by eexists. }
    rewrite bind_lift. destruct (json_loads call.2) as [j|e] eqn:Hj;
      [|right; exists e; split; [done|by eapply json_loads_foreign]].
    left. apply traced_then. within_tail.
  - rewrite bind_lift. unfold get_content. destruct (content _) as [text|]; [|right; by eexists].
    rewrite bind_lift. destruct (json_loads text) as [j|e] eqn:Hj;
      [|right; exists e; split; [done|by eapply json_loads_foreign]].
    rewrite bind_lift.
    destruct (subscript j "action") as [action|e] eqn:Ha;
      [|right; exists e; split; [done|by eapply subscript_error]].
    rewrite bind_lift.
    destruct (subscript j "action_input") as [action_input|e] eqn:Hi;
      [|right; exists e; split; [done|by eapply subscript_error]].
    left. apply traced_then. within_tail.
Qed.

(** In the text modes a response that carries content is filed whatever
    follows. *)
Lemma parse_response_traced_text k p res w text :
  inference_mode self = DEFAULT ∨ inference_mode self = XML →
  content (llm_output res) = Some text →
  is_Some (_intermediate_steps (parse_response self config k p res w).2 !! k).
Proof.
  intros Hmode Hc. unfold parse_response.
  destruct Hmode as [-> | ->]; rewrite bind_lift; unfold get_content; rewrite Hc;
    apply traced_then; within_tail.
Qed.

(** An iteration whose model call succeeded and that did not abort has
    filed its step. *)
Lemma iteration_traced user_request k prev w :
  llm_status (llm self (calls w) (prompt_of self user_request prev)) = SUCCESS →
  (∃ step, (react_iteration self config user_request k prev w).1 = Ok step) →
  is_Some (_intermediate_steps (react_iteration self config user_request k prev w).2 !! k).
Proof.
  intros Hs [step Hstep]. rewrite react_iteration_world.
  rewrite react_iteration_eq in Hstep. simpl in Hstep.
  set (p := prompt_of self user_request prev) in *.
  set (res := llm self (calls w) p) in *.
  set (w1 := called [CModel p] w) in *.
  unfold iteration_tail in *. rewrite Hs in *. simpl in *.
  unfold mbind, Eff_bind, bind in *.
  destruct (parse_response_traced k p res w1) as [Htr|(e & He & Hne)].
  - destruct (parse_response self config k p res w1) as [[parsed|e] w2]; simpl in *; [|done].
    destruct parsed as [answer|out action action_input]; [done|].
    destruct (within_dispatch self config k out action action_input w2)
      as (_ & _ & _ & _ & Hkeep).
    destruct (dispatch _ _ _ _ _ _ w2) as [[text|e] w3]; simpl in *; by apply Hkeep.
  - destruct (parse_response self config k p res w1) as [[parsed|e'] w2]; simpl in *; [done|].
    simplify_eq. by rewrite Hne in Hstep.
Qed.

(** An iteration whose model call failed files nothing. *)
Lemma iteration_model_failure user_request k prev w :
  llm_status (llm self (calls w) (prompt_of self user_request prev)) ≠ SUCCESS →
  _intermediate_steps (react_iteration self config user_request k prev w).2
  = _intermediate_steps w.
Proof.
  intros Hs. rewrite react_iteration_world. unfold iteration_tail.
  rewrite bool_decide_eq_false_2 by done. simpl. rewrite bind_lift.
  by destruct (get_content _).
Qed.

End IterationFacts.

Section AgentClaims.
Context `{Externals}.
Variables (self : ReActAgent) (config : RunnableConfig).

(** Filing a response and then its final answer. *)
Lemma file_final_answer k p out answer w :
  (streaming_enabled (agent_streaming self) = true → quiet (callbacks config)) →
  (tracing_intermediate k p out ;; tracing_final self k answer config ;; mret (Final answer)) w
  = (Ok (Final answer),
     delivered (streamed self config (final_step p out answer))
       (stepped (<[k := final_step p out answer]>) w)).
Proof.
  intros Hq. unfold tracing_final, tracing_intermediate, get_step, set_steps, streamed,
    run_on_node_execute_stream.
  eff_unfold. simpl. rewrite lookup_insert_eq. simpl. rewrite insert_insert_eq.
  destruct (streaming_enabled (agent_streaming self)) eqn:Hs.
  - cbn [_intermediate_steps]. rewrite lookup_insert_eq. rewrite emit_quiet by auto. done.
  - by rewrite delivered_nil.
Qed.


(** C7 (amended). In XML mode, at any iteration whose model output has no
    "<answer>" tag and on whose [action_input] content [json.loads] raises
    [json.JSONDecodeError], the parser raises an [ActionParsingException] (a
    recoverable one), the iteration absorbs it, appends exactly the one
    entry for it to the context and the loop goes on with the next
    [loop_num]; the response stays filed. *)
Theorem xml_malformed_action_input_absorbed (user_request : string) (k : nat)
    (prev : list string) (w : World) (text output_content action_input_text : string)
    (decode_error : Exc) :
  inference_mode self = XML →
  let p := prompt_of self user_request prev in
  llm_status (llm self (calls w) p) = SUCCESS →
  content (llm_output (llm self (calls w) p)) = Some text →
  contains "<answer>" text = false →
  parse_xml_content text "output" = Ok output_content →
  parse_xml_content output_content "action_input" = Ok action_input_text →
  json_loads action_input_text = Raise decode_error →
  isinstance decode_error JSONDecodeError = true →
  ∃ e,
    parse_xml_and_extract_info text = Raise e
    ∧ exc_class e = ActionParsingException
    ∧ isinstance e RecoverableAgentException = true
    ∧ let w' := stepped (<[k := fresh_step p text]>) (called [CModel p] w) in
      react_iteration self config user_request k prev w
      = (Ok (Continue (prev ++ [exc_text e])), w')
      ∧ ∀ todo, react_loop self config user_request (S todo) k prev w
                = react_loop self config user_request todo (S k) (prev ++ [exc_text e]) w'.
Proof.
  intros Hmode p Hs Hc Hans Hout Hinput Hjson Hclass.
  assert (∃ e, parse_xml_and_extract_info text = Raise e
               ∧ exc_class e = ActionParsingException) as (e & Hparse & He).
  { unfold parse_xml_and_extract_info. rewrite Hout.
    change (parse_xml_content output_content "action")
      with (Ok (A := string)
              (strip (between "<action>" "</action>" output_content))).
    cbv beta iota. rewrite Hinput, Hjson, Hclass. by eexists. }
  exists e. split; [done|]. split; [done|].
  split; [unfold isinstance; by rewrite He|].
  intros w'.
  assert (react_iteration self config user_request k prev w
          = (Ok (Continue (prev ++ [exc_text e])), w')) as Hit.
  { rewrite react_iteration_eq. fold p. cbv zeta. unfold iteration_tail. rewrite Hs. simpl.
    erewrite bind_raise; cycle 1.
    { unfold parse_response. rewrite Hmode, bind_lift. unfold get_content. rewrite Hc.
      erewrite bind_ok; [|apply tracing_intermediate_eq]. rewrite Hans, bind_lift.
      by rewrite Hparse. }
    unfold isinstance. by rewrite He. }
  split; [done|]. intros todo. by rewrite react_loop_step, Hit.
Qed.


End AgentClaims.

Section LoopClaims.
Context `{Externals}.
Variables (self : ReActAgent) (config : RunnableConfig).

(** In the text modes a successful response with content is filed whatever
    the iteration then does. *)
Lemma iteration_traced_text user_request k prev w :
  llm_status (llm self (calls w) (prompt_of self user_request prev)) = SUCCESS →
  inference_mode self = DEFAULT ∨ inference_mode self = XML →
  is_Some (content (llm_output (llm self (calls w) (prompt_of self user_request prev)))) →
  is_Some (_intermediate_steps (react_iteration self config user_request k prev w).2 !! k).
Proof.
  intros Hs Hmode [text Hc]. rewrite react_iteration_world.
  set (p := prompt_of self user_request prev) in *.
  set (res := llm self (calls w) p) in *.
  set (w1 := called [CModel p] w).
  unfold iteration_tail. rewrite Hs. simpl. unfold mbind, Eff_bind, bind.
  pose proof (parse_response_traced_text self config k p res w1 text Hmode Hc) as Htr.
  destruct (parse_response self config k p res w1) as [[parsed|e] w2]; simpl in *; [|done].
  destruct parsed as [answer|out action action_input]; [done|].
  destruct (within_dispatch self config k out action action_input w2)
    as (_ & _ & _ & _ & Hkeep).
  destruct (dispatch _ _ _ _ _ _ w2) as [[?|?] w3]; simpl in *; by apply Hkeep.
Qed.

(** A run of the loop writes no step outside the indices of its iterations
    and leaves the engine's journal alone. *)
Lemma react_loop_frame user_request todo :
  ∀ k prev w,
    let w' := (react_loop self config user_request todo k prev w).2 in
    journal w' = journal w
    ∧ ∀ j, (j < k)%nat ∨ (k + todo ≤ j)%nat → _intermediate_steps w' !! j = _intermediate_steps w !! j.
Proof.
  induction todo as [|todo IH]; intros k prev w; [done|].
  cbv zeta. rewrite react_loop_step.
  destruct (iteration_frame self config user_request k prev w) as (Hj & _ & _ & Hf).
  destruct (react_iteration self config user_request k prev w) as [[[prev'|answer]|e] w1];
    simpl in *.
  - destruct (IH (S k) prev' w1) as [Hj' Hf']. split; [congruence|].
    intros j Hjk. rewrite Hf' by lia. apply Hf. lia.
  - split; [done|]. intros j Hjk. apply Hf. lia.
  - split; [done|]. intros j Hjk. apply Hf. lia.
Qed.


(** When no iteration ends or aborts the loop and every model call
    succeeds, the loop runs out: one model call and one filed step per
    iteration, then the max-loops error. *)
Lemma react_loop_exhausts user_request :
  always_continues self config user_request →
  (∀ cs p, llm_status (llm self cs p) = SUCCESS) →
  ∀ todo k prev w,
    ∃ w', react_loop self config user_request todo k prev w = (Raise (max_loops_error self), w')
          ∧ journal w' = journal w
          ∧ model_calls (calls w') = model_calls (calls w) + todo
          ∧ (∀ j, (k ≤ j < k + todo)%nat → is_Some (_intermediate_steps w' !! j))
          ∧ (∀ j, (j < k)%nat ∨ (k + todo ≤ j)%nat →
                  _intermediate_steps w' !! j = _intermediate_steps w !! j).
Proof.
  intros Hcont Hllm. induction todo as [|todo IH]; intros k prev w.
  - exists w. split; [done|]. split; [done|]. split; [simpl; lia|]. split; [lia|done].
  - rewrite react_loop_step.
    destruct (Hcont k prev w) as [prev' Hprev].
    destruct (iteration_frame self config user_request k prev w) as (Hj & _ & Hm & Hf).
    pose proof (iteration_traced self config user_request k prev w (Hllm _ _)
                  (ex_intro _ _ Hprev)) as Htr.
    destruct (react_iteration self config user_request k prev w) as [r w1]; simpl in *.
    subst r.
    destruct (IH (S k) prev' w1) as (w' & Hrun & Hj' & Hm' & Hin & Hout).
    exists w'. split; [done|]. split; [congruence|]. split; [lia|]. split.
    + intros j Hjk. destruct (decide (j = k)) as [->|Hne].
      * rewrite Hout by lia. done.
      * apply Hin. lia.
    + intros j Hjk. rewrite Hout by lia. apply Hf. lia.
Qed.

End LoopClaims.

Section Continuation.
Context `{Externals}.
Variables (self : ReActAgent) (config : RunnableConfig).
Hypothesis model_goes_on : never_terminal self.
Hypothesis tools_fail_softly : tools_recoverable self.
Hypothesis stream_hooks_return :
  streaming_enabled (agent_streaming self) = true → quiet (callbacks config).

(** Acting on a dispatchable action hands back the text for the context. *)
Lemma dispatch_returns k out action action_input w :
  dispatchable self action →
  is_Some (_intermediate_steps w !! k) →
  ∃ text w', dispatch self config k out action action_input w = (Ok text, w').
Proof.
  intros Hd [s Hs]. unfold dispatch, _get_tool.
  destruct (truthy action) eqn:Ht; [|by eexists _, _].
  destruct Hd as [Hd|[Hd|(a & -> & Ha)]]; [congruence|by rewrite Hd; eexists _, _|].
  destruct (tools self) as [|t ts] eqn:Htools; [by eexists _, _|].
  rewrite bool_decide_eq_true_2 by done.
  unfold try_except, _run_tool, get_step, set_steps, note, run_on_node_execute_stream.
  eff_unfold. cbn [calls _intermediate_steps].
  destruct (run_tool self (calls w) a action_input) as [v|e] eqn:Htool.
  - cbn [_intermediate_steps]. rewrite Hs. cbn [_intermediate_steps].
    destruct (streaming_enabled (agent_streaming self)) eqn:Hstream; [|by eexists _, _].
    cbn [deliveries journal calls clock _intermediate_steps].
    rewrite lookup_insert_eq. rewrite emit_quiet by auto. by eexists _, _.
  - rewrite (tools_fail_softly _ _ _ _ Htool).
    cbn [_intermediate_steps]. rewrite Hs. cbn [_intermediate_steps].
    destruct (streaming_enabled (agent_streaming self)) eqn:Hstream; [|by eexists _, _].
    cbn [deliveries journal calls clock _intermediate_steps].
    rewrite lookup_insert_eq. rewrite emit_quiet by auto. by eexists _, _.
Qed.

(** Decoding a non-terminal response yields a dispatchable action, or the
    parsing exception. *)
Lemma parse_response_goes_on k p res w :
  non_terminal self res →
  (∃ out action action_input w',
     parse_response self config k p res w = (Ok (Act out action action_input), w')
     ∧ dispatchable self action)
  ∨ (∃ e w', parse_response self config k p res w = (Raise e, w')
             ∧ isinstance e ActionParsingException = true).
Proof.
  unfold non_terminal, parse_response. destruct (inference_mode self).
  - intros (text & Hc & Hans & Hparse). rewrite bind_lift. unfold get_content. rewrite Hc.
    erewrite bind_ok; [|apply tracing_intermediate_eq]. rewrite Hans, bind_lift.
    destruct (_parse_action text) as [[action action_input]|e]; [left|right].
    + by eexists _, _, _, _.
    + by eexists _, _.
  - intros (text & Hc & Hans & Hparse). rewrite bind_lift. unfold get_content. rewrite Hc.
    erewrite bind_ok; [|apply tracing_intermediate_eq]. rewrite Hans, bind_lift.
    destruct (parse_xml_and_extract_info text) as [[action action_input]|e]; [left|right].
    + by eexists _, _, _, _.
    + by eexists _, _.
  - intros (fname & arguments & others & j & action & action_input
            & Hc & Hname & Hj & Ha & Hi & Hd).
    rewrite bind_lift. unfold first_tool_call. rewrite Hc. cbn [fst snd].
    rewrite bind_lift, Hj.
    erewrite bind_ok; [|apply tracing_intermediate_eq]. rewrite Hname.
    rewrite bind_lift, Ha, bind_lift, Hi. left. by eexists _, _, _, _.
  - intros (text & j & action & action_input & Hc & Hj & Ha & Hi & Hfin & Hd).
    rewrite bind_lift. unfold get_content. rewrite Hc.
    rewrite bind_lift, Hj, bind_lift, Ha, bind_lift, Hi.
    erewrite bind_ok; [|apply tracing_intermediate_eq]. rewrite Hfin.
    left. by eexists _, _, _, _.
Qed.

(** No iteration ends the loop or aborts it. *)
Lemma iteration_continues user_request : always_continues self config user_request.
Proof.
  intros k prev w. rewrite react_iteration_eq. cbv zeta.
  set (p := prompt_of self user_request prev).
  destruct (model_goes_on (calls w) p) as [Hs Hnon].
  unfold iteration_tail. rewrite Hs. simpl.
  set (w1 := called [CModel p] w).
  pose proof (parse_response_traced self config k p (llm self (calls w) p) w1) as Htraced.
  destruct (parse_response_goes_on k p _ w1 Hnon)
    as [(out & action & action_input & w2 & Hparse & Hd)|(e & w2 & Hparse & He)].
  - rewrite Hparse in Htraced. simpl in Htraced.
    destruct Htraced as [Hfiled|(e & ? & _)]; [|done].
    erewrite bind_ok; [|exact Hparse]. cbv beta iota.
    destruct (dispatch_returns k out action action_input w2 Hd Hfiled) as (text & w3 & Hdis).
    erewrite bind_ok; [|exact Hdis]. by eexists.
  - erewrite bind_raise; [|exact Hparse]. rewrite He. by eexists.
Qed.

End Continuation.

Section Exhaustion.
Context `{Externals}.

Lemma agent_execute_exhausts (self : ReActAgent) (config : RunnableConfig) (input_data : PyVal) :
  always_continues self config (request_of input_data) →
  (∀ cs p, llm_status (llm self cs p) = SUCCESS) →
  ∀ w, ∃ w', execute (as_node self) input_data config w = (Raise (max_loops_error self), w').
Proof.
  intros Hcont Hllm w. simpl. unfold agent_execute.
  erewrite bind_ok; [|reflexivity].
  destruct (react_loop_exhausts self config (request_of input_data) Hcont Hllm
              (max_loops self) 0 [] (stepped (fun _ => ∅) w)) as (w' & Hrun & _).
  by exists w'.
Qed.

Lemma agent_retry_exhausts (self : ReActAgent) (config : RunnableConfig) (input_data : PyVal)
    (N : nat) (wait : Z → Q) :
  always_continues self config (request_of input_data) →
  (∀ cs p, llm_status (llm self cs p) = SUCCESS) →
  timeout_seconds (agent_error_handling self) = None →
  max_retries (agent_error_handling self) = Z.of_nat N →
  (∀ attempt, (0 ≤ attempt < Z.of_nat N)%Z → wait_slept (as_node self) attempt (wait attempt)) →
  quiet (callbacks config) →
  ∀ w, ∃ w', execute_with_retry (as_node self) input_data (Some config) w
             = (Raise (max_loops_error self), w').
Proof.
  intros Hcont Hllm Ht HN Hw Hq w. unfold execute_with_retry. simpl. rewrite HN.
  replace (Z.to_nat (Z.of_nat N + 1)) with (S N) by lia.
  destruct (retry_attempts_exhaust (as_node self) input_data config
              (fun e => e = max_loops_error self) wait (Z.of_nat N + 1)%Z)
    with (todo := S N) (attempt := 0%Z) (error := @None Exc) (w := w)
    as (errors & w' & Hrun & Hlen & HP & _); try done; try lia.
  - intros attempt Hk. apply Hw. lia.
  - intros w0. destruct (agent_execute_exhausts self config input_data Hcont Hllm w0)
      as (w1 & Hx). by exists (max_loops_error self), w1.
  - by intros e ->.
  - by left.
  - exists w'. rewrite Hrun. f_equal. f_equal.
    destruct (last errors) as [e|] eqn:Hlast.
    + simpl. apply (proj1 (Forall_forall _ _) HP). apply last_Some in Hlast as [l' ->].
      apply elem_of_app. right. by apply list_elem_of_singleton.
    + apply last_None in Hlast. by subst.
Qed.


End Exhaustion.

(** * The statements at concrete inputs *)

Section Checks.

(** The parsers and helpers on sample text. *)
Example strip_sample : strip "  Paris
 " = "Paris".
Proof. reflexivity. Qed.

Example extract_final_answer_sample :
  _extract_final_answer "Thought: done
Answer:  Paris
" = "Paris".
Proof. reflexivity. Qed.

Example parse_xml_content_sample :
  parse_xml_content "<output><action> search </action></output>" "action" = Ok "search".
Proof. reflexivity. Qed.

Example parse_xml_content_unclosed :
  parse_xml_content "<action>search" "action" = Ok EmptyString.
Proof. reflexivity. Qed.

Example dict_union_sample :
  dict_union [("a", VInt 1); ("b", VInt 2)] [("b", VInt 3); ("c", VInt 4)]
  = [("a", VInt 1); ("b", VInt 3); ("c", VInt 4)].
Proof. reflexivity. Qed.

Example subclass_sample :
  subclass NodeFailedException NodeException = true
  ∧ subclass ActionParsingException RecoverableAgentException = true
  ∧ subclass AgentMaxLoopsReached RecoverableAgentException = false
  ∧ subclass JSONDecodeError ActionParsingException = false.
Proof. done. Qed.

(** A run that succeeds: start, execute-start, execute-end and end events. *)
Example run_echo :
  run (echo_node []) (VDict [("input", VStr "hi")]) (Some recording) None w0
  = (Ok {| status := SUCCESS; input := VDict [("input", VStr "hi")];
           output := VDict [("input", VStr "hi")] |},
     delivered [("recorder", on_node_start (VDict [("input", VStr "hi")]));
                ("recorder", on_node_execute_start (VDict [("input", VStr "hi")]));
                ("recorder", on_node_execute_end (VDict [("input", VStr "hi")]));
                ("recorder", on_node_end (VDict [("input", VStr "hi")]))]
       (journaled [JExecute (Ok (VDict [("input", VStr "hi")]))] w0)).
Proof. reflexivity. Qed.

(** Retry: the first attempt fails, the wait is [1 * 2 ^ 0], the second
    attempt succeeds and ends the loop. *)
Example flaky_node_retries :
  execute_with_retry flaky_node (VStr "x") None w0
  = (Ok (VStr "x"),
     {| deliveries := [];
        journal := [JExecute (Raise boom); JSleep (1 * 2 ^ 0)%Q; JExecute (Ok (VStr "x"))];
        calls := []; clock := (0 + 1 * 2 ^ 0)%Q; _intermediate_steps := ∅ |}).
Proof. reflexivity. Qed.

(** Timeout: the attempt overruns its deadline and counts as a failure. *)
Example slow_node_times_out :
  (run slow_node (VDict []) None None w0).1
  = Ok {| status := FAILURE; input := VDict [];
          output := format_value (mk_exc TimeoutError EmptyString) (Some false) |}.
Proof. reflexivity. Qed.

(** An exception out of the start handler is reified like any other. *)
Example start_handler_failure_is_reified :
  (run (echo_node []) (VDict []) (Some {| callbacks := [start_faulty_observer]; cache := None |})
     None w0).1
  = Ok {| status := FAILURE; input := VDict [];
          output := format_value (mk_exc (OtherException "RuntimeError") "start failed")
                      (Some false) |}.
Proof. reflexivity. Qed.

(** An input that is no mapping fails the merge before any handler runs. *)
Example run_none_input :
  run (echo_node []) VNone None None w0
  = (Raise (mk_exc TypeError "unsupported operand type(s) for |"), w0).
Proof. reflexivity. Qed.

End Checks.

(** ** C1 *)

(** An observer whose node-error hook raises: the exception of the hook
    leaves [run]. *)
Lemma run_error_handler_escapes :
  (execute_with_retry failing_node (VDict []) (Some faulty) w0).1 = Raise boom
  ∧ (run failing_node (VDict []) (Some faulty) None w0).1
    = Raise (mk_exc (OtherException "RuntimeError") "observer failed").
Proof. split; reflexivity. Qed.

Lemma run_reifies_errors_witness :
  ∃ w', run failing_node (VDict []) (Some recording) None w0
        = (Ok {| status := FAILURE; input := VDict [];
                 output := VDict [("content", VStr "boom"); ("recoverable", VBool false)] |}, w').
Proof.
  assert (∀ h e, h ∈ callbacks (ensure_config (Some recording)) →
                 on_event h (on_node_error e) = None) as Hq.
  { intros h e Hh. apply list_elem_of_singleton in Hh. subst h. reflexivity. }
  pose proof (run_reifies_errors failing_node [] (Some recording) None w0 eq_refl Hq) as Hrun.
  cbv zeta in Hrun.
  match type of Hrun with
  | match ?body with _ => _ end => destruct body as [[res0|e] w1] eqn:Hbody
  end; vm_compute in Hbody; [discriminate|].
  injection Hbody as <- <-. eexists. exact Hrun.
Defined.

(** An error that derives from [BaseException] alone is not reified
    either: it leaves the retry loop after one attempt and [run] past the
    error handlers. *)
Example run_system_exit_escapes :
  run exiting_node (VDict []) (Some recording) None w0
  = (Raise (mk_exc (BaseExceptionOnly "SystemExit") "0"),
     delivered [("recorder", on_node_start (VDict []));
                ("recorder", on_node_execute_start (VDict []))]
       (journaled [JExecute (Raise (mk_exc (BaseExceptionOnly "SystemExit") "0"))] w0)).
Proof. reflexivity. Qed.

(** ** C2 *)

(** The node fails on every attempt, yet the retry loop is cut short. With
    an observer whose execute-error hook raises, the loop ends in the first
    attempt with the exception of the hook: one attempt, no sleep. With a
    retry interval of zero, a backoff rate of [2 ^ 600] and three retries,
    the wait after the third attempt overflows ([backoff_rate ** 2]): three
    attempts instead of four, and an [OverflowError] instead of the error of
    the node. *)
Lemma retry_cut_short :
  (max_retries (error_handling failing_node) = 2%Z
   ∧ (∀ w, (execute failing_node (VDict []) execute_error_faulty w).1 = Raise boom)
   ∧ (execute_with_retry failing_node (VDict []) (Some execute_error_faulty) w0).1
     = Raise (mk_exc (OtherException "RuntimeError") "error hook failed")
   ∧ journal (execute_with_retry failing_node (VDict []) (Some execute_error_faulty) w0).2
     = [JExecute (Raise boom)])
  ∧ (max_retries (error_handling overflowing_node) = 3%Z
     ∧ (∀ w, (execute overflowing_node (VDict []) recording w).1 = Raise boom)
     ∧ (execute_with_retry overflowing_node (VDict []) (Some recording) w0).1
       = Raise (mk_exc (OtherException "OverflowError") "(34, 'Numerical result out of range')")
     ∧ attempts_in
         (journal (execute_with_retry overflowing_node (VDict []) (Some recording) w0).2) = 3).
Proof. repeat split; vm_compute; reflexivity. Qed.

Lemma execute_with_retry_exhausts_witness :
  ∃ errors e w',
    execute_with_retry failing_node (VDict []) (Some recording) w0 = (Raise e, w')
    ∧ length errors = 3
    ∧ last errors = Some e
    ∧ journal w' = journal w0 ++ retry_journal (fun attempt => 1 * 2 ^ attempt)%Q 0 errors.
Proof.
  apply (execute_with_retry_exhausts failing_node (VDict []) (Some recording) w0 2).
  - reflexivity.
  - intros attempt Hk.
    assert (attempt = 0 ∨ attempt = 1)%Z as [-> | ->] by lia; repeat split; vm_compute;
      discriminate.
  - intros h ev Hh. apply list_elem_of_singleton in Hh. subst h. reflexivity.
  - intros w1. exists boom, w1. split; reflexivity.
Defined.

(** The journal of that run: three attempts, waits of 1 and 2 seconds
    between them, none after the last. *)
Example failing_node_journal :
  journal (execute_with_retry failing_node (VDict []) (Some recording) w0).2
  = [JExecute (Raise boom); JSleep (1 * 2 ^ 0)%Q;
     JExecute (Raise boom); JSleep (1 * 2 ^ 1)%Q;
     JExecute (Raise boom)].
Proof. reflexivity. Qed.

(** ** C3 *)



(** ** C4 *)



(** ** C10 *)

Lemma run_result_input_witness :
  ∃ res w',
    run failing_node (VDict [("q", VInt 1)]) (Some recording)
      (Some [("upstream", result_of SUCCESS VNone)]) w0 = (Ok res, w')
    ∧ status res = FAILURE ∧ input res = VDict [("q", VInt 1)].
Proof.
  eexists _, _. split; [vm_compute; reflexivity|]. split; [reflexivity|].
  eapply (run_result_input failing_node (VDict [("q", VInt 1)]) (Some recording)
            (Some [("upstream", result_of SUCCESS VNone)]) w0).
  - vm_compute. reflexivity.
  - reflexivity.
Defined.

(** A recoverable tool error becomes the observation of the iteration. *)
Example recoverable_tool_error_is_observed :
  (react_iteration rate_limited_agent recording "q" 0 [] w0).1
  = Ok (Continue ["Action: search
Observation: RecoverableAgentException: rate limited
"]).
Proof. reflexivity. Qed.

(** ** C5 *)



(** The same exhaustion seen through [run]. *)
Example exploring_agent_run :
  (run (as_node exploring_agent) (VDict [("input", VStr "q")]) (Some recording) None w0).1
  = Ok {| status := FAILURE; input := VDict [("input", VStr "q")];
          output := format_value (max_loops_error exploring_agent) (Some false) |}.
Proof. reflexivity. Qed.

(** ** C6 *)



(** ** C7 *)

(** No "<answer>" tag, and an action input that is not valid JSON: an array
    nested two thousand deep and left open. The decoder gives up with
    [RecursionError], which is no [JSONDecodeError]: the parser passes it
    on, the iteration does not absorb it and the run is aborted. *)
Lemma xml_deep_nesting_aborts :
  inference_mode xml_deep_agent = XML
  ∧ contains "<answer>" deep_xml = false
  ∧ parse_xml_content deep_xml "output"
    = Ok ("<action>search</action><action_input>" +:+ brackets 2000 +:+ "</action_input>")
  ∧ parse_xml_content
      ("<action>search</action><action_input>" +:+ brackets 2000 +:+ "</action_input>")
      "action_input"
    = Ok (brackets 2000)
  ∧ (∃ e, json_loads (brackets 2000) = Raise e ∧ isinstance e JSONDecodeError = false
          ∧ (react_iteration xml_deep_agent recording "q" 0 [] w0).1 = Raise e
          ∧ (_run_agent xml_deep_agent recording "q" w0).1 = Raise e).
Proof.
  split; [reflexivity|]. split; [vm_compute; reflexivity|].
  split; [vm_compute; reflexivity|]. split; [vm_compute; reflexivity|].
  eexists. split; [vm_compute; reflexivity|]. repeat split; vm_compute; reflexivity.
Qed.

Lemma xml_malformed_action_input_absorbed_witness :
  ∃ prev' w',
    react_iteration xml_agent recording "q" 0 [] w0 = (Ok (Continue prev'), w')
    ∧ length prev' = 1
    ∧ is_Some (_intermediate_steps w' !! 0).
Proof.
  destruct (xml_malformed_action_input_absorbed xml_agent recording "q" 0 [] w0
              "<output><thought>search</thought><action>search</action><action_input>{oops</action_input></output>"
              "<thought>search</thought><action>search</action><action_input>{oops</action_input>"
              "{oops" (mk_exc JSONDecodeError "Expecting value"))
    as (e & _ & _ & _ & Hit & _).
  - reflexivity.
  - reflexivity.
  - reflexivity.
  - reflexivity.
  - reflexivity.
  - reflexivity.
  - reflexivity.
  - reflexivity.
  - eexists _, _. split; [exact Hit|]. split; [reflexivity|].
    simpl. rewrite lookup_insert_eq. by eexists.
Defined.

(** ** C8 *)



(** ** C9 *)



(** * Further properties of the engine *)

Local Open Scope nat_scope.

(** ** The retry wrapper, for every node and every observer *)

Lemma attempts_in_app l1 l2 : attempts_in (l1 ++ l2) = attempts_in l1 + attempts_in l2.
Proof. unfold attempts_in. by rewrite filter_app, length_app. Qed.

Lemma sleeps_in_app l1 l2 : sleeps_in (l1 ++ l2) = sleeps_in l1 + sleeps_in l2.
Proof. unfold sleeps_in. by rewrite filter_app, length_app. Qed.

Ltac count_entries :=
  rewrite ?attempts_in_app, ?sleeps_in_app; unfold attempts_in, sleeps_in in *; simpl in *; lia.

(** Emitting an event, whatever the handlers do, leaves the journal alone. *)
Lemma emit_journal cbs ev w : journal (emit cbs ev w).2 = journal w.
Proof.
  revert w. induction cbs as [|h cbs IH]; intros w; [done|].
  simpl. eff_unfold. unfold deliver. destruct (on_event h ev); [done|].
  by rewrite IH.
Qed.

Lemma bind_try_all {A B} (m : Eff A) (h : Exc → Eff A) (k : A → Eff B) w :
  (try_except_all m h ≫= k) w
  = match m w with
    | (Ok a, w') => k a w'
    | (Raise e, w') => if is_Exception e then (h e ≫= k) w' else (Raise e, w')
    end.
Proof.
  unfold try_except_all, mbind, Eff_bind, bind.
  destruct (m w) as [[a|e] w']; [done|]. by destruct (is_Exception e).
Qed.

Section RetryInvariant.
Context `{Externals}.

Lemma time_sleep_journal seconds w :
  ∃ entries, journal (time_sleep seconds w).2 = journal w ++ entries
             ∧ attempts_in entries = 0 ∧ sleeps_in entries ≤ 1.
Proof.
  unfold time_sleep.
  destruct seconds as [s| | |];
    try (exists []; simpl; rewrite app_nil_r; repeat split; try done;
         unfold sleeps_in; simpl; lia).
  destruct (sleep_refused s);
    [exists []; simpl; rewrite app_nil_r; repeat split; try done; unfold sleeps_in; simpl; lia|].
  destruct (Qle_bool 0 s).
  - exists [JSleep s]. repeat split; try done; unfold sleeps_in; simpl; lia.
  - exists []. simpl. rewrite app_nil_r. repeat split; try done; unfold sleeps_in; simpl; lia.
Qed.

(** Computing the wait and sleeping adds at most one sleep to the journal. *)
Lemma wait_journal (self : Node) attempt w :
  ∃ entries,
    journal ((seconds ← lift (time_to_sleep self attempt); time_sleep seconds) w).2
    = journal w ++ entries
    ∧ attempts_in entries = 0 ∧ sleeps_in entries ≤ 1.
Proof.
  rewrite bind_lift. destruct (time_to_sleep self attempt) as [seconds|e].
  - apply time_sleep_journal.
  - exists []. simpl. rewrite app_nil_r. repeat split; try done. unfold sleeps_in. simpl. lia.
Qed.

(** An attempt journals exactly what it hands back. *)
Lemma execute_with_timeout_journal (self : Node) t (input_data : PyVal) config w :
  ∃ observed w',
    execute_with_timeout self t input_data config w = (observed, w')
    ∧ journal w' = journal w ++ [JExecute observed].
Proof.
  unfold execute_with_timeout.
  destruct (execute self input_data config w) as [r w']. by eexists _, _.
Qed.

Lemma retry_attempts_bounded (self : Node) (input_data : PyVal) (config : RunnableConfig)
    (n_attempt : Z) (todo : nat) :
  ∀ (attempt : Z) (error : option Exc) w,
    (todo ≠ 0 → (attempt + Z.of_nat todo = n_attempt)%Z) →
    let r := retry_attempts self input_data config n_attempt todo attempt error w in
    ∃ entries,
      journal r.2 = journal w ++ entries
      ∧ attempts_in entries ≤ todo
      ∧ sleeps_in entries ≤ pred todo
      ∧ ∀ out, r.1 = Ok out → last entries = Some (JExecute (Ok out)).
Proof.
  induction todo as [|todo IH]; intros attempt error w Hn; cbv zeta.
  { exists []. simpl. rewrite app_nil_r. by destruct error. }
  specialize (Hn ltac:(done)).
  (* what follows a failed attempt: the sleep, if any, and the remaining attempts *)
  assert (∀ e w3,
            let r := ((if (attempt <? n_attempt - 1)%Z
                       then seconds ← lift (time_to_sleep self attempt); time_sleep seconds
                       else mret tt) ;;
                      retry_attempts self input_data config n_attempt todo (attempt + 1)%Z
                        (Some e)) w3 in
            ∃ entries,
              journal r.2 = journal w3 ++ entries
              ∧ attempts_in entries ≤ todo
              ∧ sleeps_in entries ≤ todo
              ∧ ∀ out, r.1 = Ok out → last entries = Some (JExecute (Ok out))) as Htail.
  { intros e w3. cbv zeta.
    destruct (attempt <? n_attempt - 1)%Z eqn:Hlast.
    - destruct (wait_journal self attempt w3) as (slept & Hj & Ha & Hs).
      destruct ((seconds ← lift (time_to_sleep self attempt); time_sleep seconds) w3)
        as [[[]|e1] w4] eqn:Hsl; simpl in Hj;
        [rewrite (bind_ok _ _ _ _ _ Hsl)|rewrite (bind_raise _ _ _ _ _ Hsl)].
      + destruct (IH (attempt + 1)%Z (Some e) w4) as (entries & Hj' & Ha' & Hs' & Hlast');
          [lia|].
        exists (slept ++ entries). rewrite Hj', Hj, app_assoc.
        split; [done|].
        split; [count_entries|]. split; [destruct todo; count_entries|].
        intros out Hout. rewrite last_app. by rewrite (Hlast' out Hout).
      + exists slept. simpl. split; [done|]. split; [count_entries|].
        split; [destruct todo; [lia|count_entries]|done].
    - erewrite bind_ok; [|reflexivity].
      destruct (IH (attempt + 1)%Z (Some e) w3) as (entries & Hj' & Ha' & Hs' & Hlast');
        [lia|].
      exists entries. split; [done|]. split; [done|]. split; [lia|done]. }
  cbn [retry_attempts].
  unfold run_on_node_execute_start, run_on_node_execute_end, run_on_node_execute_error.
  pose proof (emit_journal (callbacks config) (on_node_execute_start input_data) w) as Hs.
  destruct (emit (callbacks config) (on_node_execute_start input_data) w)
    as [[[]|e0] w1] eqn:Hstart; simpl in Hs; cycle 1.
  { rewrite (bind_raise _ _ _ _ _ Hstart). exists []. simpl. rewrite app_nil_r.
    split; [done|]. split; [count_entries|]. split; [count_entries|done]. }
  rewrite (bind_ok _ _ _ _ _ Hstart), bind_try_all.
  destruct (execute_with_timeout_journal self (timeout_seconds (error_handling self))
              input_data config w1) as (observed & w2 & Hx & Hj2).
  (* the error handlers, then the rest of the loop *)
  assert (∀ e w3, journal w3 = journal w2 →
            let r := ((emit (callbacks config) (on_node_execute_error e) ;;
                       mret (inr e : PyVal + Exc)) ≫=
                      (fun r : PyVal + Exc =>
                         match r with
                         | inl out => mret out
                         | inr e1 =>
                             (if (attempt <? n_attempt - 1)%Z
                              then seconds ← lift (time_to_sleep self attempt);
                                   time_sleep seconds
                              else mret tt) ;;
                             retry_attempts self input_data config n_attempt todo
                               (attempt + 1)%Z (Some e1)
                         end)) w3 in
            ∃ entries,
              journal r.2 = journal w ++ entries
              ∧ attempts_in entries ≤ S todo
              ∧ sleeps_in entries ≤ todo
              ∧ ∀ out, r.1 = Ok out → last entries = Some (JExecute (Ok out))) as Hfail.
  { intros e w3 Hw3. cbv zeta.
    pose proof (emit_journal (callbacks config) (on_node_execute_error e) w3) as He.
    destruct (emit (callbacks config) (on_node_execute_error e) w3)
      as [[[]|e1] w4] eqn:Herr; simpl in He.
    - erewrite bind_ok; [|by erewrite bind_ok].
      destruct (Htail e w4) as (entries & Hj' & Ha' & Hs' & Hlast').
      exists (JExecute observed :: entries).
      rewrite Hj', He, Hw3, Hj2, Hs, <- app_assoc. split; [done|].
      change (JExecute observed :: entries) with ([JExecute observed] ++ entries).
      split; [count_entries|]. split; [count_entries|].
      intros out Hout. rewrite last_app. by rewrite (Hlast' out Hout).
    - erewrite bind_raise; [|by erewrite bind_raise].
      exists [JExecute observed]. simpl. rewrite He, Hw3, Hj2, Hs.
      split; [done|]. split; [count_entries|]. split; [count_entries|done]. }
  destruct observed as [out|e].
  - rewrite (bind_ok _ _ _ _ _ Hx).
    pose proof (emit_journal (callbacks config) (on_node_execute_end out) w2) as He.
    destruct (emit (callbacks config) (on_node_execute_end out) w2)
      as [[[]|e1] w3] eqn:Hend; simpl in He.
    + rewrite (bind_ok _ _ _ _ _ Hend). exists [JExecute (Ok out)]. simpl. rewrite He, Hj2, Hs.
      split; [done|]. split; [count_entries|]. split; [count_entries|]. by intros out' [= <-].
    + rewrite (bind_raise _ _ _ _ _ Hend).
      destruct (is_Exception e1); [by apply Hfail|].
      exists [JExecute (Ok out)]. simpl. rewrite He, Hj2, Hs.
      split; [done|]. split; [count_entries|]. split; [count_entries|done].
  - rewrite (bind_raise _ _ _ _ _ Hx).
    destruct (is_Exception e); [by apply Hfail|].
    exists [JExecute (Raise e)]. simpl. rewrite Hj2, Hs.
    split; [done|]. split; [count_entries|]. split; [count_entries|done].
Qed.

(** X1. Whatever the node, its policy and its observers do, [execute_with_retry]
    makes at most [max_retries + 1] attempts, sleeps at most [max_retries]
    times and adds nothing else to the journal; when it returns a value,
    that value is what the last attempt handed back, with no sleep after
    it. *)
Theorem execute_with_retry_bounded (self : Node) (input_data : PyVal)
    (config : option RunnableConfig) (w : World) :
  let r := execute_with_retry self input_data config w in
  ∃ entries,
    journal r.2 = journal w ++ entries
    ∧ (Z.of_nat (attempts_in entries) <= Z.max 0 (max_retries (error_handling self) + 1))%Z
    ∧ (Z.of_nat (sleeps_in entries) <= Z.max 0 (max_retries (error_handling self)))%Z
    ∧ ∀ out, r.1 = Ok out → last entries = Some (JExecute (Ok out)).
Proof.
  cbv zeta. unfold execute_with_retry.
  destruct (retry_attempts_bounded self input_data (ensure_config config)
              (max_retries (error_handling self) + 1)
              (Z.to_nat (max_retries (error_handling self) + 1)) 0%Z None w)
    as (entries & Hj & Ha & Hs & Hlast); [lia|].
  exists entries. split; [done|]. split; [lia|]. split; [lia|done].
Qed.

End RetryInvariant.

(** ** The paths through [execute_with_retry] and [run] *)

Section RunPaths.
Context `{Externals}.

Lemma execute_with_timeout_returns (self : Node) (input_data : PyVal) config w r w1 :
  execute self input_data config w = (r, w1) →
  in_time (timeout_seconds (error_handling self)) w w1 →
  execute_with_timeout self (timeout_seconds (error_handling self)) input_data config w
  = (r, attempted r w w1).
Proof.
  intros Hx Ht. unfold execute_with_timeout. rewrite Hx. unfold in_time in Ht.
  destruct (timeout_seconds _); [rewrite Ht|]; done.
Qed.

(** One attempt whose [execute] returns in time, seen by observers that
    return: the loop body hands [out] on. *)
Lemma attempt_succeeds {A} (self : Node) (input_data : PyVal) (config : RunnableConfig)
    (k : PyVal + Exc → Eff A) w out w1 :
  let started := delivered (fan_out (callbacks config) (on_node_execute_start input_data)) w in
  quiet (callbacks config) →
  execute self input_data config started = (Ok out, w1) →
  in_time (timeout_seconds (error_handling self)) started w1 →
  (run_on_node_execute_start (callbacks config) input_data ;;
   r ← try_except_all
         (out ← execute_with_timeout self (timeout_seconds (error_handling self))
                  input_data config;
          run_on_node_execute_end (callbacks config) out ;;
          mret (inl out))
         (fun e => run_on_node_execute_error (callbacks config) e ;; mret (inr e));
   k r) w
  = k (inl out)
      (delivered (fan_out (callbacks config) (on_node_execute_end out))
         (attempted (Ok out) started w1)).
Proof.
  intros started Hq Hx Ht.
  unfold run_on_node_execute_start, run_on_node_execute_end.
  erewrite bind_ok; [|by apply emit_quiet]. rewrite bind_try_all.
  erewrite bind_ok; [|by apply execute_with_timeout_returns].
  erewrite bind_ok; [|by apply emit_quiet]. done.
Qed.

(** At whatever point of the retry loop an attempt's [execute] returns
    in time (and the observers return), the loop ends there: the value is
    returned at once, errors of earlier attempts are forgotten, the
    remaining attempts are not made and nothing is slept. *)
Theorem retry_returns_first_success (self : Node) (input_data : PyVal)
    (config : RunnableConfig) (n_attempt : Z) (todo : nat) (attempt : Z)
    (error : option Exc) (w w1 : World) (out : PyVal) :
  let started := delivered (fan_out (callbacks config) (on_node_execute_start input_data)) w in
  quiet (callbacks config) →
  execute self input_data config started = (Ok out, w1) →
  in_time (timeout_seconds (error_handling self)) started w1 →
  retry_attempts self input_data config n_attempt (S todo) attempt error w
  = (Ok out,
     delivered (fan_out (callbacks config) (on_node_execute_end out))
       (attempted (Ok out) started w1)).
Proof.
  intros started Hq Hx Ht. cbn [retry_attempts].
  by rewrite (attempt_succeeds self input_data config _ w out w1 Hq Hx Ht).
Qed.

(** With a negative [max_retries] the loop body never runs:
    [execute_with_retry] calls neither [execute] nor any handler and ends in
    [raise error] with [error] still [None], a [TypeError]. *)
Theorem negative_max_retries_never_executes (self : Node) (input_data : PyVal)
    (config : option RunnableConfig) (w : World) :
  (max_retries (error_handling self) < 0)%Z →
  execute_with_retry self input_data config w
  = (Raise (mk_exc TypeError "exceptions must derive from BaseException"), w).
Proof.
  intros Hneg. unfold execute_with_retry.
  by replace (Z.to_nat (max_retries (error_handling self) + 1)) with 0 by lia.
Qed.

(** [run] on a mapping input, past validation, with no input transformer
    and no cache in the way, seen by observers that return: the start
    event, the retried execution, then the output transformation and the
    end event, or the error event. *)
Lemma run_plain (self : Node) (d : PyDict) (config : option RunnableConfig)
    (dr : option (list (string * RunnableResult))) (w : World) :
  validate_depends self (default [] dr) = Ok tt →
  no_input_transformer self →
  uncached self (ensure_config config) →
  quiet (callbacks (ensure_config config)) →
  let cbs := callbacks (ensure_config config) in
  let merged := VDict (dict_union d (on_depends to_tracing_depend_dict (default [] dr))) in
  let failure e :=
    {| status := FAILURE; input := VDict d;
       output := format_value e (Some (isinstance e RecoverableAgentException)) |} in
  run self (VDict d) config dr w =
  match execute_with_retry self merged (Some (ensure_config config))
          (delivered (fan_out cbs (on_node_start merged)) w) with
  | (Ok out, w1) =>
      match transform_output self out with
      | Ok transformed_output =>
          (Ok {| status := SUCCESS; input := merged; output := transformed_output |},
           delivered (fan_out cbs (on_node_end transformed_output)) w1)
      | Raise e =>
          if is_Exception e
          then (Ok (failure e), delivered (fan_out cbs (on_node_error e)) w1)
          else (Raise e, w1)
      end
  | (Raise e, w1) =>
      if is_Exception e
      then (Ok (failure e), delivered (fan_out cbs (on_node_error e)) w1)
      else (Raise e, w1)
  end.
Proof.
  intros Hv Hnt Hc Hq cbs merged failure. unfold run. cbn [py_or]. rewrite bind_lift.
  fold merged. rewrite Hv. unfold try_except_all, run_body.
  unfold no_input_transformer in Hnt. rewrite Hnt.
  unfold run_on_node_start, run_on_node_end, run_on_node_error.
  erewrite bind_ok; [|reflexivity].
  erewrite bind_ok; [|by apply emit_quiet]. fold cbs.
  assert (cache_wf_entity (id self) (enabled (caching self)) (cache (ensure_config config))
            (fun x => execute_with_retry self x (Some (ensure_config config))) merged
          = (out ← execute_with_retry self merged (Some (ensure_config config));
             mret (out, false))) as ->.
  { unfold cache_wf_entity. destruct Hc as [-> | ->]; [|done]. by destruct (cache _). }
  destruct (execute_with_retry self merged (Some (ensure_config config))
              (delivered (fan_out cbs (on_node_start merged)) w)) as [[out|e] w1] eqn:Hrun.
  - erewrite bind_ok; [|by erewrite bind_ok]. cbv beta iota. rewrite bind_lift.
    destruct (transform_output self out) as [tout|e].
    + erewrite bind_ok; [|by apply emit_quiet]. done.
    + destruct (is_Exception e); [|done].
      erewrite bind_ok; [|by apply emit_quiet]. done.
  - erewrite bind_raise; [|by erewrite bind_raise].
    destruct (is_Exception e); [|done].
    erewrite bind_ok; [|by apply emit_quiet]. done.
Qed.

Lemma execute_with_retry_first_success (self : Node) (input_data : PyVal)
    (config : RunnableConfig) (w w1 : World) (out : PyVal) :
  let started := delivered (fan_out (callbacks config) (on_node_execute_start input_data)) w in
  (0 <= max_retries (error_handling self))%Z →
  quiet (callbacks config) →
  execute self input_data config started = (Ok out, w1) →
  in_time (timeout_seconds (error_handling self)) started w1 →
  execute_with_retry self input_data (Some config) w
  = (Ok out,
     delivered (fan_out (callbacks config) (on_node_execute_end out))
       (attempted (Ok out) started w1)).
Proof.
  intros started HN Hq Hx Ht. unfold execute_with_retry. cbn [ensure_config].
  destruct (Z.to_nat (max_retries (error_handling self) + 1)) as [|todo] eqn:Htodo; [lia|].
  cbn [retry_attempts].
  by rewrite (attempt_succeeds self input_data config _ w out w1 Hq Hx Ht).
Qed.

(** X2. The life cycle of a successful run (mapping input, validation
    passed, no input transformer, no cache hit possible, observers that
    return, first attempt returning in time): every handler receives start,
    execute-start, execute-end and end, in this order; one attempt is
    journalled; the result is SUCCESS with the merged input and the
    transformed output. *)
Theorem run_success_life_cycle (self : Node) (d : PyDict) (config : RunnableConfig)
    (dr : option (list (string * RunnableResult))) (w w1 : World) (out tout : PyVal) :
  let cbs := callbacks config in
  let merged := VDict (dict_union d (on_depends to_tracing_depend_dict (default [] dr))) in
  let started :=
    delivered (fan_out cbs (on_node_start merged) ++ fan_out cbs (on_node_execute_start merged)) w in
  validate_depends self (default [] dr) = Ok tt →
  no_input_transformer self →
  uncached self config →
  quiet cbs →
  (0 <= max_retries (error_handling self))%Z →
  execute self merged config started = (Ok out, w1) →
  in_time (timeout_seconds (error_handling self)) started w1 →
  transform_output self out = Ok tout →
  let w' := delivered (fan_out cbs (on_node_execute_end out) ++ fan_out cbs (on_node_end tout))
              (attempted (Ok out) started w1) in
  run self (VDict d) (Some config) dr w
  = (Ok {| status := SUCCESS; input := merged; output := tout |}, w')
  ∧ journal w' = journal w ++ [JExecute (Ok out)]
  ∧ (deliveries w1 = deliveries started →
     deliveries w' = deliveries w
       ++ fan_out cbs (on_node_start merged) ++ fan_out cbs (on_node_execute_start merged)
       ++ fan_out cbs (on_node_execute_end out) ++ fan_out cbs (on_node_end tout)).
Proof.
  intros cbs merged started Hv Hnt Hc Hq HN Hx Ht Hto w'.
  split; [|split].
  - rewrite (run_plain self d (Some config) dr w Hv Hnt Hc Hq). cbn [ensure_config].
    fold cbs merged. unfold started in *. rewrite <- delivered_app in Hx, Ht.
    rewrite (execute_with_retry_first_success self merged config _ w1 out HN Hq Hx Ht).
    rewrite Hto. unfold w', started. by rewrite <- !delivered_app.
  - unfold w'. simpl. done.
  - intros Hd. unfold w'. simpl. rewrite Hd. unfold started. simpl.
    by rewrite <- !app_assoc.
Qed.

(** X3. On a run with a mapping input, validation passed, no input
    transformer, no cache in the way, observers that return and a first
    attempt that returns in time: when the output transformation then raises
    an error that derives from [Exception], the run is a FAILURE carrying
    the caller's input: the node has executed once and is not retried, the
    handlers receive execute-end and then the error event, and the end event
    is never emitted. *)
Theorem output_transformer_failure_fails_run (self : Node) (d : PyDict)
    (config : RunnableConfig) (dr : option (list (string * RunnableResult)))
    (w w1 : World) (out : PyVal) (e : Exc) :
  let cbs := callbacks config in
  let merged := VDict (dict_union d (on_depends to_tracing_depend_dict (default [] dr))) in
  let started :=
    delivered (fan_out cbs (on_node_start merged) ++ fan_out cbs (on_node_execute_start merged)) w in
  validate_depends self (default [] dr) = Ok tt →
  no_input_transformer self →
  uncached self config →
  quiet cbs →
  (0 <= max_retries (error_handling self))%Z →
  execute self merged config started = (Ok out, w1) →
  in_time (timeout_seconds (error_handling self)) started w1 →
  transform_output self out = Raise e →
  is_Exception e = true →
  let w' := delivered (fan_out cbs (on_node_execute_end out) ++ fan_out cbs (on_node_error e))
              (attempted (Ok out) started w1) in
  run self (VDict d) (Some config) dr w
  = (Ok {| status := FAILURE; input := VDict d;
           output := format_value e (Some (isinstance e RecoverableAgentException)) |}, w')
  ∧ journal w' = journal w ++ [JExecute (Ok out)].
Proof.
  intros cbs merged started Hv Hnt Hc Hq HN Hx Ht Hto He w'. split; [|done].
  rewrite (run_plain self d (Some config) dr w Hv Hnt Hc Hq). cbn [ensure_config].
  fold cbs merged. unfold started in *. rewrite <- delivered_app in Hx, Ht.
  rewrite (execute_with_retry_first_success self merged config _ w1 out HN Hq Hx Ht).
  rewrite Hto, He. unfold w', started. by rewrite <- !delivered_app.
Qed.

(** When the input transformation fails with an error that derives from
    [Exception], the node is never started: no start event, no attempt, no
    cache access; the handlers receive the error event only and the result
    is a FAILURE carrying the caller's input. *)
Theorem input_transformer_failure_fails_run (self : Node) (d : PyDict)
    (config : option RunnableConfig) (dr : option (list (string * RunnableResult)))
    (w : World) (e : Exc) :
  let cbs := callbacks (ensure_config config) in
  validate_depends self (default [] dr) = Ok tt →
  ¬ no_input_transformer self →
  transform_input self
    (VDict (dict_union d (on_depends to_depend_dict (default [] dr)))) = Raise e →
  is_Exception e = true →
  (∀ h, h ∈ cbs → on_event h (on_node_error e) = None) →
  run self (VDict d) config dr w
  = (Ok {| status := FAILURE; input := VDict d;
           output := format_value e (Some (isinstance e RecoverableAgentException)) |},
     delivered (fan_out cbs (on_node_error e)) w).
Proof.
  intros cbs Hv Hnt Ht He Hq. unfold run. cbn [py_or]. rewrite bind_lift. rewrite Hv.
  unfold try_except_all, run_body. unfold no_input_transformer in Hnt.
  apply not_false_is_true in Hnt. rewrite Hnt. cbn [py_or].
  erewrite bind_raise; cycle 1.
  { rewrite bind_lift. unfold lift. by rewrite Ht. }
  rewrite He. unfold run_on_node_error. erewrite bind_ok; [done|].
  apply emit_returns. apply Forall_forall. intros h Hh. by apply Hq.
Qed.

End RunPaths.

(** ** Dependency validation *)

Section ValidationFacts.
Context `{Externals}.

(** Validation goes through the dependencies in declaration order. *)
Lemma validate_each_app deps1 deps2 dr :
  validate_each (deps1 ++ deps2) dr
  = match validate_each deps1 dr with
    | Ok _ => validate_each deps2 dr
    | Raise e => Raise e
    end.
Proof.
  induction deps1 as [|dep deps1 IH]; simpl; [done|].
  destruct (_validate_dependency_status dep dr) as [[]|e]; [|done].
  by destruct (if truthy_str (gate dep) then _ else _) as [[]|e].
Qed.

Lemma truthy_str_Some k : truthy_str (Some k) = true ↔ k ≠ EmptyString.
Proof.
  simpl. rewrite negb_true_iff. apply String.eqb_neq.
Qed.

(** The two checks of the loop body on one dependency. *)
Lemma dependency_checks_pass dep dr :
  validate_each [dep] dr = Ok tt ↔ dependency_passes dr dep.
Proof.
  simpl. unfold _validate_dependency_status, _validate_dependency_condition, dependency_passes.
  destruct (dict_get dr (node dep)) as [r|]; cycle 1.
  { split; [done|]. by intros (r & ? & _). }
  destruct (decide (status r = FAILURE)) as [Hf|Hf].
  { split; [done|]. intros (r' & [= <-] & Hs & _). congruence. }
  destruct (decide (status r = SKIP)) as [Hk|Hk].
  { split; [done|]. intros (r' & [= <-] & Hs & _). congruence. }
  assert (status r = SUCCESS) as Hs by by destruct (status r).
  destruct (gate dep) as [k|] eqn:Hg; cycle 1.
  { simpl. split; [|done]. intros _. exists r. by repeat split. }
  destruct (truthy_str (Some k)) eqn:Hk'; cycle 1.
  { split; [|done]. intros _. exists r. split; [done|]. split; [done|].
    intros k' out v [= <-] Hne. apply truthy_str_Some in Hne. congruence. }
  apply truthy_str_Some in Hk'.
  destruct (output r) as [| | | | |out|] eqn:Ho;
    try (split; [|done]; intros _; exists r; split; [done|]; split; [done|];
         intros; congruence).
  simpl. destruct (dict_get out k) as [v|] eqn:Hv; cycle 1.
  { split; [|done]. intros _. exists r. split; [done|]. split; [done|].
    intros k' out' v' ? _ ? ?. simplify_eq. congruence. }
  destruct (truthy v) eqn:Ht; cycle 1.
  { split; [|done]. intros _. exists r. split; [done|]. split; [done|].
    intros k' out' v' ? _ ? ? ?. simplify_eq. congruence. }
  split.
  - intros Hok. exists r. split; [done|]. split; [done|].
    intros k' out' v' ? _ ? ? _. simplify_eq. assert (v' = v) as -> by congruence.
    destruct v as [| | | | | |st i o]; try done. simpl in Hok.
    exists st, i, o. split; [done|]. by case_decide.
  - intros (r' & [= <-] & _ & Hgate).
    destruct (Hgate k out v) as (st & i & o & -> & Hst); try done.
    simpl. by case_decide.
Qed.

Lemma validate_each_cons dep deps dr :
  validate_each (dep :: deps) dr
  = match validate_each [dep] dr with
    | Ok _ => validate_each deps dr
    | Raise e => Raise e
    end.
Proof. apply (validate_each_app [dep] deps). Qed.

(** X6. Validation passes exactly when every declared dependency has a
    result with status SUCCESS and, where the dependency carries a non-empty
    option and that result's output is a mapping with a true field under it,
    the field is a result whose status is not FAILURE. *)
Theorem validate_depends_passes_iff (self : Node) (dr : list (string * RunnableResult)) :
  validate_depends self dr = Ok tt ↔ Forall (dependency_passes dr) (depends self).
Proof.
  unfold validate_depends. induction (depends self) as [|dep deps IH].
  - split; [by constructor|done].
  - rewrite validate_each_cons, Forall_cons, <- IH, <- dependency_checks_pass.
    destruct (validate_each [dep] dr) as [[]|e]; [|split; [done|by intros [? _]]].
    split; [done|by intros [_ ?]].
Qed.

(** X7. Validation stops at the first dependency, in declaration order,
    that does not pass: the exception is the one the checks of that
    dependency raise, whatever is declared after it. *)
Theorem validate_depends_stops_at_first_failure (self : Node)
    (dr : list (string * RunnableResult)) (passed : list NodeDependency)
    (dep : NodeDependency) (later : list NodeDependency) :
  depends self = passed ++ dep :: later →
  Forall (dependency_passes dr) passed →
  ¬ dependency_passes dr dep →
  ∃ e, validate_each [dep] dr = Raise e
       ∧ validate_depends self dr = Raise e
       ∧ (failed_depend e = Some dep ∨ exc_class e = AttributeError).
Proof.
  intros Hdeps Hpassed Hfails. unfold validate_depends. rewrite Hdeps, validate_each_app.
  assert (validate_each passed dr = Ok tt) as ->.
  { clear Hdeps. induction Hpassed as [|d ds Hd _ IH]; [done|].
    rewrite validate_each_cons. apply dependency_checks_pass in Hd. by rewrite Hd. }
  rewrite (validate_each_cons dep later).
  destruct (validate_each [dep] dr) as [[]|e] eqn:Hdep.
  { exfalso. apply Hfails. by apply dependency_checks_pass. }
  exists e. split; [done|]. split; [done|].
  destruct (validate_each_raises _ _ _ Hdep) as [[_ (d' & Hd' & Hin)]|Ha]; [left|by right].
  apply list_elem_of_singleton in Hin. by subst.
Qed.



(** A node that declares dependencies and is run without
    [depends_result] is always skipped, on account of its first dependency:
    the result carries the caller's input unmerged and the formatted
    "result missed" exception. *)
Theorem run_without_results_skips (self : Node) (d : PyDict)
    (config : option RunnableConfig) (w : World)
    (dep : NodeDependency) (later : list NodeDependency) :
  depends self = dep :: later →
  quiet (callbacks (ensure_config config)) →
  let e := {| exc_class := NodeException;
              exc_msg := "Dependency " +:+ node dep +:+ ": result missed";
              failed_depend := Some dep |} in
  run self (VDict d) config None w =
    (Ok {| status := SKIP; input := VDict d; output := format_value e None |},
     delivered (fan_out (callbacks (ensure_config config))
                  (on_node_skip (VDict [("failed_dependency", dependency_to_dict dep)])
                     (VDict d))) w).
Proof.
  intros Hdeps Hq e.
  pose proof (run_skip_path self d config [] w e dep) as Hrun.
  cbn [on_depends map dict_union foldl] in Hrun. apply Hrun; try done.
  - unfold validate_depends. by rewrite Hdeps.
  - apply Forall_forall. intros h Hh ev. by apply Hq.
Qed.

End ValidationFacts.

(** ** Callback emission *)

(** X5. An event goes to the handlers in registration order. The first
    handler whose hook raises ends the emission: the handlers before it and
    itself have received the event, the ones after it have not, and its
    exception is what the emission raises. When no hook raises every
    handler receives the event. *)
Theorem emit_stops_at_first_failure (cbs : list BaseCallbackHandler) (ev : Event) (w : World) :
  match list_find (fun h => is_Some (on_event h ev)) cbs with
  | Some (i, h) =>
      ∃ e, on_event h ev = Some e
           ∧ emit cbs ev w = (Raise e, delivered (fan_out (take (S i) cbs) ev) w)
  | None => emit cbs ev w = (Ok tt, delivered (fan_out cbs ev) w)
  end.
Proof.
  destruct (list_find _ cbs) as [[i h]|] eqn:Hfind.
  - apply list_find_Some in Hfind as (Hi & [e He] & Hbefore).
    exists e. split; [done|].
    rewrite <- (take_drop_middle cbs i h Hi) at 1.
    rewrite (take_S_r _ _ _ Hi).
    apply emit_raises; [|done].
    apply Forall_forall. intros h' Hh'.
    apply list_elem_of_lookup_1 in Hh' as [j Hj].
    apply lookup_take_Some in Hj as [Hj Hlt].
    specialize (Hbefore j h' Hj Hlt).
    destruct (on_event h' ev); [|done]. exfalso. apply Hbefore. by eexists.
  - apply list_find_None in Hfind. apply emit_returns.
    eapply Forall_impl; [exact Hfind|]. intros h Hh. simpl in Hh.
    destruct (on_event h ev); [|done]. exfalso. apply Hh. by eexists.
Qed.

Section EndHandler.
Context `{Externals}.

(** X4. The [try] block of an attempt covers the execute-end callback:
    when [execute] has returned [out] in time and an execute-end hook raises
    an [e] that derives from [Exception], the attempt counts as failed. The
    output is dropped, the execute-error hooks (which return) receive [e],
    and the loop goes on as after a failed [execute]: it computes the wait,
    sleeps and calls [execute] again when attempts remain, and raises [e]
    when this was the last one. *)
Theorem execute_end_failure_fails_attempt (self : Node) (input_data : PyVal)
    (config : RunnableConfig) (n_attempt : Z) (todo : nat) (attempt : Z)
    (error : option Exc) (w w1 : World) (out : PyVal)
    (cbs1 : list BaseCallbackHandler) (h : BaseCallbackHandler)
    (cbs2 : list BaseCallbackHandler) (e : Exc) :
  let cbs := callbacks config in
  let started := delivered (fan_out cbs (on_node_execute_start input_data)) w in
  cbs = cbs1 ++ h :: cbs2 →
  Forall (fun h => on_event h (on_node_execute_start input_data) = None) cbs →
  Forall (fun h => on_event h (on_node_execute_end out) = None) cbs1 →
  on_event h (on_node_execute_end out) = Some e →
  is_Exception e = true →
  Forall (fun h => on_event h (on_node_execute_error e) = None) cbs →
  execute self input_data config started = (Ok out, w1) →
  in_time (timeout_seconds (error_handling self)) started w1 →
  let w' := delivered (fan_out (cbs1 ++ [h]) (on_node_execute_end out)
                       ++ fan_out cbs (on_node_execute_error e))
              (attempted (Ok out) started w1) in
  retry_attempts self input_data config n_attempt (S todo) attempt error w
  = ((if (attempt <? n_attempt - 1)%Z
      then seconds ← lift (time_to_sleep self attempt); time_sleep seconds
      else mret tt) ;;
     retry_attempts self input_data config n_attempt todo (attempt + 1)%Z (Some e)) w'
  ∧ (todo = 0 → (attempt + 1 = n_attempt)%Z →
     retry_attempts self input_data config n_attempt (S todo) attempt error w = (Raise e, w')).
Proof.
  intros cbs started Hcbs Hstart Hend He Hclass Herr Hx Ht w'.
  assert (retry_attempts self input_data config n_attempt (S todo) attempt error w
          = ((if (attempt <? n_attempt - 1)%Z
              then seconds ← lift (time_to_sleep self attempt); time_sleep seconds
              else mret tt) ;;
             retry_attempts self input_data config n_attempt todo (attempt + 1)%Z (Some e)) w')
    as Hstep.
  { cbn [retry_attempts].
    unfold run_on_node_execute_start, run_on_node_execute_end, run_on_node_execute_error.
    fold cbs. erewrite bind_ok; [|by apply emit_returns]. fold started.
    rewrite bind_try_all.
    assert ((out ← execute_with_timeout self (timeout_seconds (error_handling self))
                     input_data config;
             emit cbs (on_node_execute_end out) ;; mret (inl out : PyVal + Exc)) started
            = (Raise e, delivered (fan_out (cbs1 ++ [h]) (on_node_execute_end out))
                          (attempted (Ok out) started w1))) as ->.
    { erewrite bind_ok; [|by apply execute_with_timeout_returns].
      erewrite bind_raise; [done|]. rewrite Hcbs at 1. by apply emit_raises. }
    rewrite Hclass. erewrite bind_ok; cycle 1.
    { erewrite bind_ok; [done|]. by apply emit_returns. }
    cbv beta iota. unfold w'. by rewrite <- delivered_app. }
  split; [exact Hstep|].
  intros -> Hlast. rewrite Hstep.
  assert ((attempt <? n_attempt - 1)%Z = false) as -> by lia.
  done.
Qed.

End EndHandler.

(** ** Declaring dependencies *)

Lemma forallb_is_node ns : forallb is_node (map ANode ns) = true.
Proof. by induction ns. Qed.

Lemma omap_new_dependency ns :
  omap new_dependency (map ANode ns) = map (fun n => {| node := id n; gate := None |}) ns.
Proof. induction ns as [|n ns IH]; [done|]. simpl. f_equal. exact IH. Qed.

Lemma all_nodes items :
  forallb is_node items = true → ∃ ns, items = map ANode ns.
Proof.
  induction items as [|a items IH]; [by exists []|].
  simpl. intros [Ha Hitems]%andb_prop. destruct (IH Hitems) as [ns ->].
  destruct a as [n| |]; try done. by exists (n :: ns).
Qed.

Lemma depends_on_nodes (self : Node) (n : Node) (ns : list Node) :
  depends_on self (AList (map ANode (n :: ns)))
  = Ok (with_depends self
          (depends self ++ map (fun n => {| node := id n; gate := None |}) (n :: ns))).
Proof.
  unfold depends_on. cbn [list_items].
  rewrite (forallb_is_node (n :: ns)), (omap_new_dependency (n :: ns)). done.
Qed.

(** X10. [depends_on] with a node or a non-empty list of nodes appends one
    dependency without option per node, in the order given, after the ones
    already declared, and leaves the node otherwise as it was; a single node
    counts as the list of that node, and a call with a list amounts to
    chained calls with its parts. *)
Theorem depends_on_appends (self : Node) (n : Node) (ns : list Node) :
  depends_on self (AList (map ANode (n :: ns)))
  = Ok (with_depends self
          (depends self ++ map (fun n => {| node := id n; gate := None |}) (n :: ns)))
  ∧ depends_on self (ANode n) = depends_on self (AList [ANode n])
  ∧ ∀ m ms,
      depends_on self (AList (map ANode ((n :: ns) ++ m :: ms)))
      = match depends_on self (AList (map ANode (n :: ns))) with
        | Ok self' => depends_on self' (AList (map ANode (m :: ms)))
        | Raise e => Raise e
        end.
Proof.
  split; [apply depends_on_nodes|]. split; [done|].
  intros m ms. rewrite (depends_on_nodes self n ns).
  change ((n :: ns) ++ m :: ms) with (n :: (ns ++ m :: ms)).
  rewrite !depends_on_nodes. unfold with_depends. cbn [depends id name error_handling
    input_transformer output_transformer caching streaming execute].
  by rewrite !map_cons, map_app, <- !app_assoc.
Qed.

(** X11. [depends_on] accepts exactly a node or a non-empty list of nodes.
    Everything else raises before anything is appended: [None] and the empty
    list a [ValueError], any other object and any list with an item that is
    no node a [TypeError]. *)
Theorem depends_on_accepts_iff (self : Node) (nodes : PyArg) :
  ((∃ self', depends_on self nodes = Ok self')
   ↔ (∃ n, nodes = ANode n) ∨ (∃ n ns, nodes = AList (map ANode (n :: ns))))
  ∧ (∀ e, depends_on self nodes = Raise e →
          (nodes = AVal VNone ∨ list_items nodes = Some [] → exc_class e = ValueError)
          ∧ (nodes ≠ AVal VNone → list_items nodes ≠ Some [] → exc_class e = TypeError)).
Proof.
  split.
  - split.
    + intros [self' Hok]. destruct nodes as [n|l|v].
      * left. by exists n.
      * right. unfold depends_on in Hok. cbn [list_items] in Hok.
        destruct (forallb is_node l) eqn:Hl; [|done].
        destruct (all_nodes l Hl) as [[|n ns] ->]; [done|]. by exists n, ns.
      * exfalso. unfold depends_on in Hok. destruct v as [| | | |[|x l]| |]; try done.
    + intros [[n ->]|(n & ns & ->)].
      * by eexists.
      * rewrite depends_on_nodes. by eexists.
  - intros e. destruct nodes as [n|l|v].
    + done.
    + unfold depends_on. cbn [list_items].
      destruct (forallb is_node l) eqn:Hl.
      * destruct l as [|a l]; [|done]. intros [= <-]. split; [done|]. by intros _ [].
      * intros [= <-]. split; [|done]. intros [?|[= ->]]; done.
    + unfold depends_on. destruct v as [| | | |[|x l]| |]; intros [= <-]; split; try done;
        try (by intros [?|?]); try (by intros []); by intros _ [].
Qed.

Section DependsOnRun.
Context `{Externals}.

Lemma validate_each_passes deps dr :
  Forall (dependency_passes dr) deps → validate_each deps dr = Ok tt.
Proof.
  induction 1 as [|d ds Hd _ IH]; [done|].
  rewrite validate_each_cons. apply dependency_checks_pass in Hd. by rewrite Hd.
Qed.

(** X12. What [depends_on] declares, [run] enforces: after
    [self.depends_on(m)], on a node whose earlier dependencies pass, [run]
    returns SKIP on account of [m] unless [depends_result] holds a SUCCESS
    result under [m]'s id (the observers return). *)
Theorem depends_on_gates_run (self m : Node) (d : PyDict) (config : option RunnableConfig)
    (dr : list (string * RunnableResult)) (w : World) :
  Forall (dependency_passes dr) (depends self) →
  (∀ r, dict_get dr (id m) = Some r → status r ≠ SUCCESS) →
  quiet (callbacks (ensure_config config)) →
  let edge := {| node := id m; gate := None |} in
  ∃ self' e,
    depends_on self (ANode m) = Ok self'
    ∧ failed_depend e = Some edge
    ∧ let merged := VDict (dict_union d (on_depends to_tracing_depend_dict dr)) in
      run self' (VDict d) config (Some dr) w =
        (Ok {| status := SKIP; input := merged; output := format_value e None |},
         delivered (fan_out (callbacks (ensure_config config))
                      (on_node_skip (VDict [("failed_dependency", dependency_to_dict edge)])
                         merged)) w).
Proof.
  intros Hpass Hm Hq edge.
  destruct (_validate_dependency_status edge dr) as [[]|e] eqn:Hstatus.
  { exfalso. unfold _validate_dependency_status in Hstatus. cbn [node edge] in Hstatus.
    destruct (dict_get dr (id m)) as [r|] eqn:Hr; [|done].
    apply (Hm r eq_refl). repeat case_decide; try done. by destruct (status r). }
  destruct (status_check_raises _ _ _ Hstatus) as [Hi Hf].
  eexists _, e. split; [reflexivity|]. split; [done|].
  intros merged. apply run_skip_path; try done.
  - unfold validate_depends, with_depends. cbn [depends omap]. rewrite validate_each_app.
    rewrite (validate_each_passes _ _ Hpass). simpl. fold edge. by rewrite Hstatus.
  - apply Forall_forall. intros h Hh ev. by apply Hq.
Qed.

End DependsOnRun.

(** ** Input streaming *)

Section InputStreamingFacts.
Context {StreamingEventMessage : Type}.
Variable model_validate_json : string → option StreamingEventMessage.
Variable event_of : StreamingEventMessage → string.
Variable float_str : option Q → string.

Local Abbreviation poll' := (poll model_validate_json event_of float_str).
Local Abbreviation accepts' := (accepts model_validate_json event_of).

Lemma queue_get_item streaming data rest :
  timeout_accepted streaming →
  queue_get (data :: rest) (timeout streaming) = Item data rest.
Proof.
  unfold timeout_accepted, queue_get. destruct (timeout streaming) as [t|]; [|done].
  by intros ->.
Qed.

Lemma poll_skips streaming event skipped queue taken :
  timeout_accepted streaming →
  Forall (fun data => accepts' event data = None) skipped →
  (∀ n, n < length skipped → is_set (input_queue_done_event streaming) (taken + n) = false) →
  poll' streaming event taken (skipped ++ queue)
  = poll' streaming event (taken + length skipped) queue.
Proof.
  intros Htime Hskip. revert taken.
  induction Hskip as [|data skipped Hdata _ IH]; intros taken Hdone.
  { simpl. by rewrite Nat.add_0_r. }
  cbn [app poll].
  assert (is_set (input_queue_done_event streaming) taken = false) as ->.
  { rewrite <- (Nat.add_0_r taken). apply Hdone. simpl. lia. }
  rewrite queue_get_item, Hdata by done. rewrite IH.
  - f_equal. simpl. lia.
  - intros n Hn. replace (S taken + n) with (taken + S n) by lia. apply Hdone. simpl. lia.
Qed.

Lemma poll_returns streaming event taken data queue event_msg :
  timeout_accepted streaming →
  is_set (input_queue_done_event streaming) taken = false →
  accepts' event data = Some event_msg →
  poll' streaming event taken (data :: queue) = Returned (Ok event_msg) queue.
Proof.
  intros Htime Hdone Hdata. cbn [poll]. by rewrite Hdone, queue_get_item, Hdata.
Qed.

(** What a returned message tells about the queue. *)
Lemma poll_sound streaming event queue :
  ∀ taken event_msg rest,
    poll' streaming event taken queue = Returned (Ok event_msg) rest →
    timeout_accepted streaming
    ∧ ∃ skipped data,
        queue = skipped ++ data :: rest
        ∧ Forall (fun data => accepts' event data = None) skipped
        ∧ accepts' event data = Some event_msg
        ∧ ∀ n, n ≤ length skipped →
               is_set (input_queue_done_event streaming) (taken + n) = false.
Proof.
  induction queue as [|data queue IH]; intros taken event_msg rest; cbn [poll].
  { destruct (is_set _ taken); [done|]. by destruct (queue_get _ _). }
  destruct (is_set _ taken) eqn:Hdone; [done|].
  destruct (queue_get (data :: queue) (timeout streaming)) as [d r| | |] eqn:Hget; try done.
  assert (timeout_accepted streaming) as Htime.
  { unfold timeout_accepted, queue_get in *. destruct (timeout streaming) as [t|]; [|done].
    by destruct (Qle_bool 0 t). }
  destruct (accepts' event data) as [m|] eqn:Hdata.
  - intros [= <- <-]. split; [done|]. exists [], data. split; [done|].
    split; [by constructor|]. split; [done|].
    intros n Hn. simpl in Hn. replace n with 0 by lia. by rewrite Nat.add_0_r.
  - intros Hrest. destruct (IH _ _ _ Hrest) as (_ & skipped & data0 & -> & Hs & Ha & Hd).
    split; [done|]. exists (data :: skipped), data0. split; [done|].
    split; [by constructor|]. split; [done|].
    intros [|n] Hn; [by rewrite Nat.add_0_r|].
    replace (taken + S n) with (S taken + n) by lia. apply Hd. simpl in Hn. lia.
Qed.

(** X13. [get_input_streaming_event] returns a message exactly when input
    streaming is enabled in the configuration in use (the override for this
    node when it has one, the node's own otherwise), the timeout is none or
    not negative, and the queue yields a message that validates and carries
    the awaited event: it returns the first such message, having taken and
    dropped every message before it, and leaves the rest in the queue (the
    done event not being set meanwhile). In particular it never returns a
    message of another event. *)
Theorem get_input_streaming_event_returns_iff (self_id : string)
    (self_streaming : InputStreamingConfig) (event : option string)
    (nodes_override : list (string * option InputStreamingConfig))
    (event_msg : StreamingEventMessage) (rest : list string) :
  let streaming := default self_streaming (mjoin (dict_get nodes_override self_id)) in
  get_input_streaming_event model_validate_json event_of float_str
    self_id self_streaming event (Some nodes_override) = Returned (Ok event_msg) rest
  ↔ input_streaming_enabled streaming = true
    ∧ timeout_accepted streaming
    ∧ ∃ skipped data,
        input_queue streaming = Some (skipped ++ data :: rest)
        ∧ Forall (fun data => accepts' event data = None) skipped
        ∧ accepts' event data = Some event_msg
        ∧ ∀ n, n ≤ length skipped → is_set (input_queue_done_event streaming) n = false.
Proof.
  intros streaming. unfold get_input_streaming_event. fold streaming.
  destruct (input_streaming_enabled streaming); cycle 1.
  { split; [done|]. by intros [? _]. }
  destruct (input_queue streaming) as [queue|]; cycle 1.
  { split; [by destruct (is_set _ 0)|]. by intros (_ & _ & ? & ? & ? & _). }
  split.
  - intros Hpoll. split; [done|].
    destruct (poll_sound _ _ _ _ _ _ Hpoll) as (Htime & skipped & data & -> & Hrest).
    split; [done|]. by exists skipped, data.
  - intros (_ & Htime & skipped & data & [= ->] & Hskip & Hdata & Hdone).
    rewrite poll_skips; [|done|done|intros n Hn; apply Hdone; lia].
    apply poll_returns; [done| |done]. apply Hdone. simpl. lia.
Qed.

(** X14. With input streaming enabled and a queue that yields no message
    that validates and carries the awaited event, the call takes every
    message and drops it; then, with a timeout, it ends in the [ValueError]
    of the timeout, and without one it waits for ever (the done event not
    being set meanwhile). A negative timeout is refused by the first [get].
    With input streaming disabled the call raises a [ValueError] without
    touching the queue. *)
Theorem get_input_streaming_event_times_out (self_id : string)
    (self_streaming : InputStreamingConfig) (event : option string)
    (nodes_override : list (string * option InputStreamingConfig)) (queue : list string) :
  let streaming := default self_streaming (mjoin (dict_get nodes_override self_id)) in
  let result := get_input_streaming_event model_validate_json event_of float_str
                  self_id self_streaming event (Some nodes_override) in
  input_queue streaming = Some queue →
  (input_streaming_enabled streaming = true →
   Forall (fun data => accepts' event data = None) queue →
   (∀ n, n ≤ length queue → is_set (input_queue_done_event streaming) n = false) →
   result = match timeout streaming with
            | Some t =>
                if Qle_bool 0 t
                then Returned
                       (Raise (mk_exc ValueError
                                 ("Input streaming timeout: " +:+ float_str (timeout streaming)
                                  +:+ " exceeded."))) []
                else Returned
                       (Raise (mk_exc ValueError "'timeout' must be a non-negative number"))
                       queue
            | None => Blocked
            end)
  ∧ (input_streaming_enabled streaming = false →
     result = Returned (Raise (mk_exc ValueError "Input streaming is not enabled.")) queue).
Proof.
  intros streaming result Hqueue. unfold result, get_input_streaming_event. fold streaming.
  rewrite Hqueue. split; [|by intros ->].
  intros -> Hnone Hdone.
  destruct (timeout streaming) as [t|] eqn:Ht; [destruct (Qle_bool 0 t) eqn:Hle|].
  - rewrite <- (app_nil_r queue) at 1.
    rewrite poll_skips; [|by unfold timeout_accepted; rewrite Ht|done|
                          intros n Hn; apply Hdone; lia].
    cbn [poll]. rewrite Hdone by lia. unfold queue_get. by rewrite Ht, Hle.
  - destruct queue as [|data queue]; cbn [poll]; rewrite (Hdone 0) by lia;
      unfold queue_get; by rewrite Ht, Hle.
  - rewrite <- (app_nil_r queue) at 1.
    rewrite poll_skips; [|by unfold timeout_accepted; rewrite Ht|done|
                          intros n Hn; apply Hdone; lia].
    cbn [poll]. rewrite Hdone by lia. unfold queue_get. by rewrite Ht.
Qed.

End InputStreamingFacts.

(** * Further properties of the reasoning loop *)

#[local] Instance calls_kept_refl : Reflexive calls_kept.
Proof. by intros w. Qed.

#[local] Instance calls_kept_trans : Transitive calls_kept.
Proof. intros w1 w2 w3 H12 H23. unfold calls_kept in *. congruence. Qed.

(** The world a sequence leaves is related to the one its first part
    leaves. *)
Lemma respects_after {A B} (R : World → World → Prop) `{!Reflexive R} (m : Eff A)
    (k : A → Eff B) w :
  (∀ a, respects R (k a)) → R (m w).2 ((m ≫= k) w).2.
Proof.
  intros Hk. unfold mbind, Eff_bind, bind.
  destruct (m w) as [[a|e] w1]; simpl; [apply Hk|reflexivity].
Qed.

Lemma bind_try {A B} (m : Eff A) c (h : Exc → Eff A) (k : A → Eff B) w :
  (try_except m c h ≫= k) w
  = match m w with
    | (Ok a, w') => k a w'
    | (Raise e, w') => if isinstance e c then (h e ≫= k) w' else (Raise e, w')
    end.
Proof.
  unfold try_except, mbind, Eff_bind, bind. destruct (m w) as [[a|e] w']; [done|].
  by destruct (isinstance e c).
Qed.

Lemma not_recoverable_not_parsing e :
  isinstance e RecoverableAgentException = false →
  isinstance e ActionParsingException = false.
Proof. unfold isinstance. by destruct (exc_class e). Qed.

Section CallFacts.
Context `{Externals}.
Variables (self : ReActAgent) (config : RunnableConfig).

Lemma kept_emit cbs ev : respects calls_kept (emit cbs ev).
Proof. apply respects_emit; [apply _..|]. by intros h w. Qed.

Lemma kept_set_steps f : respects calls_kept (set_steps f).
Proof. by intros w. Qed.

Lemma kept_get_step k : respects calls_kept (get_step k).
Proof. intros w. unfold get_step. by destruct (_ !! k). Qed.

Lemma kept_tracing_intermediate k p o : respects calls_kept (tracing_intermediate k p o).
Proof. apply kept_set_steps. Qed.

Lemma kept_stream k :
  respects calls_kept
    (if streaming_enabled (agent_streaming self)
     then s' ← get_step k; run_on_node_execute_stream (callbacks config) (step_dump s')
     else mret tt).
Proof.
  destruct (streaming_enabled _); [|apply respects_ret; apply _].
  apply respects_bind; [apply _|apply kept_get_step|]. intros s. apply kept_emit.
Qed.

Lemma kept_tracing_final k answer : respects calls_kept (tracing_final self k answer config).
Proof.
  unfold tracing_final. apply respects_bind; [apply _|apply kept_get_step|]. intros s.
  apply respects_bind; [apply _|apply kept_set_steps|]. intros _. apply kept_stream.
Qed.

Ltac kept_tail :=
  repeat first
    [ apply respects_ret; apply _
    | apply respects_lift; apply _
    | apply kept_tracing_final
    | apply kept_tracing_intermediate
    | apply respects_bind; [apply _| |intros ?]
    | case_match ].

(** Decoding a response asks nothing of the model or the tools. *)
Lemma kept_parse_response k p res : respects calls_kept (parse_response self config k p res).
Proof. unfold parse_response. destruct (inference_mode self); kept_tail. Qed.

(** Dispatching an action runs at most one tool, the one [_get_tool]
    resolves, on the decoded input. *)
Lemma dispatch_calls k out action action_input w :
  ∃ l, calls (dispatch self config k out action action_input w).2 = calls w ++ l
       ∧ (l = [] ∨ ∃ tool, l = [CTool (VStr tool) action_input]
                           ∧ _get_tool self action = Ok tool).
Proof.
  unfold dispatch. destruct (truthy action).
  2: { exists []. rewrite app_nil_r. by split; [|left]. }
  destruct (tools self) as [|t ts].
  { exists []. rewrite app_nil_r. by split; [|left]. }
  match goal with
  | |- context [(?m ≫= ?k) w] =>
      assert (calls_kept (m w).2 ((m ≫= k) w).2) as Hrest
  end.
  { apply respects_after; [apply _|]. intros tool_result.
    apply respects_bind; [apply _|apply kept_get_step|]. intros s.
    apply respects_bind; [apply _|apply kept_set_steps|]. intros _.
    apply respects_bind; [apply _|apply kept_stream|]. intros _.
    apply respects_ret; apply _. }
  unfold calls_kept in Hrest. rewrite Hrest. clear Hrest.
  unfold try_except. rewrite bind_lift.
  destruct (_get_tool self action) as [tool|e].
  - exists [CTool (VStr tool) action_input]. split; [|right; by exists tool].
    unfold _run_tool, note. eff_unfold. simpl.
    destruct (run_tool self _ tool action_input) as [v|e]; [done|].
    by destruct (isinstance e RecoverableAgentException).
  - exists []. rewrite app_nil_r. split; [|by left].
    by destruct (isinstance e RecoverableAgentException).
Qed.

(** An iteration asks the model once, with the prompt generated from the
    context it was given, and then runs at most one tool. *)
Lemma iteration_calls user_request k prev w :
  ∃ l, calls (react_iteration self config user_request k prev w).2
       = calls w ++ CModel (prompt_of self user_request prev) :: l
     ∧ (l = [] ∨ ∃ tool action_input, l = [CTool (VStr tool) action_input]).
Proof.
  rewrite react_iteration_world.
  set (p := prompt_of self user_request prev).
  set (res := llm self (calls w) p).
  set (w1 := called [CModel p] w).
  assert (calls w1 = calls w ++ [CModel p]) as Hw1 by done.
  unfold iteration_tail. destruct (negb _).
  { exists []. split; [|by left]. rewrite bind_lift.
    by destruct (get_content (llm_output res)). }
  pose proof (kept_parse_response k p res w1) as Hparse. unfold calls_kept in Hparse.
  unfold mbind at 1, Eff_bind at 1, bind at 1.
  destruct (parse_response self config k p res w1) as [[parsed|e] w2]; simpl in Hparse.
  2: { exists []. split; [|by left]. simpl. by rewrite Hparse. }
  destruct parsed as [answer|out action action_input].
  { exists []. split; [|by left]. simpl. by rewrite Hparse. }
  destruct (dispatch_calls k out action action_input w2) as (l & Hl & Hshape).
  exists l. split.
  - assert (calls_kept (dispatch self config k out action action_input w2).2
              ((dispatch self config k out action action_input ≫=
                 (fun text => mret (Continue (prev ++ [text])))) w2).2) as Hk.
    { apply respects_after; [apply _|]. intros text. apply respects_ret; apply _. }
    unfold calls_kept in Hk. rewrite Hk, Hl, Hparse. by rewrite <- app_assoc.
  - destruct Hshape as [->|(tool & -> & _)]; [by left|right; by eexists _, _].
Qed.

Lemma react_loop_calls user_request todo :
  ∀ k prev w,
    let w' := (react_loop self config user_request todo k prev w).2 in
    model_calls (calls w') ≤ model_calls (calls w) + todo
    ∧ tool_runs (calls w') + model_calls (calls w) ≤ tool_runs (calls w) + model_calls (calls w').
Proof.
  induction todo as [|todo IH]; intros k prev w; cbv zeta; [simpl; lia|].
  rewrite react_loop_step.
  destruct (iteration_calls user_request k prev w) as (l & Hcalls & Hshape).
  assert (model_calls (calls (react_iteration self config user_request k prev w).2)
          = S (model_calls (calls w))
          ∧ tool_runs (calls (react_iteration self config user_request k prev w).2)
            ≤ S (tool_runs (calls w))) as [Hm Ht].
  { rewrite Hcalls, model_calls_app, tool_runs_app.
    destruct Hshape as [->|(tool & action_input & ->)];
      unfold model_calls at 2, tool_runs at 2; simpl; lia. }
  destruct (react_iteration self config user_request k prev w) as [[[prev'|answer]|e] w1];
    simpl in *; try lia.
  destruct (IH (S k) prev' w1) as [Hm' Ht']. lia.
Qed.

(** X15. A run of the loop asks the model at most [max_loops] times and
    runs at most one tool per model call, whatever the model, the tools and
    the observers do and however the run ends. *)
Theorem run_agent_call_budget (user_request : string) (w : World) :
  let w' := (_run_agent self config user_request w).2 in
  model_calls (calls w') ≤ model_calls (calls w) + max_loops self
  ∧ tool_runs (calls w') + model_calls (calls w) ≤ tool_runs (calls w) + model_calls (calls w').
Proof. apply react_loop_calls. Qed.

(** X16. An iteration that lets the loop go on has appended exactly one
    entry to the context it was given, whichever way it went on: the failed
    model call, the absorbed parsing error, the ignored or the dispatched
    action. *)
Theorem iteration_appends_one_entry (user_request : string) (k : nat) (prev prev' : list string)
    (w w' : World) :
  react_iteration self config user_request k prev w = (Ok (Continue prev'), w') →
  ∃ entry, prev' = prev ++ [entry].
Proof.
  rewrite react_iteration_eq. cbv zeta. unfold iteration_tail.
  set (p := prompt_of self user_request prev).
  set (res := llm self (calls w) p).
  set (w1 := called [CModel p] w).
  destruct (negb _).
  { rewrite bind_lift. destruct (get_content (llm_output res)) as [text|e].
    - intros [= <- <-]. by eexists.
    - simpl. destruct (isinstance e ActionParsingException); intros; simplify_eq.
      by eexists. }
  unfold mbind at 1, Eff_bind at 1, bind at 1.
  destruct (parse_response self config k p res w1) as [[parsed|e] w2].
  2: { destruct (isinstance e ActionParsingException); intros; simplify_eq. by eexists. }
  destruct parsed as [answer|out action action_input]; [done|].
  unfold mbind, Eff_bind, bind.
  destruct (dispatch self config k out action action_input w2) as [[text|e] w3].
  - intros [= <- <-]. by eexists.
  - destruct (isinstance e ActionParsingException); intros; simplify_eq. by eexists.
Qed.

(** A failed model call is not decoded: in every mode the iteration
    files no step, runs no tool, pushes the [content] of the failed result
    onto the context and lets the loop go on. *)
Theorem failed_model_call_continues (user_request : string) (k : nat) (prev : list string)
    (w : World) (text : string) :
  let p := prompt_of self user_request prev in
  llm_status (llm self (calls w) p) ≠ SUCCESS →
  content (llm_output (llm self (calls w) p)) = Some text →
  react_iteration self config user_request k prev w
  = (Ok (Continue (prev ++ [text])), called [CModel p] w)
  ∧ ∀ todo, react_loop self config user_request (S todo) k prev w
            = react_loop self config user_request todo (S k) (prev ++ [text])
                (called [CModel p] w).
Proof.
  intros p Hs Hc.
  assert (react_iteration self config user_request k prev w
          = (Ok (Continue (prev ++ [text])), called [CModel p] w)) as Hit.
  { rewrite react_iteration_eq. fold p. cbv zeta. unfold iteration_tail.
    rewrite bool_decide_eq_false_2 by done. cbn [negb]. rewrite bind_lift.
    unfold get_content. by rewrite Hc. }
  split; [done|]. intros todo. by rewrite react_loop_step, Hit.
Qed.

(** X17. In the two JSON modes a successful response on whose payload
    [json.loads] raises ends the run: the error, [JSONDecodeError] or any
    other, is no [ActionParsingException], so the iteration does not absorb
    it; no step has been filed and no tool run, and the loop raises it at
    once, whatever number of iterations is left. *)
Theorem undecodable_json_aborts_run (user_request : string) (k : nat) (prev : list string)
    (w : World) (text : string) (e : Exc) :
  let p := prompt_of self user_request prev in
  let res := llm self (calls w) p in
  llm_status res = SUCCESS →
  (inference_mode self = FUNCTION_CALLING
   ∧ ∃ fname others, tool_calls (llm_output res) = (fname, text) :: others)
  ∨ (inference_mode self = STRUCTURED_OUTPUT ∧ content (llm_output res) = Some text) →
  json_loads text = Raise e →
  isinstance e ActionParsingException = false
  ∧ react_iteration self config user_request k prev w = (Raise e, called [CModel p] w)
  ∧ ∀ todo, react_loop self config user_request (S todo) k prev w
            = (Raise e, called [CModel p] w).
Proof.
  intros p res Hs Hmode Hjson.
  pose proof (json_loads_foreign _ _ Hjson) as Hforeign. split; [done|].
  assert (react_iteration self config user_request k prev w = (Raise e, called [CModel p] w))
    as Hit.
  { rewrite react_iteration_eq. cbv zeta. fold p. fold res. unfold iteration_tail.
    rewrite Hs. simpl.
    erewrite bind_raise; cycle 1.
    { unfold parse_response.
      destruct Hmode as [[-> (fname & others & Hc)]|[-> Hc]]; rewrite bind_lift.
      - unfold first_tool_call. rewrite Hc, bind_lift. cbn [snd]. by rewrite Hjson.
      - unfold get_content. rewrite Hc, bind_lift. by rewrite Hjson. }
    by rewrite Hforeign. }
  split; [done|]. intros todo. by rewrite react_loop_step, Hit.
Qed.

(** X18. In STRUCTURED_OUTPUT mode a successful response whose [action]
    is "finish" ends the loop on that iteration: the loop returns the
    [action_input] of the response as it was decoded, the iteration runs no
    tool and its step carries the final answer (the observers of a
    streaming agent return). *)
Theorem structured_output_finish_terminates (user_request : string) (k : nat)
    (prev : list string) (w : World) (text : string) (args : PyDict) (answer : PyVal) :
  inference_mode self = STRUCTURED_OUTPUT →
  let p := prompt_of self user_request prev in
  llm_status (llm self (calls w) p) = SUCCESS →
  content (llm_output (llm self (calls w) p)) = Some text →
  json_loads text = Ok (VDict args) →
  dict_get args "action" = Some (VStr "finish") →
  dict_get args "action_input" = Some answer →
  (streaming_enabled (agent_streaming self) = true → quiet (callbacks config)) →
  let w' := answered self config k p (json_dumps (VDict args)) answer w in
  react_iteration self config user_request k prev w = (Ok (Return answer), w')
  ∧ (∀ todo, react_loop self config user_request (S todo) k prev w = (Ok answer, w'))
  ∧ calls w' = calls w ++ [CModel p].
Proof.
  intros Hmode p Hs Hc Hjson Haction Hinput Hq w'.
  assert (react_iteration self config user_request k prev w = (Ok (Return answer), w')) as Hit.
  { rewrite react_iteration_eq. fold p. cbv zeta. unfold iteration_tail. rewrite Hs. simpl.
    erewrite bind_ok; cycle 1.
    { unfold parse_response. rewrite Hmode, bind_lift. unfold get_content. rewrite Hc.
      rewrite bind_lift, Hjson, bind_lift. unfold subscript. rewrite Haction, bind_lift, Hinput.
      erewrite bind_ok; [|apply tracing_intermediate_eq].
      cbn [py_eq_str]. replace (String.eqb "finish" "finish") with true by done.
      rewrite bind_lift.
      pose proof (file_final_answer self config k p (json_dumps (VDict args)) answer
                    (called [CModel p] w) Hq) as Hfile.
      erewrite bind_ok in Hfile; [|apply tracing_intermediate_eq]. exact Hfile. }
    done. }
  split; [done|]. split; [|done].
  intros todo. by rewrite react_loop_step, Hit.
Qed.

(** X19. An action is dispatched only when it is true and the agent has
    tools: with no tools registered, or with an empty action, a decoded
    DEFAULT-mode response runs nothing and resolves no tool name; the raw
    output is the entry pushed onto the context and the step stays as
    filed. *)
Theorem undispatched_action_is_kept (user_request : string) (k : nat) (prev : list string)
    (w : World) (text : string) (action action_input : PyVal) :
  inference_mode self = DEFAULT →
  let p := prompt_of self user_request prev in
  llm_status (llm self (calls w) p) = SUCCESS →
  content (llm_output (llm self (calls w) p)) = Some text →
  contains "Answer:" text = false →
  _parse_action text = Ok (action, action_input) →
  tools self = [] ∨ truthy action = false →
  react_iteration self config user_request k prev w
  = (Ok (Continue (prev ++ [text])), filed k p text w).
Proof.
  intros Hmode p Hs Hc Hans Hparse Hno.
  rewrite react_iteration_eq. fold p. cbv zeta. unfold iteration_tail. rewrite Hs. simpl.
  erewrite bind_ok; cycle 1.
  { unfold parse_response. rewrite Hmode, bind_lift. unfold get_content. rewrite Hc.
    erewrite bind_ok; [|apply tracing_intermediate_eq]. rewrite Hans, bind_lift, Hparse.
    reflexivity. }
  cbv beta iota. unfold dispatch.
  destruct Hno as [-> | ->]; [destruct (truthy action)|]; done.
Qed.

(** X20. What a dispatched tool hands back becomes the observation of the
    iteration (DEFAULT mode, an agent that does not stream, a true action
    that [_get_tool] resolves): its output, or for a
    [RecoverableAgentException] the text "<class name>: <message>". The
    observation is appended to the raw output, pushed onto the context and
    written into the step, and the loop goes on. Any other exception of the
    tool leaves the iteration, and the run, at once. *)
Theorem tool_outcome_becomes_observation (user_request : string) (k : nat)
    (prev : list string) (w : World) (text : string) (action action_input : PyVal)
    (tool : string) :
  inference_mode self = DEFAULT →
  let p := prompt_of self user_request prev in
  llm_status (llm self (calls w) p) = SUCCESS →
  content (llm_output (llm self (calls w) p)) = Some text →
  contains "Answer:" text = false →
  _parse_action text = Ok (action, action_input) →
  truthy action = true → tools self ≠ [] →
  _get_tool self action = Ok tool →
  streaming_enabled (agent_streaming self) = false →
  let w1 := called [CTool (VStr tool) action_input] (filed k p text w) in
  let outcome := run_tool self (calls (filed k p text w)) tool action_input in
  let observed tool_result :=
    (Ok (Continue (prev ++ [observation text tool_result])),
     stepped (<[k := {| input_data := p;
                        model_observation :=
                          {| initial := None; tool_using := Some action;
                             tool_input := Some action_input;
                             tool_output := Some tool_result;
                             updated := Some (observation text tool_result) |};
                        final_answer := None |}]>) w1) in
  react_iteration self config user_request k prev w
  = match outcome with
    | Ok tool_result => observed tool_result
    | Raise e =>
        if isinstance e RecoverableAgentException
        then observed (VStr (exc_text e))
        else (Raise e, w1)
    end.
Proof.
  intros Hmode p Hs Hc Hans Hparse Htrue Htools Htool Hstream w1 outcome observed.
  rewrite react_iteration_eq. fold p. cbv zeta. unfold iteration_tail. rewrite Hs. simpl.
  erewrite bind_ok; cycle 1.
  { unfold parse_response. rewrite Hmode, bind_lift. unfold get_content. rewrite Hc.
    erewrite bind_ok; [|apply tracing_intermediate_eq]. rewrite Hans, bind_lift, Hparse.
    reflexivity. }
  cbv beta iota. fold (filed k p text w). unfold dispatch. rewrite Htrue, Hstream.
  destruct (tools self) as [|t ts]; [done|].
  assert (∀ tool_result w2,
            _intermediate_steps w2 = _intermediate_steps (filed k p text w) →
            (s ← get_step k;
             set_steps (<[k := {| input_data := input_data s;
                                  model_observation :=
                                    {| initial := None; tool_using := Some action;
                                       tool_input := Some action_input;
                                       tool_output := Some tool_result;
                                       updated := Some (observation text tool_result) |};
                                  final_answer := final_answer s |}]>) ;;
             mret tt ;; mret (observation text tool_result)) w2
            = (Ok (observation text tool_result),
               stepped (<[k := {| input_data := p;
                                  model_observation :=
                                    {| initial := None; tool_using := Some action;
                                       tool_input := Some action_input;
                                       tool_output := Some tool_result;
                                       updated := Some (observation text tool_result) |};
                                  final_answer := None |}]>) w2)) as Hrest.
  { intros tool_result w2 Hsteps. unfold get_step, set_steps. eff_unfold.
    rewrite Hsteps. unfold filed. simpl. by rewrite lookup_insert_eq. }
  set (after tool_result :=
         stepped (<[k := {| input_data := p;
                            model_observation :=
                              {| initial := None; tool_using := Some action;
                                 tool_input := Some action_input;
                                 tool_output := Some tool_result;
                                 updated := Some (observation text tool_result) |};
                            final_answer := None |}]>) w1) in *.
  match goal with
  | |- context [(?m ≫= ?kont) (filed k p text w)] =>
      assert (m (filed k p text w)
              = match outcome with
                     | Ok tool_result => (Ok (observation text tool_result), after tool_result)
                     | Raise e =>
                         if isinstance e RecoverableAgentException
                         then (Ok (observation text (VStr (exc_text e))),
                               after (VStr (exc_text e)))
                         else (Raise e, w1)
                     end) as Hdispatch
  end.
  { rewrite bind_try, bind_lift, Htool. unfold _run_tool.
    erewrite (bind_ok (note _)); [|reflexivity].
    change (called [CTool (VStr tool) action_input] (filed k p text w)) with w1.
    fold outcome. unfold lift.
    destruct outcome as [tool_result|e].
    - fold (observation text tool_result). by rewrite Hrest.
    - destruct (isinstance e RecoverableAgentException); [|done].
      erewrite bind_ok; [|reflexivity].
      fold (observation text (VStr (exc_text e))). by rewrite Hrest. }
  unfold observed. fold after.
  destruct outcome as [tool_result|e].
  - by rewrite (bind_ok _ _ _ _ _ Hdispatch).
  - destruct (isinstance e RecoverableAgentException) eqn:Hrec.
    + by rewrite (bind_ok _ _ _ _ _ Hdispatch).
    + rewrite (bind_raise _ _ _ _ _ Hdispatch).
      by rewrite (not_recoverable_not_parsing e Hrec).
Qed.

End CallFacts.

(** ** Text: first occurrences, stripping, the XML parsers *)

Lemma string_app_cons (c : Ascii.ascii) (a b : string) :
  String c a +:+ b = String c (a +:+ b).
Proof. reflexivity. Qed.

Lemma string_app_nil_l (s : string) : EmptyString +:+ s = s.
Proof. reflexivity. Qed.

Lemma string_app_nil_r (s : string) : s +:+ EmptyString = s.
Proof. induction s as [|a s IH]; [done|]. by rewrite string_app_cons, IH. Qed.

Lemma string_app_assoc (a b c : string) : (a +:+ b) +:+ c = a +:+ b +:+ c.
Proof. induction a as [|x a IH]; [done|]. by rewrite !string_app_cons, IH. Qed.

Lemma string_length_app (a b : string) :
  String.length (a +:+ b) = String.length a + String.length b.
Proof. induction a as [|x a IH]; [done|]. rewrite string_app_cons. simpl. by rewrite IH. Qed.

Lemma prefix_nil (s : string) : String.prefix EmptyString s = true.
Proof. by destruct s. Qed.

Lemma prefix_app (p r : string) : String.prefix p (p +:+ r) = true.
Proof.
  induction p as [|a p IH]; [apply prefix_nil|].
  rewrite string_app_cons. cbn [String.prefix]. by destruct (Ascii.ascii_dec a a).
Qed.

Lemma prefix_app_l (p x y : string) :
  String.prefix p x = true → String.prefix p (x +:+ y) = true.
Proof.
  revert x. induction p as [|a p IH]; intros x; [intros _; apply prefix_nil|].
  destruct x as [|b x]; [done|]. rewrite string_app_cons. cbn [String.prefix].
  destruct (Ascii.ascii_dec a b); [apply IH|done].
Qed.

Lemma substring_all (s : string) (m : nat) :
  String.length s ≤ m → String.substring 0 m s = s.
Proof.
  revert m. induction s as [|a s IH]; intros m Hm.
  - by destruct m.
  - destruct m as [|m]; [simpl in Hm; lia|]. cbn [String.substring].
    rewrite IH; [done|]. simpl in Hm. lia.
Qed.

Lemma substring_skip (p r : string) (m : nat) :
  String.length r ≤ m → String.substring (String.length p) m (p +:+ r) = r.
Proof.
  intros Hm. induction p as [|a p IH]; [by apply substring_all|].
  rewrite string_app_cons. cbn [String.length String.substring]. exact IH.
Qed.

(** A text that starts with the pattern is the pattern and a rest. *)
Lemma prefix_inv (p s : string) :
  String.prefix p s = true → ∃ r, s = p +:+ r.
Proof.
  revert s. induction p as [|a p IH]; intros s Hp; [by exists s|].
  destruct s as [|b s]; [done|]. cbn [String.prefix] in Hp.
  destruct (Ascii.ascii_dec a b) as [->|]; [|done].
  destruct (IH s Hp) as [r ->]. by exists r.
Qed.

Lemma split_first_prefix (pat r : string) :
  split_first pat (pat +:+ r) = Some (EmptyString, r).
Proof.
  assert (String.prefix pat (pat +:+ r) = true) as Hp by apply prefix_app.
  destruct (pat +:+ r) as [|c s] eqn:Hs; cbn [split_first]; rewrite Hp; rewrite <- Hs;
    (rewrite substring_skip; [done|rewrite string_length_app; lia]).
Qed.

Lemma split_first_cons (pat : string) (c : Ascii.ascii) (s : string) :
  String.prefix pat (String c s) = false →
  split_first pat (String c s)
  = match split_first pat s with
    | Some (before, after) => Some (String c before, after)
    | None => None
    end.
Proof. intros Hp. cbn [split_first]. by rewrite Hp. Qed.

(** What [split_first] returns is a decomposition of the text around an
    occurrence of the pattern. *)
Lemma split_first_sound (pat s before after : string) :
  split_first pat s = Some (before, after) → s = before +:+ pat +:+ after.
Proof.
  revert before. induction s as [|c s IH]; intros before.
  - cbn [split_first]. destruct (String.prefix pat EmptyString) eqn:Hp; [|done].
    destruct (prefix_inv _ _ Hp) as [r Hr]. intros [= <- <-].
    destruct pat; [|done]. done.
  - destruct (String.prefix pat (String c s)) eqn:Hp.
    + destruct (prefix_inv _ _ Hp) as [r Hr]. rewrite Hr, split_first_prefix.
      by intros [= <- <-].
    + rewrite split_first_cons by done.
      destruct (split_first pat s) as [[b a]|]; [|done].
      intros [= <- <-]. by rewrite string_app_cons, (IH b eq_refl).
Qed.

(** A text that ends in a text with an occurrence has one. *)
Lemma split_first_suffix (pat a b : string) :
  is_Some (split_first pat b) → is_Some (split_first pat (a +:+ b)).
Proof.
  intros Hb. induction a as [|c a IH]; [done|].
  rewrite string_app_cons.
  destruct (String.prefix pat (String c (a +:+ b))) eqn:Hp.
  - destruct (prefix_inv _ _ Hp) as [r ->]. rewrite split_first_prefix. by eexists.
  - rewrite split_first_cons by done. destruct IH as [[x y] ->]. by eexists.
Qed.

Lemma contains_suffix (pat a b : string) :
  contains pat (a +:+ b) = false → contains pat b = false.
Proof.
  unfold contains. intros Hab. destruct (split_first pat b) eqn:Hb; [|done].
  destruct (split_first_suffix pat a b) as [x Hx]; [by eexists|]. by rewrite Hx in Hab.
Qed.

(** The text before the first occurrence holds no occurrence. *)
Lemma split_first_before (c : Ascii.ascii) (pat s before after : string) :
  split_first (String c pat) s = Some (before, after) →
  contains (String c pat) before = false.
Proof.
  revert before. induction s as [|d s IH]; intros before.
  - cbn [split_first String.prefix]. by intros [= <- <-].
  - destruct (String.prefix (String c pat) (String d s)) eqn:Hp.
    + destruct (prefix_inv _ _ Hp) as [r Hr]. rewrite Hr, split_first_prefix.
      by intros [= <- <-].
    + rewrite split_first_cons by done.
      destruct (split_first (String c pat) s) as [[b a]|] eqn:Hs; [|done].
      intros [= <- <-]. unfold contains.
      destruct (String.prefix (String c pat) (String d b)) eqn:Hp'.
      * apply split_first_sound in Hs. subst s.
        apply (prefix_app_l _ _ (String c pat +:+ a)) in Hp'.
        rewrite string_app_cons in Hp'. congruence.
      * rewrite split_first_cons by done.
        specialize (IH b eq_refl). unfold contains in IH.
        by destruct (split_first (String c pat) b).
Qed.

(** A pattern that starts with a character the text before it lacks is
    first found where it was put. *)
Lemma split_first_put (c : Ascii.ascii) (pat x y : string) :
  has_char c x = false →
  split_first (String c pat) (x +:+ String c pat +:+ y) = Some (x, y).
Proof.
  induction x as [|d x IH]; intros Hx.
  - rewrite string_app_nil_l. apply split_first_prefix.
  - simpl in Hx. apply orb_false_elim in Hx as [Hd Hx].
    apply bool_decide_eq_false in Hd.
    rewrite string_app_cons, split_first_cons.
    + by rewrite (IH Hx).
    + cbn [String.prefix]. destruct (Ascii.ascii_dec c d) as [->|]; done.
Qed.

(** *** [strip] *)

Lemma rev_app_spec (s acc : string) : String.rev_app s acc = String.rev s +:+ acc.
Proof.
  revert acc. induction s as [|a s IH]; intros acc; [done|].
  unfold String.rev. cbn [String.rev_app]. rewrite !IH.
  by rewrite string_app_assoc, string_app_cons, string_app_nil_l.
Qed.

Lemma rev_cons (a : Ascii.ascii) (s : string) :
  String.rev (String a s) = String.rev s +:+ String a EmptyString.
Proof. unfold String.rev at 1. cbn [String.rev_app]. apply rev_app_spec. Qed.

Lemma rev_app_distr (x y : string) : String.rev (x +:+ y) = String.rev y +:+ String.rev x.
Proof.
  induction x as [|a x IH]; [by rewrite string_app_nil_r|].
  by rewrite string_app_cons, !rev_cons, IH, string_app_assoc.
Qed.

Lemma rev_involutive (s : string) : String.rev (String.rev s) = s.
Proof.
  induction s as [|a s IH]; [done|].
  rewrite rev_cons, rev_app_distr, IH. done.
Qed.

Lemma lstrip_head (s t : string) (a : Ascii.ascii) :
  lstrip s = String a t → is_space a = false.
Proof.
  induction s as [|b s IH]; [done|]. simpl.
  destruct (is_space b) eqn:Hb; [done|]. by intros [= <- <-].
Qed.

Lemma lstrip_idem (s : string) : lstrip (lstrip s) = lstrip s.
Proof.
  induction s as [|a s IH]; [done|]. simpl.
  destruct (is_space a) eqn:Ha; [done|]. simpl. by rewrite Ha.
Qed.

Lemma lstrip_app_nonspace (x y : string) (a : Ascii.ascii) :
  is_space a = false → lstrip (x +:+ String a y) = lstrip x +:+ String a y.
Proof.
  intros Ha. induction x as [|b x IH].
  - rewrite string_app_nil_l. cbn [lstrip]. by rewrite Ha.
  - rewrite string_app_cons. cbn [lstrip]. by destruct (is_space b).
Qed.

Lemma rstrip_idem (s : string) : rstrip (rstrip s) = rstrip s.
Proof. unfold rstrip. by rewrite rev_involutive, lstrip_idem. Qed.

Lemma rstrip_cons_nonspace (a : Ascii.ascii) (s : string) :
  is_space a = false → rstrip (String a s) = String a (rstrip s).
Proof.
  intros Ha. unfold rstrip. rewrite rev_cons, lstrip_app_nonspace by done.
  by rewrite rev_app_distr.
Qed.

(** Stripping leaves nothing to strip. *)
Lemma strip_idem (s : string) : strip (strip s) = strip s.
Proof.
  unfold strip. destruct (lstrip s) as [|a t] eqn:Hs; [done|].
  pose proof (lstrip_head _ _ _ Hs) as Ha.
  rewrite rstrip_cons_nonspace by done. simpl. rewrite Ha.
  by rewrite <- rstrip_cons_nonspace, rstrip_idem by done.
Qed.

(** Without the opening or the closing tag there is nothing in between. *)
Lemma between_empty (opening closing text : string) :
  contains opening text = false ∨ contains closing text = false →
  between opening closing text = EmptyString.
Proof.
  unfold between, contains.
  destruct (split_first opening text) as [[before rest]|] eqn:Hopen; [|done].
  intros [?|Hnone]; [done|].
  destruct (split_first closing rest) as [[inner after]|] eqn:Hclose; [|done].
  exfalso. apply split_first_sound in Hopen. subst text.
  destruct (split_first_suffix closing (before +:+ opening) rest) as [x Hx]; [by eexists|].
  rewrite string_app_assoc in Hx. by rewrite Hx in Hnone.
Qed.

Section XmlFacts.
Context `{Externals}.
Variables (self : ReActAgent) (config : RunnableConfig).

(** On a tag of word characters the search is the literal one. *)
Lemma parse_xml_content_word (text tag : string) :
  word_tag tag = true →
  parse_xml_content text tag
  = Ok (strip (between ("<" +:+ tag +:+ ">") ("</" +:+ tag +:+ ">") text)).
Proof. intros Hw. unfold parse_xml_content. by rewrite Hw. Qed.

(** X21. For a tag of word characters (letters, digits, underscore), which
    the pattern matches literally, [parse_xml_content] returns text that the
    given text holds between an opening and a closing tag: when the result
    is not empty, the text splits into a part without opening tag, the
    opening tag, an inner text without closing tag, the closing tag and a
    rest, and the result is the inner text stripped; it has no white space
    left at either end. When the text lacks the opening or the closing tag
    the result is empty. *)
Theorem parse_xml_content_sound (text tag : string) :
  word_tag tag = true →
  let opening := "<" +:+ tag +:+ ">" in
  let closing := "</" +:+ tag +:+ ">" in
  ∃ result,
    parse_xml_content text tag = Ok result
    ∧ (result ≠ EmptyString →
       ∃ before inner after,
         text = before +:+ opening +:+ inner +:+ closing +:+ after
         ∧ contains opening before = false
         ∧ contains closing inner = false
         ∧ result = strip inner)
    ∧ strip result = result
    ∧ (contains opening text = false ∨ contains closing text = false →
       result = EmptyString).
Proof.
  intros Hw opening closing. rewrite (parse_xml_content_word text tag Hw).
  fold opening closing. eexists. split; [done|]. split; [|split].
  - unfold between.
    destruct (split_first opening text) as [[before rest]|] eqn:Hopen; [|done].
    destruct (split_first closing rest) as [[inner after]|] eqn:Hclose; [|done].
    intros _. exists before, inner, after.
    pose proof (split_first_before _ _ _ _ _ Hopen).
    pose proof (split_first_before _ _ _ _ _ Hclose).
    apply split_first_sound in Hopen, Hclose. by subst.
  - apply strip_idem.
  - intros Hnone. by rewrite (between_empty opening closing text Hnone).
Qed.

(** X22. Wrapping and parsing, for a tag of word characters: from a text
    that puts an inner text between the tags, with no [<] in the inner text
    nor in what precedes the opening tag, [parse_xml_content] gets the inner
    text back, stripped of surrounding white space, whatever follows the
    closing tag. *)
Theorem parse_xml_content_round_trip (tag before inner after : string) :
  word_tag tag = true →
  has_char lt_char before = false →
  has_char lt_char inner = false →
  parse_xml_content
    (before +:+ ("<" +:+ tag +:+ ">") +:+ inner +:+ ("</" +:+ tag +:+ ">") +:+ after) tag
  = Ok (strip inner).
Proof.
  intros Hw Hbefore Hinner. rewrite (parse_xml_content_word _ tag Hw). unfold between.
  change ("<" +:+ tag +:+ ">") with (String lt_char (tag +:+ ">")).
  change ("</" +:+ tag +:+ ">") with (String lt_char ("/" +:+ tag +:+ ">")).
  rewrite (split_first_put lt_char _ before _ Hbefore).
  by rewrite (split_first_put lt_char _ inner _ Hinner).
Qed.

(** X23. In XML mode the loop ends as soon as a successful output
    contains the text "<answer>": it returns what [parse_xml_content] finds
    between the answer tags, and the empty string when the closing tag is
    missing; the only call of the iteration is its model call (the observers
    of a streaming agent return). *)
Theorem xml_answer_terminates (user_request : string) (k : nat) (prev : list string)
    (w : World) (text : string) :
  inference_mode self = XML →
  let p := prompt_of self user_request prev in
  llm_status (llm self (calls w) p) = SUCCESS →
  content (llm_output (llm self (calls w) p)) = Some text →
  contains "<answer>" text = true →
  (streaming_enabled (agent_streaming self) = true → quiet (callbacks config)) →
  let found := strip (between "<answer>" "</answer>" text) in
  let answer := VStr found in
  let w' := answered self config k p text answer w in
  parse_xml_content text "answer" = Ok found
  ∧ react_iteration self config user_request k prev w = (Ok (Return answer), w')
  ∧ (∀ todo, react_loop self config user_request (S todo) k prev w = (Ok answer, w'))
  ∧ calls w' = calls w ++ [CModel p]
  ∧ (contains "</answer>" text = false → answer = VStr EmptyString).
Proof.
  intros Hmode p Hs Hc Hans Hq found answer w'. split; [done|].
  assert (react_iteration self config user_request k prev w = (Ok (Return answer), w')) as Hit.
  { rewrite react_iteration_eq. fold p. cbv zeta. unfold iteration_tail. rewrite Hs. simpl.
    erewrite bind_ok; cycle 1.
    { unfold parse_response. rewrite Hmode, bind_lift. unfold get_content. rewrite Hc, Hans.
      change (_extract_final_answer_xml text) with (Ok (A := string) found).
      erewrite bind_ok; [|apply tracing_intermediate_eq]. rewrite bind_lift.
      pose proof (file_final_answer self config k p text answer (called [CModel p] w) Hq)
        as Hfile.
      erewrite bind_ok in Hfile; [|apply tracing_intermediate_eq]. exact Hfile. }
    done. }
  split; [done|]. split; [by intros todo; rewrite react_loop_step, Hit|]. split; [done|].
  intros Hclose. unfold answer, found. f_equal.
  rewrite (between_empty "<answer>" "</answer>" text); [done|by right].
Qed.

(** In XML mode an action is read only inside a closed
    [<output>] block: a successful response without "<answer>" whose
    [<output>] block is missing or not closed is a parsing error, whatever
    action tags it holds (the empty text is no JSON), and the iteration
    absorbs it like any other. *)
Theorem xml_without_output_block_is_absorbed (user_request : string) (k : nat)
    (prev : list string) (w : World) (text : string) (decode_error : Exc) :
  inference_mode self = XML →
  let p := prompt_of self user_request prev in
  llm_status (llm self (calls w) p) = SUCCESS →
  content (llm_output (llm self (calls w) p)) = Some text →
  contains "<answer>" text = false →
  contains "<output>" text = false ∨ contains "</output>" text = false →
  json_loads EmptyString = Raise decode_error →
  isinstance decode_error JSONDecodeError = true →
  ∃ e,
    parse_xml_and_extract_info text = Raise e
    ∧ exc_class e = ActionParsingException
    ∧ react_iteration self config user_request k prev w
      = (Ok (Continue (prev ++ [exc_text e])), filed k p text w).
Proof.
  intros Hmode p Hs Hc Hans Hout Hjson Hclass.
  assert (parse_xml_content text "output" = Ok EmptyString) as Hempty.
  { change (parse_xml_content text "output")
      with (Ok (A := string) (strip (between "<output>" "</output>" text))).
    by rewrite (between_empty "<output>" "</output>" text Hout). }
  assert (∃ e, parse_xml_and_extract_info text = Raise e
               ∧ exc_class e = ActionParsingException) as (e & Hparse & He).
  { unfold parse_xml_and_extract_info. rewrite Hempty.
    change (parse_xml_content EmptyString "action") with (Ok (A := string) EmptyString).
    change (parse_xml_content EmptyString "action_input") with (Ok (A := string) EmptyString).
    cbv beta iota. rewrite Hjson, Hclass. by eexists. }
  exists e. split; [done|]. split; [done|].
  rewrite react_iteration_eq. fold p. cbv zeta. unfold iteration_tail. rewrite Hs. simpl.
  erewrite bind_raise; cycle 1.
  { unfold parse_response. rewrite Hmode, bind_lift. unfold get_content. rewrite Hc.
    erewrite bind_ok; [|apply tracing_intermediate_eq]. rewrite Hans, bind_lift.
    by rewrite Hparse. }
  unfold isinstance. by rewrite He.
Qed.

End XmlFacts.

(** * Properties of the tool nodes and of the vector store *)

(** ** Dicts *)

Lemma dict_get_set {V} (d : list (string * V)) (k k' : string) (v : V) :
  dict_get (dict_set d k v) k' = if decide (k = k') then Some v else dict_get d k'.
Proof.
  induction d as [|[k0 v0] d IH]; simpl.
  - by repeat case_decide.
  - repeat (case_decide; simpl; simplify_eq); try done; by rewrite IH; case_decide.
Qed.

Lemma dict_get_absent {V} (d : list (string * V)) (k : string) :
  k ∉ d.*1 → dict_get d k = None.
Proof.
  induction d as [|[k0 v0] d IH]; [done|]. simpl. intros Hk.
  apply not_elem_of_cons in Hk as [Hne Hk]. case_decide; [done|]. by apply IH.
Qed.

(** In [a | b] the bindings of [b] win. *)
Lemma dict_get_union {V} (a b : list (string * V)) (k : string) :
  distinct_keys b →
  dict_get (dict_union a b) k
  = match dict_get b k with Some v => Some v | None => dict_get a k end.
Proof.
  unfold dict_union, distinct_keys. revert a.
  induction b as [|[k0 v0] b IH]; intros a Hb; [done|].
  simpl in Hb. apply NoDup_cons in Hb as [Hk0 Hb].
  cbn [foldl fst snd dict_get]. rewrite (IH _ Hb), dict_get_set.
  case_decide; [|done]. subst. by rewrite dict_get_absent.
Qed.

Lemma dict_remove_absent {V} (d : list (string * V)) (k : string) :
  dict_get d k = None → dict_remove d k = d.
Proof.
  induction d as [|[k0 v0] d IH]; [done|]. simpl. case_decide; [done|].
  intros Hd. by rewrite IH.
Qed.

Lemma dict_remove_set {V} (d : list (string * V)) (k : string) (v : V) :
  dict_get d k = None → dict_remove (dict_set d k v) k = d.
Proof.
  induction d as [|[k0 v0] d IH]; simpl.
  - by case_decide.
  - case_decide; [done|]. intros Hd. simpl. case_decide; [done|]. by rewrite IH.
Qed.

Lemma dict_get_remove_ne {V} (d : list (string * V)) (k k' : string) :
  k' ≠ k → dict_get (dict_remove d k) k' = dict_get d k'.
Proof.
  intros Hne. induction d as [|[k0 v0] d IH]; [done|]. simpl.
  case_decide; simpl; case_decide; try done. by subst.
Qed.

Lemma dict_get_remove {V} (d : list (string * V)) (k : string) :
  distinct_keys d → dict_get (dict_remove d k) k = None.
Proof.
  unfold distinct_keys. induction d as [|[k0 v0] d IH]; [done|]. simpl.
  intros [Hk0 Hd]%NoDup_cons. case_decide.
  - subst. by apply dict_get_absent.
  - simpl. case_decide; [done|]. by apply IH.
Qed.

(** ** The Python tool *)

Section PythonFacts.
Context `{Externals} `{PythonTool.Sandbox}.

(** What [execute] makes of the code, once the execute-run hooks have
    returned. *)
Lemma python_execute_eq (code : string) (input_data : PyVal) (config : option RunnableConfig)
    (w : World) :
  let cbs := callbacks (ensure_config config) in
  Forall (fun h => on_event h on_node_execute_run = None) cbs →
  let failed := VDict [("content", VStr PythonTool.error_content)] in
  PythonTool.execute code input_data config w
  = match PythonTool.exec_restricted code (delivered (fan_out cbs on_node_execute_run) w) with
    | (Ok (Some run), w1) =>
        match run input_data w1 with
        | (Ok result, w2) => (Ok (VDict [("content", VStr (render result))]), w2)
        | (Raise e, w2) => if is_Exception e then (Ok failed, w2) else (Raise e, w2)
        end
    | (Ok None, w1) => (Ok failed, w1)
    | (Raise e, w1) => if is_Exception e then (Ok failed, w1) else (Raise e, w1)
    end.
Proof.
  intros cbs Hq failed. unfold PythonTool.execute, run_on_node_execute_run. fold cbs.
  erewrite bind_ok; [|by apply emit_returns].
  unfold try_except_all, mbind, Eff_bind, bind.
  destruct (PythonTool.exec_restricted code _) as [[[run|]|e] w1]; try done.
  by destruct (run input_data w1) as [[result|e] w2]; [|destruct (is_Exception e)].
Qed.

Lemma python_execute_returns (code : string) (input_data : PyVal)
    (config : option RunnableConfig) (w : World) :
  Forall (fun h => on_event h on_node_execute_run = None) (callbacks (ensure_config config)) →
  PythonTool.well_behaved code input_data →
  ∃ text w',
    PythonTool.execute code input_data config w = (Ok (VDict [("content", VStr text)]), w').
Proof.
  intros Hq Hcode. rewrite python_execute_eq by done.
  specialize (Hcode (delivered (fan_out (callbacks (ensure_config config)) on_node_execute_run) w)).
  destruct (PythonTool.exec_restricted code _) as [[[run|]|e] w1]; try by eexists _, _.
  - destruct (run input_data w1) as [[result|e] w2] eqn:Hrun; [by eexists _, _|].
    rewrite (Hcode _ _ eq_refl). by eexists _, _.
  - rewrite Hcode. by eexists _, _.
Qed.

(** X24. Once the execute-run hooks have returned, [Python.execute] turns
    every failure of the code that derives from [Exception] into one and the
    same result: whether compiling or executing the code raises, the code
    defines no [run], or [run] raises, the node returns the mapping whose
    "content" is the fixed text [error_content], in which the exception does
    not appear; when [run] returns, the node returns its result as a string
    under "content". Only an exception that derives from [BaseException]
    alone leaves [execute]. *)
Theorem python_execute_absorbs_errors (code : string) (input_data : PyVal)
    (config : option RunnableConfig) (w : World) :
  let cbs := callbacks (ensure_config config) in
  Forall (fun h => on_event h on_node_execute_run = None) cbs →
  let failed := VDict [("content", VStr PythonTool.error_content)] in
  PythonTool.execute code input_data config w
  = match PythonTool.exec_restricted code (delivered (fan_out cbs on_node_execute_run) w) with
    | (Ok (Some run), w1) =>
        match run input_data w1 with
        | (Ok result, w2) => (Ok (VDict [("content", VStr (render result))]), w2)
        | (Raise e, w2) => if is_Exception e then (Ok failed, w2) else (Raise e, w2)
        end
    | (Ok None, w1) => (Ok failed, w1)
    | (Raise e, w1) => if is_Exception e then (Ok failed, w1) else (Raise e, w1)
    end.
Proof. apply python_execute_eq. Qed.


End PythonFacts.

(** ** The HTTP tool *)

Section HttpFacts.
Context `{Externals}.
Variable urljoin : string → PyVal → Outcome string.

Lemma dict_or_inv (a : PyDict) (b : PyVal) (merged : PyDict) :
  Http.dict_or a b = Ok merged → ∃ d, b = VDict d ∧ merged = dict_union a d.
Proof. destruct b; try done. intros [= <-]. by eexists. Qed.

Lemma layered_union (c n i : PyDict) (k : string) :
  distinct_keys n → distinct_keys i →
  dict_get (dict_union (dict_union c n) i) k = layered c n i k.
Proof. intros Hn Hi. unfold layered. by rewrite !dict_get_union. Qed.

(** X26. The request the HTTP tool sends merges, for headers, query
    parameters and body data alike, the connection's values, the node's and
    those of the input: for every key the input's binding is sent if there
    is one, else the node's, else the connection's. The method is the
    connection's and the timeout the node's. *)
Theorem http_request_precedence (self : Http.HttpApiCall) (input_data : PyDict)
    (request : Http.Request) :
  Http.build_request urljoin self input_data = Ok request →
  distinct_keys (Http.headers self) → distinct_keys (Http.params self) →
  distinct_keys (Http.data self) →
  ∃ headers params data,
    Http.get input_data "headers" (VDict []) = VDict headers
    ∧ Http.get input_data "params" (VDict []) = VDict params
    ∧ Http.get input_data "data" (VDict []) = VDict data
    ∧ (distinct_keys headers →
       ∀ k, dict_get (Http.request_headers request) k
            = layered (Http.Connection.headers (Http.connection self)) (Http.headers self)
                headers k)
    ∧ (distinct_keys params →
       ∀ k, dict_get (Http.request_params request) k
            = layered (Http.Connection.params (Http.connection self)) (Http.params self)
                params k)
    ∧ (distinct_keys data →
       ∀ k, dict_get (Http.request_data request) k
            = layered (Http.Connection.data (Http.connection self)) (Http.data self) data k)
    ∧ Http.request_method request = Http.Connection.method (Http.connection self)
    ∧ Http.request_timeout request = Http.timeout self.
Proof.
  unfold Http.build_request. intros Hreq Hh Hp Hd.
  destruct (if truthy _ then _ else _) as [url|e]; [|done].
  destruct (Http.dict_or _ (Http.get input_data "headers" _)) as [mh|e] eqn:Hmh; [|done].
  destruct (Http.dict_or _ (Http.get input_data "params" _)) as [mp|e] eqn:Hmp; [|done].
  destruct (Http.dict_or _ (Http.get input_data "data" _)) as [md|e] eqn:Hmd; [|done].
  apply dict_or_inv in Hmh as (headers & Hheaders & ->).
  apply dict_or_inv in Hmp as (params & Hparams & ->).
  apply dict_or_inv in Hmd as (data & Hdata & ->).
  injection Hreq as <-. exists headers, params, data. cbn.
  repeat split; try done; intros Hi k; by apply layered_union.
Qed.

(** X27. Whatever [HttpApiCall.execute] returns is a mapping of the
    [content] chosen by the response type in force and of the [status_code]
    of a response the client gave, and that status code is one of the node's
    [success_codes]: a response with any other status never yields a
    result. *)
Theorem http_execute_returns_success_code (self : Http.HttpApiCall) (input_data : PyDict)
    (config : option RunnableConfig) (w w' : World) (out : PyVal) :
  Http.execute urljoin self input_data config w = (Ok out, w') →
  ∃ request w1 response content,
    Http.build_request urljoin self input_data = Ok request
    ∧ Http.client_request self request w1 = (Ok response, w')
    ∧ out = VDict [("content", content); ("status_code", VInt (Http.status_code response))]
    ∧ Http.status_code response ∈ Http.success_codes self
    ∧ let response_type := Http.effective_response_type self response in
      (response_type = Some Http.TEXT ∧ content = VStr (Http.text response))
      ∨ (response_type = Some Http.RAW ∧ content = Http.content response)
      ∨ (response_type = Some Http.JSON ∧ Http.json response = Ok content).
Proof.
  unfold Http.execute, run_on_node_execute_run. intros Hrun.
  unfold mbind at 1, Eff_bind at 1, bind at 1 in Hrun.
  destruct (emit _ _ w) as [[[]|e] w1]; [|done].
  rewrite bind_lift in Hrun.
  destruct (Http.build_request urljoin self input_data) as [request|e]; [|done].
  unfold mbind at 1, Eff_bind at 1, bind at 1 in Hrun.
  destruct (Http.client_request self request w1) as [[response|e] w2] eqn:Hresp; [|done].
  destruct (bool_decide (Http.status_code response ∈ Http.success_codes self)) eqn:Hcode;
    [|done].
  apply bool_decide_eq_true in Hcode. cbn [negb] in Hrun. cbv zeta in Hrun.
  destruct (bool_decide (_ = Some Http.TEXT)) eqn:Htext.
  { injection Hrun as <- <-. apply bool_decide_eq_true in Htext.
    eexists _, _, _, _. repeat split; try done. by left. }
  destruct (bool_decide (_ = Some Http.RAW)) eqn:Hraw.
  { injection Hrun as <- <-. apply bool_decide_eq_true in Hraw.
    eexists _, _, _, _. repeat split; try done. right. by left. }
  destruct (bool_decide (_ = Some Http.JSON)) eqn:Hjson; [|done].
  rewrite bind_lift in Hrun. destruct (Http.json response) as [content|e] eqn:Hc; [|done].
  injection Hrun as <- <-. apply bool_decide_eq_true in Hjson.
  eexists _, _, _, _. repeat split; try done. right. by right.
Qed.

(** X28. A node built without a response type decodes a successful
    response as JSON exactly when its content type is the text
    "application/json", and hands back the raw content otherwise (the
    default type); a node built with a response type keeps it whatever the
    content type says. *)
Theorem http_json_detection (self : Http.HttpApiCall) (input_data : PyDict)
    (config : option RunnableConfig) (w w1 : World) (request : Http.Request)
    (response : Http.Response) :
  let cbs := callbacks (ensure_config config) in
  Forall (fun h => on_event h on_node_execute_run = None) cbs →
  Http.build_request urljoin self input_data = Ok request →
  Http.client_request self request (delivered (fan_out cbs on_node_execute_run) w)
  = (Ok response, w1) →
  Http.status_code response ∈ Http.success_codes self →
  Http.response_type self = Some Http.RAW →
  let result content :=
    VDict [("content", content); ("status_code", VInt (Http.status_code response))] in
  Http.execute urljoin self input_data config w
  = if Http.response_type_set self then (Ok (result (Http.content response)), w1)
    else if bool_decide (Http.content_type response = Some "application/json")
         then match Http.json response with
              | Ok content => (Ok (result content), w1)
              | Raise e => (Raise e, w1)
              end
         else (Ok (result (Http.content response)), w1).
Proof.
  intros cbs Hq Hreq Hresp Hcode Hraw result.
  unfold Http.execute, run_on_node_execute_run. fold cbs.
  erewrite bind_ok; [|by apply emit_returns].
  rewrite bind_lift, Hreq. erewrite bind_ok; [|exact Hresp].
  rewrite bool_decide_eq_true_2 by done. cbn [negb]. cbv zeta.
  unfold Http.effective_response_type. rewrite Hraw.
  destruct (Http.response_type_set self); cbn [negb andb]; [done|].
  destruct (bool_decide (Http.content_type response = Some "application/json")); [|done].
  rewrite (bool_decide_eq_false_2 (Some Http.JSON = Some Http.TEXT)) by done.
  rewrite (bool_decide_eq_false_2 (Some Http.JSON = Some Http.RAW)) by done.
  rewrite (bool_decide_eq_true_2 (Some Http.JSON = Some Http.JSON)) by done.
  rewrite bind_lift. by destruct (Http.json response).
Qed.

End HttpFacts.

(** ** The Pinecone store *)

Section PineconeFacts.
Context {float : Type} `{EqDecision float} `{!Pinecone.DocumentClass float}.
Variable minus_ten : float.

Local Abbreviation to_format := (Pinecone._convert_documents_to_pinecone_format minus_ten).
Local Abbreviation to_documents := (Pinecone._convert_query_result_to_documents minus_ten).
Local Abbreviation to_document := (Pinecone.match_to_document minus_ten).
Local Abbreviation dummy := (Pinecone._dummy_vector minus_ten).

Lemma document_round_trip (dimension : Z) (document : Pinecone.Document)
    (doc_metadata : PyDict) :
  Pinecone.metadata document = Some doc_metadata →
  dict_get doc_metadata "content" = None →
  Pinecone.embedding document ≠ Some (dummy dimension) →
  ∃ vector,
    Pinecone.document_to_pinecone_format minus_ten dimension document = Ok vector
    ∧ ∀ s, to_document dimension {| Pinecone.matched := vector; Pinecone.match_score := s |}
           = Pinecone.scored document s.
Proof.
  intros Hdict Hmeta Hemb. unfold Pinecone.document_to_pinecone_format. rewrite Hdict.
  eexists. split; [reflexivity|]. intros s.
  unfold Pinecone.match_to_document, Pinecone.scored.
  cbn [Pinecone.matched Pinecone.vector_id Pinecone.values Pinecone.vector_metadata
       Pinecone.match_score].
  rewrite Hdict. f_equal.
  - destruct (Pinecone.content document); try (by rewrite dict_get_set; case_decide);
      by rewrite Hmeta.
  - f_equal. destruct (Pinecone.content document); try (by apply dict_remove_set);
      by apply dict_remove_absent.
  - destruct (Pinecone.embedding document) as [values|]; simpl.
    + rewrite bool_decide_eq_false_2; [done|]. congruence.
    + by rewrite bool_decide_eq_true_2.
Qed.

(** The documents of a conversion are those of its [Document(...)] calls, up
    to the first that raises. *)
Lemma query_result_documents (dimension : Z) (matches : list Pinecone.Match) :
  (to_documents dimension matches).1
  = Pinecone.collect (map (to_document dimension) matches).
Proof.
  induction matches as [|m matches IH]; [done|]. simpl.
  destruct (to_document dimension m) as [doc|e]; [|done].
  destruct (to_documents dimension matches) as [[documents|e] after]; simpl in *;
    by rewrite <- IH.
Qed.

Lemma popped_without_content (m : @Pinecone.Match float) :
  distinct_keys (Pinecone.vector_metadata (Pinecone.matched m)) →
  Pinecone.without_content m (Pinecone.popped m).
Proof.
  intros Hm. unfold Pinecone.without_content, Pinecone.popped. cbn.
  repeat split; try done; [by apply dict_get_remove|].
  intros k Hk. by apply dict_get_remove_ne.
Qed.

(** X29. Writing and reading back: a document converted to the Pinecone
    format and returned by a query converts back to the document that
    [Document(...)] builds from its own id, content, metadata and embedding
    with the score of the match, provided its metadata is a dict without
    the key "content" (the store keeps the content there) and its embedding
    is not the dummy vector (the store writes the dummy vector for a missing
    embedding and reads it back as none). *)
Theorem pinecone_round_trip (dimension : Z) (documents : list Pinecone.Document)
    (scores : list float) :
  Forall (fun document =>
            (∃ doc_metadata, Pinecone.metadata document = Some doc_metadata
                             ∧ dict_get doc_metadata "content" = None)
            ∧ Pinecone.embedding document ≠ Some (dummy dimension)) documents →
  length scores = length documents →
  ∃ vectors,
    to_format dimension documents = Ok vectors
    ∧ let matches :=
        zip_with (fun vector s => {| Pinecone.matched := vector; Pinecone.match_score := s |})
          vectors scores in
      (to_documents dimension matches).1
      = Pinecone.collect (zip_with Pinecone.scored documents scores).
Proof.
  intros Hdocs. revert scores.
  induction Hdocs as [|document documents [(doc_metadata & Hdict & Hm) He] _ IH];
    intros scores Hlen.
  { exists []. split; [done|]. by destruct scores. }
  destruct scores as [|s scores]; [done|].
  destruct (document_round_trip dimension document doc_metadata Hdict Hm He)
    as (vector & Hvector & Hback).
  destruct (IH scores) as (vectors & Hvectors & Hrest); [simpl in Hlen; lia|].
  exists (vector :: vectors). split.
  { simpl. by rewrite Hvector, Hvectors. }
  cbv zeta in *. rewrite query_result_documents in *. simpl.
  by rewrite Hback, Hrest.
Qed.

(** X30. Converting a query result consumes the content of its matches in
    place (the keys of a metadata dict being distinct). When the conversion
    returns, every match of the query result is left without the key
    "content", its id, its values, its score and every other metadata entry
    as before, and each document is the one [Document(...)] builds from the
    id, the content (or [None]), the values (none for the dummy vector) and
    the score of its match and from the metadata its match is left with.
    When a call [Document(...)] raises, the conversion raises the same; the
    matches up to that one are left without their content and the later
    ones are untouched. *)
Theorem pinecone_conversion_consumes_content (dimension : Z) (matches : list Pinecone.Match) :
  Forall (fun m => distinct_keys (Pinecone.vector_metadata (Pinecone.matched m))) matches →
  let converted := to_documents dimension matches in
  (∀ documents, converted.1 = Ok documents →
     Forall2 Pinecone.without_content matches converted.2
     ∧ length documents = length matches
     ∧ ∀ i m after document,
         matches !! i = Some m → converted.2 !! i = Some after →
         documents !! i = Some document →
         Pinecone.new_Document
           (Pinecone.vector_id (Pinecone.matched m))
           (default VNone (dict_get (Pinecone.vector_metadata (Pinecone.matched m)) "content"))
           (Some (Pinecone.vector_metadata (Pinecone.matched after)))
           (if bool_decide (Pinecone.values (Pinecone.matched m) = dummy dimension)
            then None else Some (Pinecone.values (Pinecone.matched m)))
           (Some (Pinecone.match_score m))
         = Ok document)
  ∧ (∀ e, converted.1 = Raise e →
       ∃ before m untouched consumed,
         matches = before ++ m :: untouched
         ∧ to_document dimension m = Raise e
         ∧ converted.2 = consumed ++ untouched
         ∧ Forall2 Pinecone.without_content (before ++ [m]) consumed).
Proof.
  intros Hkeys. cbv zeta. induction Hkeys as [|m matches Hm _ [IHok IHraise]].
  { split; [|done]. intros documents [= <-]. split; [constructor|]. split; [done|].
    intros i m after document Hi. by rewrite lookup_nil in Hi. }
  simpl. destruct (to_document dimension m) as [doc|e0] eqn:Hdoc.
  - destruct (to_documents dimension matches) as [[documents0|e0] after0] eqn:Hconv;
      simpl in *.
    + split; [|done]. intros documents [= <-].
      destruct (IHok documents0 eq_refl) as (Hleft & Hlen & Hbuilt).
      split; [constructor; [by apply popped_without_content|done]|].
      split; [simpl; lia|].
      intros [|i] m' after document Hi Ha Hd; simpl in *.
      * injection Hi as <-. injection Ha as <-. injection Hd as <-. exact Hdoc.
      * by eapply Hbuilt.
    + split; [done|]. intros e [= <-].
      destruct (IHraise e0 eq_refl) as (before & m' & untouched & consumed & -> & He & -> & Hc).
      exists (m :: before), m', untouched, (Pinecone.popped m :: consumed).
      split; [done|]. split; [done|]. split; [done|].
      constructor; [by apply popped_without_content|done].
  - simpl. split; [done|]. intros e [= <-].
    exists [], m, matches, [Pinecone.popped m].
    split; [done|]. split; [done|]. split; [done|].
    constructor; [by apply popped_without_content|constructor].
Qed.

End PineconeFacts.

(** * The further statements at concrete inputs *)

Lemma quiet_recording : quiet (callbacks recording).
Proof. intros h ev Hh. apply list_elem_of_singleton in Hh. subst h. reflexivity. Defined.

Lemma quiet_none : quiet (callbacks (ensure_config None)).
Proof. intros h ev Hh. by apply elem_of_nil in Hh. Defined.

(** The flaky node, past its first failure: the second attempt returns and
    the third is never made. *)
Lemma retry_returns_first_success_witness :
  retry_attempts flaky_node (VStr "x") recording 3 2 1 (Some boom) w_failed_once
  = (Ok (VStr "x"),
     delivered [("recorder", on_node_execute_start (VStr "x"));
                ("recorder", on_node_execute_end (VStr "x"))]
       (journaled [JExecute (Ok (VStr "x"))] w_failed_once)).
Proof.
  rewrite (retry_returns_first_success flaky_node (VStr "x") recording 3 1 1 (Some boom)
             w_failed_once
             (delivered [("recorder", on_node_execute_start (VStr "x"))] w_failed_once)
             (VStr "x")).
  - reflexivity.
  - exact quiet_recording.
  - reflexivity.
  - exact I.
Defined.

Lemma negative_max_retries_never_executes_witness :
  execute_with_retry never_node (VDict []) (Some recording) w0
  = (Raise (mk_exc TypeError "exceptions must derive from BaseException"), w0).
Proof. apply (negative_max_retries_never_executes never_node). reflexivity. Defined.

(** The bound on attempts and sleeps, read off a run of the failing node. *)
Lemma execute_with_retry_bounded_witness :
  ∃ entries,
    journal (execute_with_retry failing_node (VDict []) (Some recording) w0).2
    = journal w0 ++ entries
    ∧ (Z.of_nat (attempts_in entries) <= 3)%Z
    ∧ (Z.of_nat (sleeps_in entries) <= 2)%Z.
Proof.
  destruct (execute_with_retry_bounded failing_node (VDict []) (Some recording) w0)
    as (entries & Hj & Ha & Hs & _).
  exists entries. split; [exact Hj|]. split; [exact Ha|exact Hs].
Defined.

Lemma run_success_life_cycle_witness :
  run (echo_node []) (VDict [("input", VStr "hi")]) (Some recording) None w0
  = (Ok {| status := SUCCESS; input := VDict [("input", VStr "hi")];
           output := VDict [("input", VStr "hi")] |},
     delivered [("recorder", on_node_start (VDict [("input", VStr "hi")]));
                ("recorder", on_node_execute_start (VDict [("input", VStr "hi")]));
                ("recorder", on_node_execute_end (VDict [("input", VStr "hi")]));
                ("recorder", on_node_end (VDict [("input", VStr "hi")]))]
       (journaled [JExecute (Ok (VDict [("input", VStr "hi")]))] w0)).
Proof.
  destruct (run_success_life_cycle (echo_node []) [("input", VStr "hi")] recording None w0
              (delivered [("recorder", on_node_start (VDict [("input", VStr "hi")]));
                          ("recorder", on_node_execute_start (VDict [("input", VStr "hi")]))]
                 w0)
              (VDict [("input", VStr "hi")]) (VDict [("input", VStr "hi")]))
    as (Hrun & _ & _).
  - reflexivity.
  - reflexivity.
  - left. reflexivity.
  - exact quiet_recording.
  - vm_compute. discriminate.
  - reflexivity.
  - exact I.
  - reflexivity.
  - rewrite Hrun. reflexivity.
Defined.

(** The picky node executes and is then failed by its output
    transformation. *)
Lemma output_transformer_failure_fails_run_witness :
  ∃ w',
    @run strict_externals picky_node (VDict []) (Some recording) None w0
    = (Ok {| status := FAILURE; input := VDict [];
             output := VDict [("content", VStr "no match for $.missing");
                              ("recoverable", VBool false)] |}, w')
    ∧ journal w' = [JExecute (Ok (VDict []))].
Proof.
  destruct (@output_transformer_failure_fails_run strict_externals picky_node [] recording
              None w0
              (delivered [("recorder", on_node_start (VDict []));
                          ("recorder", on_node_execute_start (VDict []))] w0)
              (VDict []) (mk_exc ValueError "no match for $.missing"))
    as (Hrun & Hj).
  - reflexivity.
  - reflexivity.
  - left. reflexivity.
  - exact quiet_recording.
  - vm_compute. discriminate.
  - reflexivity.
  - exact I.
  - reflexivity.
  - reflexivity.
  - eexists. split; [exact Hrun|exact Hj].
Defined.

Lemma input_transformer_failure_fails_run_witness :
  @run strict_externals blind_node (VDict []) (Some recording) None w0
  = (Ok {| status := FAILURE; input := VDict [];
           output := VDict [("content", VStr "no match for $.missing");
                            ("recoverable", VBool false)] |},
     delivered [("recorder", on_node_error (mk_exc ValueError "no match for $.missing"))] w0).
Proof.
  apply (@input_transformer_failure_fails_run strict_externals blind_node [] (Some recording)
           None w0 (mk_exc ValueError "no match for $.missing")).
  - reflexivity.
  - unfold no_input_transformer. vm_compute. discriminate.
  - reflexivity.
  - reflexivity.
  - intros h Hh. apply list_elem_of_singleton in Hh. subst h. reflexivity.
Defined.

Lemma upstream_passes :
  dependency_passes [("upstream", result_of SUCCESS VNone); ("second", result_of FAILURE VNone)]
    plain_dep.
Proof.
  exists (result_of SUCCESS VNone). split; [reflexivity|]. split; [reflexivity|].
  intros k out v Hg. discriminate.
Defined.

(** Validation of [upstream; second; choice] with the second dependency
    failed stops there. *)
Lemma validate_depends_stops_at_first_failure_witness :
  ∃ e,
    validate_depends (echo_node [plain_dep; second_dep; gated])
      [("upstream", result_of SUCCESS VNone); ("second", result_of FAILURE VNone)] = Raise e
    ∧ exc_msg e = "Dependency second: failed".
Proof.
  destruct (validate_depends_stops_at_first_failure
              (echo_node [plain_dep; second_dep; gated])
              [("upstream", result_of SUCCESS VNone); ("second", result_of FAILURE VNone)]
              [plain_dep] second_dep [gated]) as (e & Hdep & Hval & _).
  - reflexivity.
  - constructor; [exact upstream_passes|constructor].
  - intros (r & Hr & Hs & _). vm_compute in Hr. injection Hr as <-. discriminate.
  - exists e. split; [exact Hval|].
    vm_compute in Hdep. injection Hdep as <-. reflexivity.
Defined.



Lemma run_without_results_skips_witness :
  (run (echo_node [plain_dep; gated]) (VDict [("q", VInt 1)]) None None w0).1
  = Ok {| status := SKIP; input := VDict [("q", VInt 1)];
          output := VDict [("content", VStr "Dependency upstream: result missed")] |}.
Proof.
  rewrite (run_without_results_skips (echo_node [plain_dep; gated]) [("q", VInt 1)] None w0
             plain_dep [gated]).
  - reflexivity.
  - reflexivity.
  - exact quiet_none.
Defined.

(** The execute-end hook of the second handler fails: the node has run,
    yet the wrapper raises the hook's exception. *)
Lemma execute_end_failure_fails_attempt_witness :
  ∃ w',
    retry_attempts (echo_node []) (VDict []) end_faulty 1 1 0 None w0
    = (Raise (mk_exc (OtherException "RuntimeError") "end hook failed"), w')
    ∧ journal w' = [JExecute (Ok (VDict []))].
Proof.
  destruct (execute_end_failure_fails_attempt (echo_node []) (VDict []) end_faulty 1 0 0 None
              w0
              (delivered (fan_out (callbacks end_faulty) (on_node_execute_start (VDict []))) w0)
              (VDict []) [recorder] end_faulty_observer [recorder]
              (mk_exc (OtherException "RuntimeError") "end hook failed")) as [_ Hlast].
  - reflexivity.
  - repeat constructor.
  - repeat constructor.
  - reflexivity.
  - reflexivity.
  - repeat constructor.
  - reflexivity.
  - exact I.
  - eexists. split; [apply Hlast; reflexivity|]. reflexivity.
Defined.

Lemma depends_on_accepts_iff_witness :
  exc_class (mk_exc ValueError "Cannot add an empty list of dependencies.") = ValueError.
Proof.
  destruct (depends_on_accepts_iff (echo_node []) (AList [])) as [_ Hraise].
  destruct (Hraise (mk_exc ValueError "Cannot add an empty list of dependencies.") eq_refl)
    as [Hvalue _].
  apply Hvalue. right. reflexivity.
Defined.

(** A node made to depend on [upstream] and run without its result. *)
Lemma depends_on_gates_run_witness :
  ∃ self' res w',
    depends_on (echo_node []) (ANode upstream_node) = Ok self'
    ∧ run self' (VDict []) (Some recording) (Some []) w0 = (Ok res, w')
    ∧ status res = SKIP.
Proof.
  destruct (depends_on_gates_run (echo_node []) upstream_node [] (Some recording) [] w0)
    as (self' & e & Hdep & _ & Hrun).
  - constructor.
  - intros r Hr. discriminate.
  - exact quiet_recording.
  - eexists self', _, _. split; [exact Hdep|]. split; [exact Hrun|]. reflexivity.
Defined.

(** The queue holds garbage, a message of another event, the awaited
    message and one more: the call returns the third and leaves the
    fourth. *)
Lemma get_input_streaming_event_returns_iff_witness :
  get_input_streaming_event demo_validate (fun m => m) demo_float_str
    "node-1" demo_streaming (Some "wanted") (Some [])
  = Returned (Ok "wanted") ["later"].
Proof.
  apply (get_input_streaming_event_returns_iff demo_validate (fun m => m) demo_float_str
           "node-1" demo_streaming (Some "wanted") [] "wanted" ["later"]).
  split; [reflexivity|]. split; [reflexivity|].
  exists ["garbage"; "other"], "wanted". split; [reflexivity|].
  split; [repeat constructor|]. split; [reflexivity|]. intros n Hn. reflexivity.
Defined.

(** With a timeout the unanswered call ends in an error; without one it
    never ends. *)
Lemma get_input_streaming_event_times_out_witness :
  get_input_streaming_event demo_validate (fun m => m) demo_float_str
    "node-1" demo_streaming (Some "absent") (Some [])
  = Returned (Raise (mk_exc ValueError "Input streaming timeout: 5.0 exceeded.")) []
  ∧ get_input_streaming_event demo_validate (fun m => m) demo_float_str
      "node-1" patient_streaming (Some "absent") (Some [])
    = Blocked.
Proof.
  split.
  - apply (get_input_streaming_event_times_out demo_validate (fun m => m) demo_float_str
             "node-1" demo_streaming (Some "absent") []
             ["garbage"; "other"; "wanted"; "later"]).
    + reflexivity.
    + reflexivity.
    + repeat constructor.
    + intros n Hn. reflexivity.
  - apply (get_input_streaming_event_times_out demo_validate (fun m => m) demo_float_str
             "node-1" patient_streaming (Some "absent") [] ["garbage"; "other"]).
    + reflexivity.
    + reflexivity.
    + repeat constructor.
    + intros n Hn. reflexivity.
Defined.

(** ** The reasoning loop *)

Lemma iteration_appends_one_entry_witness :
  ∃ entry,
    ["Action: search
Observation: RecoverableAgentException: rate limited
"] = [] ++ [entry].
Proof.
  eapply (iteration_appends_one_entry rate_limited_agent recording "q" 0 [] _ w0).
  vm_compute. reflexivity.
Defined.

Lemma failed_model_call_continues_witness :
  react_iteration silent_agent recording "q" 0 [] w0
  = (Ok (Continue ["model unavailable"]), called [CModel "q | "] w0).
Proof.
  destruct (failed_model_call_continues silent_agent recording "q" 0 [] w0
              "model unavailable") as [Hit _].
  - discriminate.
  - reflexivity.
  - rewrite Hit. reflexivity.
Defined.

Lemma undecodable_json_aborts_run_witness :
  _run_agent garbled_agent recording "q" w0
  = (Raise (mk_exc JSONDecodeError "Expecting value"), called [CModel "q | "] w0)
  ∧ (react_iteration structured_garbled_agent recording "q" 0 [] w0).1
    = Raise (mk_exc JSONDecodeError "Expecting value").
Proof.
  split.
  - destruct (undecodable_json_aborts_run garbled_agent recording "q" 0 [] w0 "{oops"
                (mk_exc JSONDecodeError "Expecting value"))
      as (_ & _ & Hloop).
    + reflexivity.
    + left. split; [reflexivity|]. by exists "plan_next_action", [].
    + reflexivity.
    + unfold _run_agent. change (max_loops garbled_agent) with 3. rewrite Hloop. reflexivity.
  - destruct (undecodable_json_aborts_run structured_garbled_agent recording "q" 0 [] w0
                "{oops" (mk_exc JSONDecodeError "Expecting value")) as (_ & Hit & _).
    + reflexivity.
    + right. split; reflexivity.
    + reflexivity.
    + rewrite Hit. reflexivity.
Defined.

Lemma structured_output_finish_terminates_witness :
  (@_run_agent finishing_externals finishing_agent recording "q" w0).1 = Ok (VStr "Paris").
Proof.
  destruct (@structured_output_finish_terminates finishing_externals finishing_agent recording
              "q" 0 [] w0 "FINISH"
              [("thought", VStr "done"); ("action", VStr "finish");
               ("action_input", VStr "Paris")] (VStr "Paris")) as (_ & Hloop & _).
  - reflexivity.
  - reflexivity.
  - reflexivity.
  - reflexivity.
  - reflexivity.
  - reflexivity.
  - intros _. exact quiet_recording.
  - unfold _run_agent. change (max_loops finishing_agent) with 5. by rewrite Hloop.
Defined.

Lemma undispatched_action_is_kept_witness :
  react_iteration toolless_agent recording "q" 0 [] w0
  = (Ok (Continue ["Action: search"]), filed 0 "q | " "Action: search" w0).
Proof.
  rewrite (undispatched_action_is_kept toolless_agent recording "q" 0 [] w0 "Action: search"
             (VStr "search") (VDict [])).
  - reflexivity.
  - reflexivity.
  - reflexivity.
  - reflexivity.
  - reflexivity.
  - reflexivity.
  - left. reflexivity.
Defined.

Lemma tool_outcome_becomes_observation_witness :
  (react_iteration rate_limited_agent recording "q" 0 [] w0).1
  = Ok (Continue ["Action: search
Observation: RecoverableAgentException: rate limited
"]).
Proof.
  rewrite (tool_outcome_becomes_observation rate_limited_agent recording "q" 0 [] w0
             "Action: search" (VStr "search") (VDict []) "search").
  - reflexivity.
  - reflexivity.
  - reflexivity.
  - reflexivity.
  - reflexivity.
  - reflexivity.
  - reflexivity.
  - discriminate.
  - reflexivity.
  - reflexivity.
Defined.

Lemma parse_xml_content_sound_witness :
  ∃ before inner after,
    "<output><action> search </action></output>"
    = before +:+ "<action>" +:+ inner +:+ "</action>" +:+ after
    ∧ strip inner = "search".
Proof.
  destruct (parse_xml_content_sound "<output><action> search </action></output>" "action"
              eq_refl) as (result & Hresult & Hsound & _ & _).
  vm_compute in Hresult. injection Hresult as <-.
  destruct Hsound as (before & inner & after & Htext & _ & _ & Hinner); [discriminate|].
  exists before, inner, after. split; [exact Htext|]. rewrite <- Hinner. reflexivity.
Defined.

Lemma parse_xml_content_round_trip_witness :
  parse_xml_content ("thought: " +:+ ("<" +:+ "action" +:+ ">") +:+ "  search
" +:+ ("</" +:+ "action" +:+ ">") +:+ "<action>other</action>") "action"
  = Ok (strip "  search
").
Proof.
  apply (parse_xml_content_round_trip "action" "thought: " "  search
" "<action>other</action>").
  - reflexivity.
  - reflexivity.
  - reflexivity.
Defined.

Lemma xml_answer_terminates_witness :
  (_run_agent xml_answering_agent recording "q" w0).1 = Ok (VStr "Paris")
  ∧ (_run_agent xml_unclosed_agent recording "q" w0).1 = Ok (VStr EmptyString).
Proof.
  split.
  - destruct (xml_answer_terminates xml_answering_agent recording "q" 0 [] w0
                "<output>done</output><answer> Paris </answer>") as (_ & _ & Hloop & _).
    + reflexivity.
    + reflexivity.
    + reflexivity.
    + reflexivity.
    + intros _. exact quiet_recording.
    + unfold _run_agent. change (max_loops xml_answering_agent) with 5. by rewrite Hloop.
  - destruct (xml_answer_terminates xml_unclosed_agent recording "q" 0 [] w0
                "<answer> Paris") as (_ & _ & Hloop & _ & Hempty).
    + reflexivity.
    + reflexivity.
    + reflexivity.
    + reflexivity.
    + intros _. exact quiet_recording.
    + unfold _run_agent. change (max_loops xml_unclosed_agent) with 5.
      rewrite Hloop. cbn [fst]. f_equal; by apply Hempty.
Defined.

Lemma xml_without_output_block_is_absorbed_witness :
  ∃ e,
    (react_iteration xml_bare_agent recording "q" 0 [] w0).1
    = Ok (Continue [exc_text e])
    ∧ exc_class e = ActionParsingException.
Proof.
  destruct (xml_without_output_block_is_absorbed xml_bare_agent recording "q" 0 [] w0
              "<action>search</action><action_input>{}</action_input>"
              (mk_exc JSONDecodeError "Expecting value"))
    as (e & _ & Hclass & Hit).
  - reflexivity.
  - reflexivity.
  - reflexivity.
  - reflexivity.
  - left. reflexivity.
  - reflexivity.
  - reflexivity.
  - exists e. split; [by rewrite Hit|exact Hclass].
Defined.

(** ** The tools and the store *)

(** Code that does not compile, and code whose [run] leaves the
    interpreter. *)
Lemma python_execute_absorbs_errors_witness :
  @PythonTool.execute demo_externals demo_sandbox "import os" (VDict []) (Some recording) w0
  = (Ok (VDict [("content", VStr "Code execution error: '{str(e)}'")]),
     delivered [("recorder", on_node_execute_run)] w0)
  ∧ @PythonTool.execute demo_externals demo_sandbox "def run(**kwargs): raise SystemExit"
      (VDict []) (Some recording) w0
    = (Raise (mk_exc (BaseExceptionOnly "SystemExit") EmptyString),
       delivered [("recorder", on_node_execute_run)] w0).
Proof.
  assert (Forall (fun h => on_event h on_node_execute_run = None)
            (callbacks (ensure_config (Some recording)))) as Hq by repeat constructor.
  split.
  - pose proof (@python_execute_absorbs_errors demo_externals demo_sandbox "import os"
                  (VDict []) (Some recording) w0 Hq) as Hx.
    cbv zeta in Hx. rewrite Hx. reflexivity.
  - pose proof (@python_execute_absorbs_errors demo_externals demo_sandbox
                  "def run(**kwargs): raise SystemExit" (VDict []) (Some recording) w0 Hq)
      as Hx.
    cbv zeta in Hx. rewrite Hx. reflexivity.
Defined.


Lemma distinct_demo_keys :
  distinct_keys (Http.headers demo_http) ∧ distinct_keys (Http.params demo_http)
  ∧ distinct_keys (Http.data demo_http)
  ∧ distinct_keys [("X-Env", VStr "input")].
Proof.
  unfold distinct_keys.
  repeat split; match goal with |- ?P => exact (bool_decide_unpack P I) end.
Defined.

(** The header [X-Env] is set at all three levels: the input's value is
    sent; [X-Node] comes from the node and [Accept] from the connection. *)
Lemma http_request_precedence_witness :
  ∃ request,
    Http.build_request demo_urljoin demo_http demo_http_input = Ok request
    ∧ dict_get (Http.request_headers request) "X-Env" = Some (VStr "input")
    ∧ dict_get (Http.request_headers request) "X-Node" = Some (VStr "1")
    ∧ dict_get (Http.request_headers request) "Accept" = Some (VStr "*/*").
Proof.
  eexists. split; [reflexivity|].
  destruct distinct_demo_keys as (Hh & Hp & Hd & Hi).
  destruct (http_request_precedence demo_urljoin demo_http demo_http_input _ eq_refl Hh Hp Hd)
    as (headers & params & data & Hheaders & _ & _ & Hlayer & _).
  vm_compute in Hheaders. injection Hheaders as <-.
  rewrite !(Hlayer Hi). repeat split; reflexivity.
Defined.

Lemma http_execute_returns_success_code_witness :
  ∃ response content,
    (@Http.execute demo_externals demo_urljoin demo_http demo_http_input (Some recording) w0).1
    = Ok (VDict [("content", content); ("status_code", VInt (Http.status_code response))])
    ∧ Http.status_code response ∈ Http.success_codes demo_http.
Proof.
  destruct (@http_execute_returns_success_code demo_externals demo_urljoin demo_http
              demo_http_input (Some recording) w0
              (delivered [("recorder", on_node_execute_run)] w0)
              (VDict [("content", VDict []); ("status_code", VInt 200)]))
    as (request & w1 & response & content & _ & _ & Hout & Hcode & _).
  - reflexivity.
  - exists response, content. split; [|exact Hcode]. rewrite <- Hout. reflexivity.
Defined.

(** The node was built without a response type and the response says
    [application/json]: the content is the decoded body. *)
Lemma http_json_detection_witness :
  @Http.execute demo_externals demo_urljoin demo_http demo_http_input (Some recording) w0
  = (Ok (VDict [("content", VDict []); ("status_code", VInt 200)]),
     delivered [("recorder", on_node_execute_run)] w0).
Proof.
  rewrite (@http_json_detection demo_externals demo_urljoin demo_http demo_http_input
             (Some recording) w0 (delivered [("recorder", on_node_execute_run)] w0)
             {| Http.request_method := "GET";
                Http.request_url := "https://api.example.com/v1/items";
                Http.request_headers := [("Accept", VStr "*/*"); ("X-Env", VStr "input");
                                         ("X-Node", VStr "1")];
                Http.request_params := []; Http.request_data := [];
                Http.request_timeout := 30%Q |}
             demo_response).
  - reflexivity.
  - repeat constructor.
  - reflexivity.
  - reflexivity.
  - apply list_elem_of_singleton. reflexivity.
  - reflexivity.
Defined.

(** With the plain class: a document without embedding goes out with the
    dummy vector and comes back as itself with the score of the match,
    without embedding, content and metadata intact. *)
Lemma pinecone_round_trip_witness :
  ∃ vectors,
    Pinecone._convert_documents_to_pinecone_format (DocumentClass0 := plain_documents)
      (-10)%Z 3 [demo_document] = Ok vectors
    ∧ (Pinecone._convert_query_result_to_documents (DocumentClass0 := plain_documents)
         (-10)%Z 3
         (zip_with (fun vector s => {| Pinecone.matched := vector; Pinecone.match_score := s |})
            vectors [7%Z])).1
      = Ok [{| plain_id := "doc-1"; plain_content := VStr "hello";
               plain_metadata := Some [("lang", VStr "en")];
               plain_embedding := None; plain_score := Some 7%Z |}].
Proof.
  apply (pinecone_round_trip (H := plain_documents) (-10)%Z 3 [demo_document] [7%Z]).
  - constructor; [|constructor]. split; [|discriminate].
    exists [("lang", VStr "en")]. split; reflexivity.
  - reflexivity.
Defined.

(** With the plain class, the match of the example: its content goes to
    the document and is gone from its metadata afterwards, the language is
    still there, and the document holds the metadata the match is left
    with. *)
Lemma pinecone_conversion_consumes_content_witness :
  ∃ document after,
    Pinecone._convert_query_result_to_documents (DocumentClass0 := plain_documents)
      (-10)%Z 3 [demo_match] = (Ok [document], [after])
    ∧ Pinecone.without_content demo_match after
    ∧ document
      = {| plain_id := "doc-1"; plain_content := VStr "hello";
           plain_metadata := Some (Pinecone.vector_metadata (Pinecone.matched after));
           plain_embedding := Some [1%Z; 2%Z]; plain_score := Some 7%Z |}.
Proof.
  destruct (pinecone_conversion_consumes_content (H := plain_documents) (-10)%Z 3 [demo_match])
    as [Hreturns _].
  - constructor; [|constructor]. unfold distinct_keys.
    match goal with |- ?P => exact (bool_decide_unpack P I) end.
  - destruct (Hreturns
                [{| plain_id := "doc-1"; plain_content := VStr "hello";
                    plain_metadata := Some [("lang", VStr "en")];
                    plain_embedding := Some [1%Z; 2%Z]; plain_score := Some 7%Z |}]
                eq_refl) as (Hleft & _ & _).
    eexists _, (Pinecone.popped demo_match). split; [reflexivity|].
    split; [|reflexivity].
    apply Forall2_cons_1 in Hleft. exact (proj1 Hleft).
Defined.

(** With the checking class, a match without content is refused: the
    conversion raises at it, the match before it has lost its content, the
    match after it still carries its own. *)
Example pinecone_refused_match :
  Pinecone._convert_query_result_to_documents (DocumentClass0 := checking_documents)
    (-10)%Z 3 [demo_match; bare_match; demo_match]
  = (Raise (mk_exc (OtherException "ValidationError") "1 validation error for Document"),
     [Pinecone.popped demo_match; bare_match; demo_match]).
Proof. reflexivity. Qed.
